(** * LLM_Based_Document_Builder: the conversational front end

    A shallow embedding of the React components of
    [document-processing/frontend/src] (App.js, the Chat component,
    components/Complete.js and components/Upload.js) and the properties
    the specification states about them.

    Modelling conventions.
    - A JavaScript string is the list of its UTF-16 code units ([Js.str]);
      a JavaScript number that is computed with is a binary64 value
      ([Js.num]).
    - A component's [useState] cells are the fields of a record; a handler
      is a function from the state (and from what its [await]s return) to
      the new state and the list of effects it performed, in order.
    - [fetch(...)] followed by [response.json()] either throws or yields
      the parsed body ([Fetched]).
    - An async handler is cut at its [await]s: the part up to the request
      and the part that runs on the response are separate functions, and
      the session model takes other events between them.
    - [setTimeout(() => loadNextQuestion(), 1000)] is an effect; the
      session model keeps the number of such calls still to run. *)

From Stdlib Require Import List Bool Arith NArith ZArith QArith Qabs Lia.
From Stdlib Require Import Ascii String.
From Stdlib Require Floats.SpecFloat.
Import ListNotations.

Set Implicit Arguments.

(* ================================================================== *)
(** ** JavaScript strings and numbers *)

Module Js.

Definition str : Type := list N.

(** An ASCII literal of the source as code units. *)
Definition lit (s : string) : str :=
  map N_of_ascii (list_ascii_of_string s).

Fixpoint eqb (a b : str) : bool :=
  match a, b with
  | [], [] => true
  | x :: a', y :: b' => N.eqb x y && eqb a' b'
  | _, _ => false
  end.

(** Truthiness of a string value: the empty string is falsy. *)
Definition truthy (s : str) : bool :=
  match s with [] => false | _ :: _ => true end.

(** WhiteSpace and LineTerminator code points of ECMAScript, the
    characters [String.prototype.trim] strips. *)
Definition is_space (c : N) : bool :=
  match c with
  | 9 | 10 | 11 | 12 | 13 | 32 | 160 => true
  | 5760 => true                      (* U+1680 *)
  | 8232 | 8233 | 8239 | 8287 => true (* U+2028 U+2029 U+202F U+205F *)
  | 12288 | 65279 => true             (* U+3000 U+FEFF *)
  | _ => (8192 <=? c) && (c <=? 8202) (* U+2000 .. U+200A *)
  end%N.

Fixpoint trimStart (s : str) : str :=
  match s with
  | c :: s' => if is_space c then trimStart s' else s
  | [] => []
  end.

Definition trimEnd (s : str) : str := rev (trimStart (rev s)).

Definition trim (s : str) : str := trimEnd (trimStart s).

Fixpoint startsWith (p s : str) : bool :=
  match p, s with
  | [], _ => true
  | x :: p', y :: s' => N.eqb x y && startsWith p' s'
  | _ :: _, [] => false
  end.

Definition endsWith (p s : str) : bool := startsWith (rev p) (rev s).

(** [s.includes(p)]: [p] occurs in [s] at some position. *)
Fixpoint includes (p s : str) : bool :=
  startsWith p s ||
  match s with
  | [] => false
  | _ :: s' => includes p s'
  end.

(** Decimal rendering of a non-negative integer, as template literals
    print a number. *)
Definition digit (d : N) : N := 48 + d.

Fixpoint of_uint (u : Decimal.uint) : str :=
  match u with
  | Decimal.Nil => []
  | Decimal.D0 u' => digit 0 :: of_uint u'
  | Decimal.D1 u' => digit 1 :: of_uint u'
  | Decimal.D2 u' => digit 2 :: of_uint u'
  | Decimal.D3 u' => digit 3 :: of_uint u'
  | Decimal.D4 u' => digit 4 :: of_uint u'
  | Decimal.D5 u' => digit 5 :: of_uint u'
  | Decimal.D6 u' => digit 6 :: of_uint u'
  | Decimal.D7 u' => digit 7 :: of_uint u'
  | Decimal.D8 u' => digit 8 :: of_uint u'
  | Decimal.D9 u' => digit 9 :: of_uint u'
  end.

Definition of_N (n : N) : str := of_uint (N.to_uint n).

(** A field of a parsed body spliced into a template literal: a field
    that is absent prints as "undefined". *)
Definition show (v : option str) : str :=
  match v with
  | Some s => s
  | None => lit "undefined"
  end.

(** [${n + 1}] for a numeric field: [undefined + 1] is NaN. *)
Definition show_succ (v : option N) : str :=
  match v with
  | Some n => of_N (n + 1)
  | None => lit "NaN"
  end.

(** Numbers are binary64: 53 bits of precision, exponents below 1024.
    [/] and [*] round to nearest, ties to even. *)
Definition num : Type := SpecFloat.spec_float.

(** The number an integer of a parsed body denotes; exact below 2^53. *)
Definition num_of_N (n : N) : num :=
  SpecFloat.binary_normalize 53 1024 (Z.of_N n) 0 false.

Definition div (a b : num) : num := SpecFloat.SFdiv 53 1024 a b.

Definition mul (a b : num) : num := SpecFloat.SFmul 53 1024 a b.

(** The rational a finite number stands for. *)
Definition num_to_Q (x : num) : option Q :=
  match x with
  | SpecFloat.S754_zero _ => Some 0
  | SpecFloat.S754_finite s m e =>
      let v := if (0 <=? e)%Z then inject_Z (Z.pos m * 2 ^ e)
               else Z.pos m # (2 ^ Z.to_pos (- e))%positive in
      Some (if s then - v else v)
  | _ => None
  end.

End Js.

Notation "'$' s" := (Js.lit s) (at level 9, s at level 0, format "'$' s").

(* ================================================================== *)
(** ** Data exchanged with the backend *)

(** What an awaited [fetch] + [json()] delivers. *)
Inductive Fetched (A : Type) : Type :=
| Threw (message : Js.str)
| Json (data : A).
Arguments Threw {A} message.
Arguments Json {A} data.

(** An element of [data.placeholders]; the fields the front end reads. *)
Record Placeholder : Type := mkPlaceholder {
  placeholder_id : Js.str;
  placeholder_name : Js.str;
  prompt_text : option Js.str;     (* may be absent *)
  status : Js.str
}.

Record ProgressData : Type := mkProgressData {
  pd_filled : N;
  pd_auto_filled : N;
  pd_total : N
}.

(** Body of [GET /placeholders/<ref>]. *)
Record PlaceholdersData : Type := mkPlaceholdersData {
  pl_progress : ProgressData;
  pl_placeholders : list Placeholder
}.

(** Body of [POST /fill_placeholder/<ref>/<id>]; every field but the
    status may be absent, depending on the status. *)
Record FillData : Type := mkFillData {
  fd_status : Js.str;
  fd_normalized_value : option Js.str;
  fd_hint : option Js.str;
  fd_attempts : option N;
  fd_value : option Js.str
}.

(** Body of [POST /generate_final_doc/<ref>]. *)
Record GenerateData : Type := mkGenerateData {
  gd_status : Js.str;
  gd_final_document : Js.str;
  gd_error : option Js.str
}.

(** What a handler does besides updating the component state. *)
Inductive Effect : Type :=
| GetPlaceholders
| PostFill (pid user_input : Js.str) (consent_auto_suggest : bool)
| PostGenerate
| OnComplete (final_document : Js.str)
| SetTimeoutLoad.

(* ================================================================== *)
(** ** The Chat component *)

Module Chat.

Inductive MsgType : Type := bot | user | error.

Definition MsgType_eqb (a b : MsgType) : bool :=
  match a, b with
  | bot, bot | user, user | error, error => true
  | _, _ => false
  end.

(** An element of [messages]; only question messages carry
    [placeholder]. *)
Record Message : Type := mkMessage {
  type : MsgType;
  text : Js.str;
  placeholder : option Placeholder
}.

Definition msg (t : MsgType) (s : Js.str) : Message := mkMessage t s None.

Record Progress : Type := mkProgress { filled : N; total : N }.

(** The six [useState] cells of [Chat]. *)
Record State : Type := mkState {
  messages : list Message;
  input : Js.str;
  loading : bool;
  progress : Progress;
  currentPlaceholder : option Placeholder;
  showAutoSuggest : bool
}.

Definition init : State :=
  mkState [] [] false (mkProgress 0 0) None false.

(** *** State setters *)

Definition setMessages (f : list Message -> list Message) (s : State) :=
  mkState (f (messages s)) (input s) (loading s) (progress s)
          (currentPlaceholder s) (showAutoSuggest s).
Definition setInput (v : Js.str) (s : State) :=
  mkState (messages s) v (loading s) (progress s)
          (currentPlaceholder s) (showAutoSuggest s).
Definition setLoading (v : bool) (s : State) :=
  mkState (messages s) (input s) v (progress s)
          (currentPlaceholder s) (showAutoSuggest s).
Definition setProgress (v : Progress) (s : State) :=
  mkState (messages s) (input s) (loading s) v
          (currentPlaceholder s) (showAutoSuggest s).
Definition setCurrentPlaceholder (v : option Placeholder) (s : State) :=
  mkState (messages s) (input s) (loading s) (progress s)
          v (showAutoSuggest s).
Definition setShowAutoSuggest (v : bool) (s : State) :=
  mkState (messages s) (input s) (loading s) (progress s)
          (currentPlaceholder s) v.

(** [setMessages(prev => [...prev, m])] *)
Definition append (m : Message) : State -> State :=
  setMessages (fun prev => prev ++ [m]).

(** *** Message texts *)

(* U+2713, U+274C, U+1F914, U+2728, U+1F389 *)
Definition check_mark : Js.str := [10003%N].
Definition cross_mark : Js.str := [10060%N].
Definition thinking_face : Js.str := [55358%N; 56596%N].
Definition sparkles : Js.str := [10024%N].
Definition party_popper : Js.str := [55356%N; 57225%N].

Definition accepted_text (d : FillData) : Js.str :=
  check_mark ++ $" Got it! Saved as: " ++ Js.show (fd_normalized_value d).

Definition rejected_text (d : FillData) : Js.str :=
  cross_mark ++ $" " ++ Js.show (fd_hint d) ++ [10%N; 10%N]
    ++ $"Please try again (Attempt " ++ Js.show_succ (fd_attempts d)
    ++ $"/2)".

Definition offer_text : Js.str :=
  thinking_face
    ++ $" Having trouble? I can suggest a value based on the document context.".

Definition auto_filled_text (d : FillData) : Js.str :=
  sparkles ++ $" Auto-filled with: " ++ Js.show (fd_value d).

Definition skip_text : Js.str := $"Okay, please provide the value manually.".

Definition all_filled_text : Js.str :=
  party_popper ++ $" All placeholders filled! Generating final document...".

(** [pending.prompt_text || `Please provide ${pending.placeholder_name}`] *)
Definition questionText (p : Placeholder) : Js.str :=
  match prompt_text p with
  | Some t => if Js.truthy t then t
              else $"Please provide " ++ placeholder_name p
  | None => $"Please provide " ++ placeholder_name p
  end.

(** *** generateFinalDoc *)

Definition generateFinalDoc (g : Fetched GenerateData) (s : State)
  : State * list Effect :=
  let s := setLoading true s in
  let s := append (msg bot all_filled_text) s in
  match g with
  | Json data =>
      if Js.eqb (gd_status data) $"ok" then
        (setLoading false s, [PostGenerate; OnComplete (gd_final_document data)])
      else
        let why := match gd_error data with
                   | Some e => if Js.truthy e then e else $"Unknown error"
                   | None => $"Unknown error"
                   end in
        (setLoading false
           (append (msg error ($"Error generating document: " ++ why)) s),
         [PostGenerate])
  | Threw m =>
      (setLoading false (append (msg error ($"Error: " ++ m)) s),
       [PostGenerate])
  end.

(** *** loadNextQuestion *)

(** [data.placeholders.find(p => p.status === 'pending')] *)
Definition is_pending (p : Placeholder) : bool := Js.eqb (status p) $"pending".

Definition find_pending (ps : list Placeholder) : option Placeholder :=
  find is_pending ps.

(** The updater passed to [setMessages] inside [loadNextQuestion]. *)
Definition ask (pending : Placeholder) (prev : list Message) : list Message :=
  let q := questionText pending in
  match nth_error prev (List.length prev - 1) with
  | Some lastMsg =>
      if MsgType_eqb (type lastMsg) bot && Js.eqb (text lastMsg) q
      then prev
      else prev ++ [mkMessage bot q (Some pending)]
  | None => prev ++ [mkMessage bot q (Some pending)]
  end.

(** The updater passed to [setCurrentPlaceholder]: it returns [pending]
    and, for a placeholder other than the previous one, asks its
    question. *)
Definition activate (pending : Placeholder) (s : State) : State :=
  let differs :=
    match currentPlaceholder s with
    | None => true
    | Some prev =>
        negb (Js.eqb (placeholder_id prev) (placeholder_id pending))
    end in
  let s := if differs then setMessages (ask pending) s else s in
  setCurrentPlaceholder (Some pending) s.

Definition loadNextQuestion
    (r : Fetched PlaceholdersData) (g : Fetched GenerateData) (s : State)
  : State * list Effect :=
  let s := setLoading true s in
  match r with
  | Json data =>
      let s := setProgress
                 (mkProgress
                    (pd_filled (pl_progress data)
                     + pd_auto_filled (pl_progress data))
                    (pd_total (pl_progress data))) s in
      match find_pending (pl_placeholders data) with
      | Some pending =>
          (setLoading false (activate pending s), [GetPlaceholders])
      | None =>
          let '(s, effs) := generateFinalDoc g s in
          (setLoading false s, GetPlaceholders :: effs)
      end
  | Threw m =>
      (setLoading false
         (append (msg error ($"Error loading questions: " ++ m)) s),
       [GetPlaceholders])
  end.

(** [loadNextQuestion] cut at its awaits.  Up to the first [fetch]: *)
Definition loadNextQuestion_start (s : State) : State := setLoading true s.

(** ... from the response of [GET /placeholders] to the end, or, with no
    placeholder pending, into [generateFinalDoc] up to its [fetch]: *)
Definition loadNextQuestion_listed (r : Fetched PlaceholdersData) (s : State)
  : State * list Effect :=
  match r with
  | Json data =>
      let s := setProgress
                 (mkProgress
                    (pd_filled (pl_progress data)
                     + pd_auto_filled (pl_progress data))
                    (pd_total (pl_progress data))) s in
      match find_pending (pl_placeholders data) with
      | Some pending => (setLoading false (activate pending s), [])
      | None =>
          (append (msg bot all_filled_text) (setLoading true s), [PostGenerate])
      end
  | Threw m =>
      (setLoading false
         (append (msg error ($"Error loading questions: " ++ m)) s),
       [])
  end.

(** ... and from the response of [POST /generate_final_doc] through the
    rest of [generateFinalDoc] and the [finally] of [loadNextQuestion]. *)
Definition loadNextQuestion_generated (g : Fetched GenerateData) (s : State)
  : State * list Effect :=
  match g with
  | Json data =>
      if Js.eqb (gd_status data) $"ok" then
        (setLoading false (setLoading false s),
         [OnComplete (gd_final_document data)])
      else
        let why := match gd_error data with
                   | Some e => if Js.truthy e then e else $"Unknown error"
                   | None => $"Unknown error"
                   end in
        (setLoading false
           (setLoading false
              (append (msg error ($"Error generating document: " ++ why)) s)),
         [])
  | Threw m =>
      (setLoading false
         (setLoading false (append (msg error ($"Error: " ++ m)) s)),
       [])
  end.

(** *** handleSubmit *)

(** Up to the [fetch]: the guard, the user's message and the request. *)
Definition handleSubmit_send (s : State) : option (State * Effect) :=
  match currentPlaceholder s with
  | Some cur =>
      if Js.truthy (Js.trim (input s)) then
        let userMessage := Js.trim (input s) in
        let s' := setInput [] s in
        let s' := append (msg user userMessage) s' in
        let s' := setLoading true s' in
        Some (s', PostFill (placeholder_id cur) userMessage (showAutoSuggest s))
      else None
  | None => None
  end.

(** After the [await]: the four status branches, [catch], [finally]. *)
Definition handleSubmit_receive (r : Fetched FillData) (s : State)
  : State * list Effect :=
  match r with
  | Json data =>
      if Js.eqb (fd_status data) $"accepted" then
        (setLoading false
           (setShowAutoSuggest false (append (msg bot (accepted_text data)) s)),
         [SetTimeoutLoad])
      else if Js.eqb (fd_status data) $"rejected" then
        (setLoading false (append (msg bot (rejected_text data)) s), [])
      else if Js.eqb (fd_status data) $"offer_auto_suggest" then
        (setLoading false
           (setShowAutoSuggest true (append (msg bot offer_text) s)),
         [])
      else if Js.eqb (fd_status data) $"auto_filled" then
        (setLoading false
           (setShowAutoSuggest false
              (append (msg bot (auto_filled_text data)) s)),
         [SetTimeoutLoad])
      else (setLoading false s, [])
  | Threw m =>
      (setLoading false (append (msg error ($"Error: " ++ m)) s), [])
  end.

Definition handleSubmit (r : Fetched FillData) (s : State)
  : State * list Effect :=
  match handleSubmit_send s with
  | Some (s', req) =>
      let '(s'', effs) := handleSubmit_receive r s' in (s'', req :: effs)
  | None => (s, [])
  end.

(** *** handleSkipAutoSuggest, handleAcceptAutoSuggest *)

Definition handleSkipAutoSuggest (s : State) : State :=
  append (msg bot skip_text) (setShowAutoSuggest false s).

(** [err.message] of the TypeError raised by
    [currentPlaceholder.placeholder_id] on [null] (V8's wording). *)
Definition null_placeholder_message : Js.str :=
  $"Cannot read properties of null (reading 'placeholder_id')".

Definition handleAcceptAutoSuggest (r : Fetched FillData) (s : State)
  : State * list Effect :=
  let s := append (msg user $"(Accept auto-suggestion)") s in
  let s := setInput $"dummy" s in
  let s := setShowAutoSuggest true s in
  let s := setLoading true s in
  match currentPlaceholder s with
  | Some cur =>
      let req := PostFill (placeholder_id cur) $"auto" true in
      match r with
      | Json data =>
          if Js.eqb (fd_status data) $"auto_filled" then
            (setLoading false
               (setShowAutoSuggest false
                  (append (msg bot (auto_filled_text data)) s)),
             [req; SetTimeoutLoad])
          else (setLoading false s, [req])
      | Threw m =>
          (setLoading false (append (msg error ($"Error: " ++ m)) s), [req])
      end
  | None =>
      (setLoading false
         (append (msg error ($"Error: " ++ null_placeholder_message)) s),
       [])
  end.

(** [handleAcceptAutoSuggest] cut at its await.  Up to the [fetch]; with
    no placeholder active the URL cannot be built and the handler ends in
    its [catch] and [finally] without sending anything: *)
Definition handleAccept_send (s : State) : State * option Effect :=
  let s := append (msg user $"(Accept auto-suggestion)") s in
  let s := setInput $"dummy" s in
  let s := setShowAutoSuggest true s in
  let s := setLoading true s in
  match currentPlaceholder s with
  | Some cur => (s, Some (PostFill (placeholder_id cur) $"auto" true))
  | None =>
      (setLoading false
         (append (msg error ($"Error: " ++ null_placeholder_message)) s),
       None)
  end.

(** ... and on the response: the one status branch, [catch],
    [finally]. *)
Definition handleAccept_receive (r : Fetched FillData) (s : State)
  : State * list Effect :=
  match r with
  | Json data =>
      if Js.eqb (fd_status data) $"auto_filled" then
        (setLoading false
           (setShowAutoSuggest false
              (append (msg bot (auto_filled_text data)) s)),
         [SetTimeoutLoad])
      else (setLoading false s, [])
  | Threw m =>
      (setLoading false (append (msg error ($"Error: " ++ m)) s), [])
  end.

(** *** What the component renders *)

(** [progressPercent]: the quotient is rounded to a binary64 number,
    and so is its product with 100. *)
Definition progressPercent (s : State) : Js.num :=
  if (0 <? total (progress s))%N then
    Js.mul (Js.div (Js.num_of_N (filled (progress s)))
                   (Js.num_of_N (total (progress s))))
           (Js.num_of_N 100)
  else Js.num_of_N 0.

(** The "<filled> of <total> complete" line. *)
Definition progressLine (s : State) : Js.str :=
  Js.of_N (filled (progress s)) ++ $" of " ++ Js.of_N (total (progress s))
    ++ $" complete".

(** The auto-suggest buttons are rendered only under [showAutoSuggest]. *)
Definition autoSuggestButtons_shown (s : State) : bool := showAutoSuggest s.

(** [disabled] of the text input and of the Send button. *)
Definition input_disabled (s : State) : bool :=
  loading s || showAutoSuggest s.

Definition send_disabled (s : State) : bool :=
  loading s || negb (Js.truthy (Js.trim (input s))) || showAutoSuggest s.

End Chat.

(* ================================================================== *)
(** ** The App component *)

Module App.

Inductive Step : Type := upload | chat | complete.

(** Body of a successful [POST /upload] ([data.data]). *)
Record UploadData : Type := mkUploadData {
  reference_number : Js.str;
  document_summary : Js.str
}.

Record State : Type := mkState {
  step : Step;
  refNumber : option Js.str;
  documentSummary : Js.str;
  finalDocument : Js.str
}.

Definition init : State := mkState upload None [] [].

Definition handleUploadSuccess (data : UploadData) (a : State) : State :=
  mkState chat (Some (reference_number data)) (document_summary data)
          (finalDocument a).

Definition handleChatComplete (finalDoc : Js.str) (a : State) : State :=
  mkState complete (refNumber a) (documentSummary a) finalDoc.

Definition handleStartOver (a : State) : State :=
  mkState upload None [] [].

(** [Chat] is rendered, hence its controls exist, only in step [chat]. *)
Definition chat_mounted (a : State) : bool :=
  match step a with chat => true | _ => false end.

(** [Complete], with its "Process Another Document" button, is rendered
    only in step [complete]. *)
Definition complete_mounted (a : State) : bool :=
  match step a with complete => true | _ => false end.

End App.

(* ================================================================== *)
(** ** A fulfilment session: App and Chat driven by events

    One session is the life of one mounted [Chat], from the upload that
    mounts it.  An event is a user action on a control of the rendered
    view, the firing of a timer set by [setTimeout], or the arrival of
    the response to a request that is in flight, which is whatever the
    backend sends.  A handler runs from one [await] to the next without
    interruption and sees the state the earlier events left; between the
    request and its response any other event may be taken, and responses
    arrive in any order.

    Requests and timers are never cancelled.  When [App] leaves step
    [chat] the component is unmounted: its controls are gone and the state
    updates of what is still outstanding are lost, but the effects still
    happen (further requests, timers, [onComplete]).  The model follows
    them, also after "Process Another Document" has brought [App] back to
    the upload view; a later upload mounts another [Chat] and starts
    another session. *)

Module Session.

(** The control a fill_placeholder request was sent from. *)
Inductive Origin : Type := Form | AcceptButton.

(** A request in flight, with what the code waiting for it needs. *)
Inductive Pending : Type :=
| AwaitFill (from : Origin) (pid : Js.str)
| AwaitList
| AwaitGenerate.

(** What crossed the network or was decided by the user, most recent
    first. *)
Inductive Obs : Type :=
| Sent (pid user_input : Js.str) (consent : bool)
                                      (* POST fill_placeholder goes out *)
| Answered (from : Origin) (pid : Js.str) (r : Fetched FillData)
                                      (* ... and its response is handled *)
| Listing                             (* GET placeholders goes out *)
| Listed (r : Fetched PlaceholdersData)
| Generating                          (* POST generate_final_doc goes out *)
| Generated (g : Fetched GenerateData)
| Completed (final_document : Js.str) (* onComplete is called *)
| Declined                            (* "Fill Manually" *)
| StartedOver.                        (* "Process Another Document" *)

Record State : Type := mkState {
  app : App.State;
  chat : Chat.State;
  scheduled : nat;          (* timers for loadNextQuestion still to fire *)
  inflight : list Pending;  (* requests sent and not yet answered *)
  history : list Obs
}.

(** [Chat] has just been mounted after an upload and its mount effect has
    called [loadNextQuestion], which awaits the first listing. *)
Definition init (data : App.UploadData) : State :=
  mkState (App.handleUploadSuccess data App.init)
          (Chat.loadNextQuestion_start Chat.init) 0 [AwaitList] [Listing].

Inductive Event : Type :=
| Typed (v : Js.str)          (* onChange of the input *)
| SubmitClicked               (* onSubmit of the form *)
| SkipClicked                 (* "Fill Manually" *)
| AcceptClicked               (* "Accept Auto-Suggestion" *)
| StartOverClicked            (* "Process Another Document" *)
| TimerFired                  (* a scheduled loadNextQuestion starts *)
| FillAnswered (i : nat) (r : Fetched FillData)
| ListAnswered (i : nat) (r : Fetched PlaceholdersData)
| GenerateAnswered (i : nat) (g : Fetched GenerateData).
                              (* the request at position i of [inflight]
                                 is answered *)

Definition mounted (s : State) : bool := App.chat_mounted (app s).

(** The control the event comes from is rendered and not disabled; a
    timer fires only if one is set; a response answers a request of its
    kind that is in flight. *)
Definition enabled (s : State) (e : Event) : bool :=
  match e with
  | Typed _ => mounted s && negb (Chat.input_disabled (chat s))
  | SubmitClicked => mounted s && negb (Chat.send_disabled (chat s))
  | SkipClicked | AcceptClicked =>
      mounted s && Chat.autoSuggestButtons_shown (chat s)
  | StartOverClicked => App.complete_mounted (app s)
  | TimerFired => (0 <? scheduled s)%nat
  | FillAnswered i _ =>
      match nth_error (inflight s) i with
      | Some (AwaitFill _ _) => true
      | _ => false
      end
  | ListAnswered i _ =>
      match nth_error (inflight s) i with
      | Some AwaitList => true
      | _ => false
      end
  | GenerateAnswered i _ =>
      match nth_error (inflight s) i with
      | Some AwaitGenerate => true
      | _ => false
      end
  end.

Definition remove_nth {A} (i : nat) (l : list A) : list A :=
  firstn i l ++ skipn (S i) l.

(** A state update of [Chat] made outside a click: lost once the
    component is unmounted. *)
Definition settle (s : State) (c : Chat.State) : State :=
  mkState (app s) (if mounted s then c else chat s) (scheduled s)
          (inflight s) (history s).

(** A fill_placeholder request goes out from a control of [Chat]. *)
Definition post (from : Origin) (s : State) (c : Chat.State) (req : Effect)
  : State :=
  match req with
  | PostFill pid inp consent =>
      mkState (app s) c (scheduled s) (inflight s ++ [AwaitFill from pid])
              (Sent pid inp consent :: history s)
  | _ => s
  end.

(** The effects of the code that runs on a timer or on a response.  (A
    fill_placeholder request is only sent from a control, by [post].) *)
Definition perform (s : State) (eff : Effect) : State :=
  match eff with
  | GetPlaceholders =>
      mkState (app s) (chat s) (scheduled s) (inflight s ++ [AwaitList])
              (Listing :: history s)
  | PostGenerate =>
      mkState (app s) (chat s) (scheduled s) (inflight s ++ [AwaitGenerate])
              (Generating :: history s)
  | OnComplete doc =>
      mkState (App.handleChatComplete doc (app s)) (chat s) (scheduled s)
              (inflight s) (Completed doc :: history s)
  | SetTimeoutLoad =>
      mkState (app s) (chat s) (S (scheduled s)) (inflight s) (history s)
  | PostFill _ _ _ => s
  end.

(** The request at position [i] has been answered. *)
Definition answered (i : nat) (o : Obs) (s : State) : State :=
  mkState (app s) (chat s) (scheduled s) (remove_nth i (inflight s))
          (o :: history s).

(** What the code waiting for a response did. *)
Definition commit (s : State) (out : Chat.State * list Effect) : State :=
  fold_left perform (snd out) (settle s (fst out)).

Definition fire (e : Event) (s : State) : State :=
  match e with
  | Typed v =>
      mkState (app s) (Chat.setInput v (chat s)) (scheduled s) (inflight s)
              (history s)
  | SubmitClicked =>
      match Chat.handleSubmit_send (chat s) with
      | Some (c, req) => post Form s c req
      | None => s
      end
  | SkipClicked =>
      mkState (app s) (Chat.handleSkipAutoSuggest (chat s)) (scheduled s)
              (inflight s) (Declined :: history s)
  | AcceptClicked =>
      match Chat.handleAccept_send (chat s) with
      | (c, Some req) => post AcceptButton s c req
      | (c, None) =>
          mkState (app s) c (scheduled s) (inflight s) (history s)
      end
  | StartOverClicked =>
      mkState (App.handleStartOver (app s)) (chat s) (scheduled s)
              (inflight s) (StartedOver :: history s)
  | TimerFired =>
      perform
        (settle (mkState (app s) (chat s) (pred (scheduled s)) (inflight s)
                         (history s))
                (Chat.loadNextQuestion_start (chat s)))
        GetPlaceholders
  | FillAnswered i r =>
      match nth_error (inflight s) i with
      | Some (AwaitFill from pid) =>
          commit (answered i (Answered from pid r) s)
                 (match from with
                  | Form => Chat.handleSubmit_receive r (chat s)
                  | AcceptButton => Chat.handleAccept_receive r (chat s)
                  end)
      | _ => s
      end
  | ListAnswered i r =>
      match nth_error (inflight s) i with
      | Some AwaitList =>
          commit (answered i (Listed r) s)
                 (Chat.loadNextQuestion_listed r (chat s))
      | _ => s
      end
  | GenerateAnswered i g =>
      match nth_error (inflight s) i with
      | Some AwaitGenerate =>
          commit (answered i (Generated g) s)
                 (Chat.loadNextQuestion_generated g (chat s))
      | _ => s
      end
  end.

Definition step (s : State) (e : Event) : State :=
  if enabled s e then fire e s else s.

Definition run (evs : list Event) (s : State) : State := fold_left step evs s.

(** *** Reading the history *)

Definition status_in (names : list Js.str) (r : Fetched FillData) : bool :=
  match r with
  | Json d => existsb (Js.eqb (fd_status d)) names
  | Threw _ => false
  end.

(** The response resolves the placeholder. *)
Definition resolving : Fetched FillData -> bool :=
  status_in [$"accepted"; $"auto_filled"].

Definition offering : Fetched FillData -> bool :=
  status_in [$"offer_auto_suggest"].

(** Some earlier response for [pid] resolved it. *)
Definition resolved_in (pid : Js.str) (h : list Obs) : bool :=
  existsb (fun o => match o with
                    | Answered _ p r => Js.eqb p pid && resolving r
                    | _ => false
                    end) h.

(** An earlier response for [pid] had status offer_auto_suggest and the
    user has not declined since. *)
Fixpoint offer_stands (pid : Js.str) (past : list Obs) : bool :=
  match past with
  | [] => false
  | Declined :: _ => false
  | Answered _ p r :: past' =>
      (Js.eqb p pid && offering r) || offer_stands pid past'
  | _ :: past' => offer_stands pid past'
  end.

(** Every submission carrying consent has a standing offer for the
    placeholder it is sent for. *)
Fixpoint consent_justified (h : list Obs) : bool :=
  match h with
  | [] => true
  | Sent pid _ true :: past => offer_stands pid past && consent_justified past
  | _ :: past => consent_justified past
  end.

(** The same without regard to the placeholder: some earlier response
    to an answer sent from the form had status offer_auto_suggest and
    the user has not declined since. *)
Fixpoint offer_open (past : list Obs) : bool :=
  match past with
  | [] => false
  | Declined :: _ => false
  | Answered Form _ r :: past' => offering r || offer_open past'
  | _ :: past' => offer_open past'
  end.

Fixpoint consent_backed (h : list Obs) : bool :=
  match h with
  | [] => true
  | Sent _ _ true :: past => offer_open past && consent_backed past
  | _ :: past => consent_backed past
  end.

Definition carries_consent (o : Obs) : bool :=
  match o with Sent _ _ c => c | _ => false end.

Definition is_generation (o : Obs) : bool :=
  match o with Generating => true | _ => false end.

(** Number of times final document generation was invoked. *)
Definition generations (h : list Obs) : nat :=
  List.length (filter is_generation h).

(** The backend resolves a placeholder once: it answers accepted or
    auto_filled for a placeholder at most one time (specification 4.5,
    edge cases; scenario D). *)
Fixpoint resolved_once (h : list Obs) : bool :=
  match h with
  | [] => true
  | Answered _ pid r :: past =>
      negb (resolving r && resolved_in pid past) && resolved_once past
  | _ :: past => resolved_once past
  end.

End Session.

(* ================================================================== *)
(** ** The Complete component *)

Module Complete.

Definition downloadUrl (refNumber finalDocument : Js.str) : Js.str :=
  $"http://localhost:5051/download/" ++ refNumber ++ $"/" ++ finalDocument.

Definition isDraft (finalDocument : Js.str) : bool :=
  Js.includes $"draft" finalDocument.

(** The elements of the rendered view, top to bottom. *)
Inductive Element : Type :=
| Header
| ReferenceBadge (refNumber : Js.str)
| SuccessIcon
| ReadyTitle
| DraftNotice
| CompleteText
| DownloadButton (finalDocument : Js.str)
| StartOverButton
| NextReview
| NextVerifyAutoFilled
| NextShare
| NextSign.

Definition render (refNumber finalDocument : Js.str) : list Element :=
  [Header; ReferenceBadge refNumber; SuccessIcon; ReadyTitle]
    ++ (if isDraft finalDocument then [DraftNotice] else [])
    ++ [CompleteText; DownloadButton finalDocument; StartOverButton; NextReview]
    ++ (if isDraft finalDocument then [NextVerifyAutoFilled] else [])
    ++ [NextShare; NextSign].

End Complete.

(* ================================================================== *)
(** ** The Upload component *)

Module Upload.

(** A [File] of a file input or of a drop; the fields the code reads. *)
Record File : Type := mkFile { name : Js.str; size : N }.

Record State : Type := mkState {
  file : option File;
  uploading : bool;
  error : Js.str;
  dragOver : bool
}.

Definition init : State := mkState None false [] false.

(** Body and [ok] flag of the response to [POST /upload]. *)
Record UploadResponse : Type := mkUploadResponse {
  ok : bool;
  success : bool;
  data : App.UploadData;
  error_text : option Js.str
}.

Inductive Effect : Type :=
| PostUpload (f : File)
| OnSuccess (d : App.UploadData).

(** [files[0]] is [undefined] for an empty list. *)
Definition handleFileChange (files : list File) (s : State) : State :=
  match hd_error files with
  | Some selectedFile =>
      if Js.endsWith $".docx" (name selectedFile)
      then mkState (Some selectedFile) (uploading s) [] (dragOver s)
      else mkState (file s) (uploading s) $"Please select a .docx file"
                   (dragOver s)
  | None =>
      mkState (file s) (uploading s) $"Please select a .docx file" (dragOver s)
  end.

Definition handleDrop (files : list File) (s : State) : State :=
  match hd_error files with
  | Some droppedFile =>
      if Js.endsWith $".docx" (name droppedFile)
      then mkState (Some droppedFile) (uploading s) [] false
      else mkState (file s) (uploading s) $"Please drop a .docx file" false
  | None => mkState (file s) (uploading s) $"Please drop a .docx file" false
  end.

Definition handleUpload (r : Fetched UploadResponse) (s : State)
  : State * list Effect :=
  match file s with
  | None => (s, [])
  | Some f =>
      match r with
      | Json resp =>
          if ok resp && success resp then
            (mkState (file s) false [] (dragOver s),
             [PostUpload f; OnSuccess (data resp)])
          else
            let why := match error_text resp with
                       | Some e => if Js.truthy e then e else $"Upload failed"
                       | None => $"Upload failed"
                       end in
            (mkState (file s) false why (dragOver s), [PostUpload f])
      | Threw m =>
          (mkState (file s) false ($"Network error: " ++ m) (dragOver s),
           [PostUpload f])
      end
  end.

(** [disabled] of the upload button. *)
Definition upload_disabled (s : State) : bool :=
  match file s with None => true | Some _ => uploading s end.

End Upload.

(* ================================================================== *)
(** * Notions the properties are stated with *)

(** The status vocabulary of [submit_answer] (specification 6). *)
Definition statuses : list Js.str :=
  [$"accepted"; $"rejected"; $"offer_auto_suggest"; $"auto_filled"].

(** ASCII lower-casing, to look for words whatever their case. *)
Definition ascii_lower (t : Js.str) : Js.str :=
  map (fun c => if (65 <=? c)%N && (c <=? 90)%N then (c + 32)%N else c) t.

(** Words by which a message could tell that a suggested value is a best
    guess that may be wrong and leaves the document a draft. *)
Definition tradeoff_words : list Js.str :=
  [$"guess"; $"wrong"; $"incorrect"; $"inaccurate"; $"mistake";
   $"may not"; $"might not"; $"draft"; $"verify"; $"unsure";
   $"uncertain"; $"approximate"].

Definition mentions_tradeoff (t : Js.str) : bool :=
  existsb (fun w => Js.includes w (ascii_lower t)) tradeoff_words.

(** No question message directly follows a bot message with the same
    text. *)
Definition repeats (m1 m2 : Chat.Message) : bool :=
  match Chat.placeholder m2 with
  | Some _ =>
      Chat.MsgType_eqb (Chat.type m1) Chat.bot
      && Js.eqb (Chat.text m1) (Chat.text m2)
  | None => false
  end.

Fixpoint no_repeated_question (ms : list Chat.Message) : bool :=
  match ms with
  | m1 :: rest =>
      match rest with
      | m2 :: _ => negb (repeats m1 m2)
      | [] => true
      end && no_repeated_question rest
  | [] => true
  end.

(** The chosen file, if any, has a name ending in ".docx". *)
Definition docx_chosen (s : Upload.State) : bool :=
  match Upload.file s with
  | Some f => Js.endsWith $".docx" (Upload.name f)
  | None => true
  end.

(** A message that is not a question. *)
Definition plain (m : Chat.Message) : Prop := Chat.placeholder m = None.

(** The response has status auto_filled. *)
Definition auto_filling : Fetched FillData -> bool :=
  Session.status_in [$"auto_filled"].

(** [showAutoSuggest] after [handleSubmit] has handled a response. *)
Definition show_after (r : Fetched FillData) (show : bool) : bool :=
  if Session.resolving r then false
  else if Session.offering r then true
  else show.

(** [showAutoSuggest] after the response to a request sent from [from]
    has been handled. *)
Definition shown_after (from : Session.Origin) (r : Fetched FillData)
    (show : bool) : bool :=
  match from with
  | Session.Form => show_after r show
  | Session.AcceptButton => if auto_filling r then false else show
  end.

(** A response to an answer sent from the form had status
    offer_auto_suggest. *)
Definition offered (o : Session.Obs) : bool :=
  match o with
  | Session.Answered Session.Form _ r => Session.offering r
  | _ => false
  end.

(** No response to an answer sent from the form so far had status
    offer_auto_suggest. *)
Definition never_offered (h : list Session.Obs) : bool :=
  forallb (fun o => negb (offered o)) h.

(** No submission so far carried consent. *)
Definition no_consent (h : list Session.Obs) : bool :=
  forallb (fun o => negb (Session.carries_consent o)) h.

(** Responses after which a handler schedules the next question: accepted
    or auto_filled to an answer sent from the form, auto_filled to the
    Accept button. *)
Definition schedules (o : Session.Obs) : bool :=
  match o with
  | Session.Answered Session.Form _ r => Session.resolving r
  | Session.Answered Session.AcceptButton _ r => auto_filling r
  | _ => false
  end.

Definition is_listing (o : Session.Obs) : bool :=
  match o with Session.Listing => true | _ => false end.

(** The cells of the session's [Chat] the properties speak of. *)
Definition active (x : Session.State) : option Placeholder :=
  Chat.currentPlaceholder (Session.chat x).
Definition buttons (x : Session.State) : bool :=
  Chat.showAutoSuggest (Session.chat x).
Definition busy (x : Session.State) : bool :=
  Chat.loading (Session.chat x).

(** What one event can do to a session, read off the handlers: [y] is the
    session after the event, [x] the session before. *)
Inductive Move (x y : Session.State) : Prop :=
| Quiet :
    Session.history y = Session.history x ->
    Session.scheduled y = Session.scheduled x ->
    Session.inflight y = Session.inflight x ->
    Session.app y = Session.app x ->
    active y = active x -> buttons y = buttons x -> busy y = busy x ->
    Move x y
| Asked (cur : Placeholder) :
    Session.mounted x = true ->
    active x = Some cur -> buttons x = false ->
    Js.truthy (Js.trim (Chat.input (Session.chat x))) = true ->
    Session.history y
    = Session.Sent (placeholder_id cur)
        (Js.trim (Chat.input (Session.chat x))) false :: Session.history x ->
    Session.inflight y
    = Session.inflight x ++ [Session.AwaitFill Session.Form (placeholder_id cur)] ->
    Session.scheduled y = Session.scheduled x ->
    Session.app y = Session.app x ->
    active y = Some cur -> buttons y = false -> busy y = true ->
    Move x y
| Consented (cur : Placeholder) :
    Session.mounted x = true ->
    active x = Some cur -> buttons x = true ->
    Session.history y
    = Session.Sent (placeholder_id cur) $"auto" true :: Session.history x ->
    Session.inflight y
    = Session.inflight x
        ++ [Session.AwaitFill Session.AcceptButton (placeholder_id cur)] ->
    Session.scheduled y = Session.scheduled x ->
    Session.app y = Session.app x ->
    active y = Some cur -> buttons y = true -> busy y = true ->
    Move x y
| Fumbled :
    active x = None -> buttons x = true ->
    Session.history y = Session.history x ->
    Session.scheduled y = Session.scheduled x ->
    Session.inflight y = Session.inflight x ->
    Session.app y = Session.app x ->
    active y = None -> buttons y = true -> busy y = false ->
    Move x y
| Refused :
    buttons x = true ->
    Session.history y = Session.Declined :: Session.history x ->
    Session.scheduled y = Session.scheduled x ->
    Session.inflight y = Session.inflight x ->
    Session.app y = Session.app x ->
    active y = active x -> buttons y = false -> busy y = busy x ->
    Move x y
| Restarted :
    App.step (Session.app x) = App.complete ->
    Session.history y = Session.StartedOver :: Session.history x ->
    Session.scheduled y = Session.scheduled x ->
    Session.inflight y = Session.inflight x ->
    Session.app y = App.handleStartOver (Session.app x) ->
    Session.chat y = Session.chat x ->
    Move x y
| Fetching :
    (0 < Session.scheduled x)%nat ->
    Session.history y = Session.Listing :: Session.history x ->
    Session.scheduled y = pred (Session.scheduled x) ->
    Session.inflight y = Session.inflight x ++ [Session.AwaitList] ->
    Session.app y = Session.app x ->
    active y = active x -> buttons y = buttons x ->
    busy y = (if Session.mounted x then true else busy x) ->
    Move x y
| Replied (i : nat) (from : Session.Origin) (pid : Js.str)
    (r : Fetched FillData) :
    nth_error (Session.inflight x) i = Some (Session.AwaitFill from pid) ->
    Session.history y = Session.Answered from pid r :: Session.history x ->
    Session.scheduled y
    = (if schedules (Session.Answered from pid r)
       then S (Session.scheduled x) else Session.scheduled x) ->
    Session.inflight y = Session.remove_nth i (Session.inflight x) ->
    Session.app y = Session.app x ->
    active y = active x ->
    buttons y
    = (if Session.mounted x then shown_after from r (buttons x) else buttons x) ->
    busy y = (if Session.mounted x then false else busy x) ->
    Move x y
| Catalogued (i : nat) (r : Fetched PlaceholdersData) :
    nth_error (Session.inflight x) i = Some Session.AwaitList ->
    Session.history y = Session.Listed r :: Session.history x ->
    Session.scheduled y = Session.scheduled x ->
    Session.inflight y = Session.remove_nth i (Session.inflight x) ->
    Session.app y = Session.app x ->
    (active x <> None -> active y <> None) ->
    buttons y = buttons x ->
    busy y = (if Session.mounted x then false else busy x) ->
    Move x y
| Generation (i : nat) (r : Fetched PlaceholdersData) :
    nth_error (Session.inflight x) i = Some Session.AwaitList ->
    Session.history y
    = Session.Generating :: Session.Listed r :: Session.history x ->
    Session.scheduled y = Session.scheduled x ->
    Session.inflight y
    = Session.remove_nth i (Session.inflight x) ++ [Session.AwaitGenerate] ->
    Session.app y = Session.app x ->
    active y = active x -> buttons y = buttons x ->
    busy y = (if Session.mounted x then true else busy x) ->
    Move x y
| Failed (i : nat) (g : Fetched GenerateData) :
    nth_error (Session.inflight x) i = Some Session.AwaitGenerate ->
    (forall d, g = Json d -> gd_status d <> $"ok") ->
    Session.history y = Session.Generated g :: Session.history x ->
    Session.scheduled y = Session.scheduled x ->
    Session.inflight y = Session.remove_nth i (Session.inflight x) ->
    Session.app y = Session.app x ->
    active y = active x -> buttons y = buttons x ->
    busy y = (if Session.mounted x then false else busy x) ->
    Move x y
| Delivered (i : nat) (d : GenerateData) :
    nth_error (Session.inflight x) i = Some Session.AwaitGenerate ->
    gd_status d = $"ok" ->
    Session.history y
    = Session.Completed (gd_final_document d) :: Session.Generated (Json d)
        :: Session.history x ->
    Session.scheduled y = Session.scheduled x ->
    Session.inflight y = Session.remove_nth i (Session.inflight x) ->
    Session.app y = App.handleChatComplete (gd_final_document d) (Session.app x) ->
    active y = active x -> buttons y = buttons x ->
    busy y = (if Session.mounted x then false else busy x) ->
    Move x y.

(** The active placeholder, if any, has been resolved. *)
Definition closed (x : Session.State) : Prop :=
  match active x with
  | Some p => Session.resolved_in (placeholder_id p) (Session.history x) = true
  | None => True
  end.

(** Listings awaited. *)
Definition is_await_list (p : Session.Pending) : bool :=
  match p with Session.AwaitList => true | _ => false end.

Definition lists_awaited (x : Session.State) : nat :=
  List.length (filter is_await_list (Session.inflight x)).

(** What holds of every session against a backend that resolves each
    placeholder once. *)
Record Inv (x : Session.State) : Prop := mkInv {
  inv_budget :
    (Session.generations (Session.history x) + Session.scheduled x
     + lists_awaited x <= 1)%nat;
  inv_wait :
    (Session.scheduled x + lists_awaited x = 1)%nat
    \/ Session.generations (Session.history x) = 1%nat ->
    closed x;
  inv_fills :
    forall from pid,
      In (Session.AwaitFill from pid) (Session.inflight x) ->
      (exists p, active x = Some p /\ placeholder_id p = pid)
      \/ Session.resolved_in pid (Session.history x) = true;
  inv_generating :
    In Session.AwaitGenerate (Session.inflight x) ->
    Session.generations (Session.history x) = 1%nat;
  inv_complete :
    App.step (Session.app x) <> App.chat ->
    Session.generations (Session.history x) = 1%nat
}.

(** The handler did nothing but report a failure: [s'] is [s] with one
    error message quoting [m] appended and [loading] reset. *)
Definition only_reports (m : Js.str) (s s' : Chat.State) : Prop :=
  exists e, Chat.type e = Chat.error
            /\ Chat.placeholder e = None
            /\ Js.includes m (Chat.text e) = true
            /\ s' = Chat.setLoading false (Chat.append e s).

(* ================================================================== *)
(** * Concrete scenarios *)

Module Scenario.

Definition ph (id name st : string) : Placeholder :=
  mkPlaceholder $id $name None $st.

Definition company : Placeholder := ph "placeholder_001" "Company Name" "pending".
Definition investor : Placeholder := ph "placeholder_002" "Investor Name" "pending".
Definition amount : Placeholder := ph "placeholder_003" "Purchase Amount" "pending".

Definition reply (st : string) : FillData :=
  mkFillData $st (Some $"Acme Inc.")
             (Some $"Expected a date such as 05/15/2026") (Some 0%N)
             (Some $"Acme Inc.").

Definition listing (f a t : N) (ps : list Placeholder) : PlaceholdersData :=
  mkPlaceholdersData (mkProgressData f a t) ps.

Definition generated_ok : GenerateData :=
  mkGenerateData $"ok" $"final_document.docx" None.

Definition uploaded : App.UploadData := App.mkUploadData $"1" $"A SAFE agreement.".

Definition first_listing_data : PlaceholdersData :=
  listing 0 0 2 [company; investor].

(** The Chat state after the first question has been asked. *)
Definition asking : Chat.State :=
  fst (Chat.loadNextQuestion (Json first_listing_data) (Threw []) Chat.init).

(** ... with blank input typed: two spaces, a tab, a no-break space. *)
Definition blank : Js.str := [32; 32; 9; 160]%N.
Definition asking_blank : Chat.State := Chat.setInput blank asking.

(** ... with an answer typed and sent, the response still awaited. *)
Definition awaiting : Chat.State :=
  match Chat.handleSubmit_send (Chat.setInput $"asdf" asking) with
  | Some (s, _) => s
  | None => asking
  end.

(** ... with an offer on show and the Accept button clicked, the response
    still awaited. *)
Definition consenting : Chat.State :=
  fst (Chat.handleAccept_send
         (fst (Chat.handleSubmit_receive (Json (reply "offer_auto_suggest"))
                 awaiting))).

(** Files offered to the Upload component. *)
Definition contract_docx : Upload.File := Upload.mkFile $"contract.docx" 20480.
Definition notes_pdf : Upload.File := Upload.mkFile $"notes.pdf" 1024.
Definition contract_chosen : Upload.State :=
  Upload.handleFileChange [contract_docx] Upload.init.

(** *** Sessions *)

Definition company_accepted : Placeholder :=
  ph "placeholder_001" "Company Name" "accepted".
Definition investor_accepted : Placeholder :=
  ph "placeholder_002" "Investor Name" "accepted".
Definition investor_auto_filled : Placeholder :=
  ph "placeholder_002" "Investor Name" "auto_filled".

Definition first_listing : Fetched PlaceholdersData := Json first_listing_data.
Definition second_listing : Fetched PlaceholdersData :=
  Json (listing 1 0 2 [company_accepted; investor]).
Definition last_listing : Fetched PlaceholdersData :=
  Json (listing 1 1 2 [company_accepted; investor_auto_filled]).

(** Every response arrives before the next action.  The company is
    accepted; the investor is rejected, then offered a suggestion, which
    is declined, then offered again and the suggestion accepted; the
    document is generated. *)
Definition orderly : list Session.Event :=
  [Session.ListAnswered 0 first_listing;
   Session.Typed $"Acme Inc.";
   Session.SubmitClicked;
   Session.FillAnswered 0 (Json (reply "accepted"));
   Session.TimerFired;
   Session.ListAnswered 0 second_listing;
   Session.Typed $"asdf";
   Session.SubmitClicked;
   Session.FillAnswered 0 (Json (reply "rejected"));
   Session.Typed $"qwer";
   Session.SubmitClicked;
   Session.FillAnswered 0 (Json (reply "offer_auto_suggest"));
   Session.SkipClicked;
   Session.Typed $"zxcv";
   Session.SubmitClicked;
   Session.FillAnswered 0 (Json (reply "offer_auto_suggest"));
   Session.AcceptClicked;
   Session.FillAnswered 0 (Json (reply "auto_filled"));
   Session.TimerFired;
   Session.ListAnswered 0 last_listing;
   Session.GenerateAnswered 0 (Json generated_ok)].

(** Only rejections: the company is rejected three times. *)
Definition rejected_thrice : list Session.Event :=
  [Session.ListAnswered 0 first_listing;
   Session.Typed $"asdf";
   Session.SubmitClicked;
   Session.FillAnswered 0 (Json (reply "rejected"));
   Session.Typed $"qwer";
   Session.SubmitClicked;
   Session.FillAnswered 0 (Json (reply "rejected"));
   Session.Typed $"zxcv";
   Session.SubmitClicked;
   Session.FillAnswered 0 (Json (reply "rejected"))].

(** The company is rejected once and then accepted.  Before the next
    question is loaded, one second later, another answer is sent, still
    for the company, and the backend answers offer_auto_suggest.  The next
    question, for the investor, is then loaded with the consent buttons
    showing, and the suggestion is accepted. *)
Definition hasty : list Session.Event :=
  [Session.ListAnswered 0 first_listing;
   Session.Typed $"asdf";
   Session.SubmitClicked;
   Session.FillAnswered 0 (Json (reply "rejected"));
   Session.Typed $"Acme Inc.";
   Session.SubmitClicked;
   Session.FillAnswered 0 (Json (reply "accepted"));
   Session.Typed $"qwer";
   Session.SubmitClicked;
   Session.FillAnswered 0 (Json (reply "offer_auto_suggest"));
   Session.TimerFired;
   Session.ListAnswered 0 second_listing;
   Session.AcceptClicked;
   Session.FillAnswered 0 (Json (reply "auto_filled"));
   Session.TimerFired;
   Session.ListAnswered 0 last_listing;
   Session.GenerateAnswered 0 (Json generated_ok)].

(** Three placeholders and a backend that answers every request in the
    order it was sent, resolves each placeholder once, offers a
    suggestion at the second failed attempt and refuses answers for a
    placeholder it has resolved.  Responses are slow and overtake each
    other.

    The company is accepted.  Within the second before the next
    question, one more answer is sent for it (the backend will refuse
    it); the timer fires and the listing makes the investor active and
    re-enables the form while that request is still out.  A first bad
    answer for the investor is sent; the refusal arrives and re-enables
    the form; a second bad answer is sent; the rejection of the first
    arrives and re-enables the form; a good answer is sent.  The backend
    answers the second bad answer with an offer and the good one with
    accepted, and the second response arrives first.  The offer then
    puts the consent buttons on show, the timer of the acceptance fires,
    the listing makes the amount active, and Accept is clicked. *)
Definition three_pending : Fetched PlaceholdersData :=
  Json (listing 0 0 3 [company; investor; amount]).
Definition company_resolved : Fetched PlaceholdersData :=
  Json (listing 1 0 3 [company_accepted; investor; amount]).
Definition investor_resolved : Fetched PlaceholdersData :=
  Json (listing 2 0 3 [company_accepted; investor_accepted; amount]).

Definition overtaken : list Session.Event :=
  [Session.ListAnswered 0 three_pending;
   Session.Typed $"Acme Inc.";
   Session.SubmitClicked;
   Session.FillAnswered 0 (Json (reply "accepted"));
   Session.Typed $"Acme Incorporated";
   Session.SubmitClicked;
   Session.TimerFired;
   Session.ListAnswered 1 company_resolved;
   Session.Typed $"asdf";
   Session.SubmitClicked;
   Session.FillAnswered 0 (Json (reply "error"));
   Session.Typed $"qwer";
   Session.SubmitClicked;
   Session.FillAnswered 0 (Json (reply "rejected"));
   Session.Typed $"Jane Doe";
   Session.SubmitClicked;
   Session.FillAnswered 1 (Json (reply "accepted"));
   Session.FillAnswered 0 (Json (reply "offer_auto_suggest"));
   Session.TimerFired;
   Session.ListAnswered 0 investor_resolved;
   Session.AcceptClicked].

(** A one-placeholder session in which two answers are accepted before
    the next load runs, so that two loads are scheduled. *)
Definition only_company : Fetched PlaceholdersData :=
  Json (listing 0 0 1 [company]).
Definition company_done : Fetched PlaceholdersData :=
  Json (listing 1 0 1 [company_accepted]).

Definition accepted_twice : list Session.Event :=
  [Session.ListAnswered 0 only_company;
   Session.Typed $"Acme";
   Session.SubmitClicked;
   Session.FillAnswered 0 (Json (reply "accepted"));
   Session.Typed $"Acme Inc.";
   Session.SubmitClicked;
   Session.FillAnswered 0 (Json (reply "accepted"));
   Session.TimerFired;
   Session.ListAnswered 0 company_done;
   Session.GenerateAnswered 0 (Json generated_ok)].

Definition second_load : list Session.Event :=
  [Session.TimerFired;
   Session.ListAnswered 0 company_done;
   Session.GenerateAnswered 0 (Json generated_ok)].

(** After the document of [orderly] is shown, the user starts over. *)
Definition started_over : list Session.Event :=
  orderly ++ [Session.StartOverClicked].

End Scenario.

(* ================================================================== *)
(** * What the components render, beyond the properties above *)

(** ** Chat: the lines of a message *)

Module ChatView.

(** [text.split(sep)] for a one-unit separator; the empty string splits
    into one empty piece. *)
Fixpoint split (sep : N) (s : Js.str) : list Js.str :=
  match s with
  | [] => [[]]
  | c :: s' =>
      if N.eqb c sep then [] :: split sep s'
      else match split sep s' with
           | l :: ls => (c :: l) :: ls
           | [] => [[c]]
           end
  end.

Inductive Node : Type :=
| Line (l : Js.str)
| Br.

(** [pieces.map((line, i) => <>{line}{i < n - 1 && <br />}</>)], from
    index [i] on, where [n] is the number of pieces. *)
Fixpoint fragments (i n : nat) (pieces : list Js.str) : list Node :=
  match pieces with
  | [] => []
  | line :: rest =>
      Line line :: (if (i <? n - 1)%nat then [Br] else [])
        ++ fragments (S i) n rest
  end.

(** The content of a message bubble: [msg.text.split('\n')] mapped to
    lines and breaks. *)
Definition message_content (text : Js.str) : list Node :=
  fragments 0 (List.length (split 10 text)) (split 10 text).

(** The text a rendered bubble reads as, a break read as a newline. *)
Definition read_node (n : Node) : Js.str :=
  match n with Line l => l | Br => [10%N] end.

Definition read_back (ns : list Node) : Js.str :=
  List.concat (map read_node ns).

Definition is_br (n : Node) : bool :=
  match n with Br => true | Line _ => false end.

(** [pieces.join('\n')] for at least one piece. *)
Fixpoint join (pieces : list Js.str) : Js.str :=
  match pieces with
  | [] => []
  | [l] => l
  | l :: rest => l ++ 10%N :: join rest
  end.

Definition newlines (text : Js.str) : nat :=
  List.length (filter (N.eqb 10) text).

End ChatView.

(** ** Upload: drag state, size hint *)

Module UploadView.

Definition onDragOver (s : Upload.State) : Upload.State :=
  Upload.mkState (Upload.file s) (Upload.uploading s) (Upload.error s) true.

Definition onDragLeave (s : Upload.State) : Upload.State :=
  Upload.mkState (Upload.file s) (Upload.uploading s) (Upload.error s) false.

(** [(file.size / 1024).toFixed(1)] for a size in bytes.  The quotient is
    exact in double precision (a division of an integer below 2^53 by a
    power of two), and [toFixed(1)] picks the integer number of tenths
    nearest to it, the larger one on a tie. *)
Definition tenths_of_kb (size : N) : N := ((10 * size + 512) / 1024)%N.

Definition toFixed1_kb (size : N) : Js.str :=
  Js.of_N (tenths_of_kb size / 10) ++ $"." ++ Js.of_N (tenths_of_kb size mod 10).

(** The hint under the chosen file's name. *)
Definition size_hint (f : Upload.File) : Js.str :=
  toFixed1_kb (Upload.size f) ++ $" KB".

(** [{error && <div className="error">{error}</div>}] *)
Definition error_shown (s : Upload.State) : bool := Js.truthy (Upload.error s).

End UploadView.

(** ** App: the component on show *)

Module AppView.

Inductive Shown : Type :=
| ShowUpload
| ShowChat (refNumber : option Js.str) (documentSummary : Js.str)
| ShowComplete (refNumber : option Js.str) (finalDocument : Js.str).

Definition render (a : App.State) : Shown :=
  match App.step a with
  | App.upload => ShowUpload
  | App.chat => ShowChat (App.refNumber a) (App.documentSummary a)
  | App.complete => ShowComplete (App.refNumber a) (App.finalDocument a)
  end.

End AppView.

(* ================================================================== *)
(** * Further notions *)

(** A question message is a bot message carrying the question text of its
    placeholder, which was listed as pending. *)
Definition well_formed (m : Chat.Message) : Prop :=
  match Chat.placeholder m with
  | Some p =>
      Chat.type m = Chat.bot
      /\ Chat.text m = Chat.questionText p
      /\ status p = $"pending"
  | None => True
  end.

(** The active placeholder, if any, was listed as pending. *)
Definition active_pending (s : Chat.State) : Prop :=
  match Chat.currentPlaceholder s with
  | Some p => status p = $"pending"
  | None => True
  end.

(** A string without whitespace at either end. *)
Definition tight (s : Js.str) : Prop :=
  (forall c t, s = c :: t -> Js.is_space c = false)
  /\ (forall t c, s = t ++ [c] -> Js.is_space c = false).

(** How a handler may move the Chat state: it appends well-formed
    messages, keeps the active placeholder pending as listed, and never
    unsets it. *)
Definition advances (s s' : Chat.State) : Prop :=
  (exists extra, Chat.messages s' = Chat.messages s ++ extra
                 /\ Forall well_formed extra)
  /\ (active_pending s -> active_pending s')
  /\ (Chat.currentPlaceholder s <> None -> Chat.currentPlaceholder s' <> None).

(** A submission carrying consent was sent by the Accept button, whose
    [user_input] is the fixed text "auto". *)
Definition consent_from_accept (o : Session.Obs) : Prop :=
  match o with
  | Session.Sent _ inp true => inp = $"auto"
  | _ => True
  end.

(** The [user_input] of a request is not empty and has no whitespace at
    either end. *)
Definition request_trimmed (o : Session.Obs) : Prop :=
  match o with
  | Session.Sent _ inp _ => inp <> [] /\ tight inp
  | _ => True
  end.

(** The conversation ends with an error message that quotes [m]. *)
Definition reports (m : Js.str) (s : Chat.State) : Prop :=
  exists ms e, Chat.messages s = ms ++ [e]
               /\ Chat.type e = Chat.error
               /\ Js.includes m (Chat.text e) = true.


(** The percentage for [c] of [t] completed is a number between 0 and
    100 that is within 2^-46 of the exact percentage. *)
Definition percent_ok (c t : N) : bool :=
  match Js.num_to_Q (Chat.progressPercent
                       (Chat.setProgress (Chat.mkProgress c t) Chat.init)) with
  | Some q =>
      Qle_bool 0 q && Qle_bool q 100
      && Qle_bool (Qabs (q - inject_Z (100 * Z.of_N c) / inject_Z (Z.of_N t)))
                  (1 # (2 ^ 46)%positive)
  | None => false
  end.

(** ... and is 100 exactly when [c] is [t]. *)
Definition full_iff_complete (c t : N) : bool :=
  match Js.num_to_Q (Chat.progressPercent
                       (Chat.setProgress (Chat.mkProgress c t) Chat.init)) with
  | Some q => Bool.eqb (Qeq_bool q 100) (N.eqb c t)
  | None => false
  end.

(** Both, for every total from 1 to [n] and every count up to the
    total. *)
Definition percent_checked (n : nat) : bool :=
  forallb (fun t =>
             forallb (fun c => percent_ok (N.of_nat c) (N.of_nat t)
                               && full_iff_complete (N.of_nat c) (N.of_nat t))
                     (seq 0 (S t)))
          (seq 1 n).

(** *** Further concrete values *)

Module Example.

Definition padded : Js.str := [32; 9]%N ++ $"Acme Inc." ++ [160; 10]%N.

Definition asking_padded : Chat.State := Chat.setInput padded Scenario.asking.

Definition offered : Chat.State :=
  fst (Chat.handleSubmit (Json (Scenario.reply "offer_auto_suggest"))
         (Chat.setInput $"asdf" Scenario.asking)).

Definition upload_ok : Upload.UploadResponse :=
  Upload.mkUploadResponse true true Scenario.uploaded None.

Definition upload_refused : Upload.UploadResponse :=
  Upload.mkUploadResponse false false Scenario.uploaded (Some $"No placeholders detected").

Definition opening : list Session.Event :=
  [Session.ListAnswered 0 Scenario.first_listing].

Definition first_answer : list Session.Event :=
  [Session.Typed padded; Session.SubmitClicked;
   Session.FillAnswered 0 (Json (Scenario.reply "accepted"))].

(** A response that carries nothing but its status. *)
Definition bare (st : string) : FillData := mkFillData $st None None None None.

(** The session of [Scenario.orderly] up to the first offer, and from
    there with the Accept button clicked and its response awaited. *)
Definition offer_shown : list Session.Event := firstn 12 Scenario.orderly.

Definition accept_pending : list Session.Event :=
  offer_shown ++ [Session.AcceptClicked].

End Example.

(* ================================================================== *)
(** * Properties *)

(** ** Facts about strings *)

Lemma Js_eqb_eq (a b : Js.str) : Js.eqb a b = true <-> a = b.
Proof.
  revert b; induction a as [|x a IH]; intros [|y b]; simpl.
  - tauto.
  - split; discriminate.
  - split; discriminate.
  - rewrite andb_true_iff, N.eqb_eq, IH. split.
    + intros [-> ->]; reflexivity.
    + intros H; inversion H; auto.
Qed.

Lemma Js_eqb_refl (a : Js.str) : Js.eqb a a = true.
Proof. apply Js_eqb_eq; reflexivity. Qed.

Lemma startsWith_app (p s : Js.str) : Js.startsWith p (p ++ s) = true.
Proof.
  induction p as [|x p IH]; simpl; [reflexivity|].
  rewrite N.eqb_refl; exact IH.
Qed.

Lemma includes_prefix (p s : Js.str) :
  Js.startsWith p s = true -> Js.includes p s = true.
Proof. intros H; destruct s; simpl; rewrite H; reflexivity. Qed.

Lemma includes_app (a p b : Js.str) : Js.includes p (a ++ p ++ b) = true.
Proof.
  induction a as [|x a IH].
  - rewrite app_nil_l; apply includes_prefix, startsWith_app.
  - change ((x :: a) ++ p ++ b) with (x :: (a ++ p ++ b)).
    simpl; rewrite IH; apply orb_true_r.
Qed.

Lemma trimStart_nil_iff (s : Js.str) :
  Js.trimStart s = [] <-> forallb Js.is_space s = true.
Proof.
  induction s as [|c s IH]; simpl; [tauto|].
  destruct (Js.is_space c); simpl; [exact IH|].
  split; discriminate.
Qed.

Lemma trim_nil_iff (s : Js.str) :
  Js.trim s = [] <-> forallb Js.is_space s = true.
Proof.
  unfold Js.trim, Js.trimEnd. split.
  - intros H. apply trimStart_nil_iff.
    destruct (Js.trimStart s) as [|c t] eqn:E; [reflexivity|exfalso].
    apply (f_equal (@rev N)) in H; rewrite rev_involutive in H; simpl in H.
    apply trimStart_nil_iff in H.
    rewrite forallb_app in H; apply andb_true_iff in H; destruct H as [_ H].
    simpl in H; rewrite andb_true_r in H.
    assert (Hc : Js.is_space c = false).
    { destruct s as [|c' s']; simpl in E; [discriminate|].
      clear -E. revert c' E. induction s' as [|d s' IH]; intros c' E; simpl in E.
      - destruct (Js.is_space c') eqn:Ec; [discriminate|congruence].
      - destruct (Js.is_space c') eqn:Ec; [exact (IH d E)|congruence]. }
    congruence.
  - intros H. apply trimStart_nil_iff in H; rewrite H; reflexivity.
Qed.

Lemma truthy_trim_blank (s : Js.str) :
  forallb Js.is_space s = true -> Js.truthy (Js.trim s) = false.
Proof. intros H; apply trim_nil_iff in H; rewrite H; reflexivity. Qed.

(** ** Facts about the handlers *)

Lemma nth_error_last {A} (l : list A) (x : A) :
  nth_error (l ++ [x]) (List.length (l ++ [x]) - 1) = Some x.
Proof.
  rewrite length_app; simpl.
  replace (List.length l + 1 - 1)%nat with (List.length l) by lia.
  rewrite nth_error_app2 by lia. rewrite Nat.sub_diag; reflexivity.
Qed.

(** ** The handlers and their parts *)

Lemma handleAcceptAutoSuggest_parts (r : Fetched FillData) (s : Chat.State) :
  Chat.handleAcceptAutoSuggest r s
  = match Chat.handleAccept_send s with
    | (s', Some req) =>
        (fst (Chat.handleAccept_receive r s'),
         req :: snd (Chat.handleAccept_receive r s'))
    | (s', None) => (s', [])
    end.
Proof.
  unfold Chat.handleAcceptAutoSuggest, Chat.handleAccept_send,
    Chat.handleAccept_receive.
  cbn [Chat.currentPlaceholder Chat.setLoading Chat.setShowAutoSuggest
       Chat.setInput Chat.append Chat.setMessages].
  destruct (Chat.currentPlaceholder s); [|reflexivity].
  destruct r as [m|d]; [reflexivity|].
  destruct (Js.eqb (fd_status d) $"auto_filled"); reflexivity.
Qed.

Lemma loadNextQuestion_parts (r : Fetched PlaceholdersData)
    (g : Fetched GenerateData) (s : Chat.State) :
  Chat.loadNextQuestion r g s
  = let out := Chat.loadNextQuestion_listed r (Chat.loadNextQuestion_start s) in
    match snd out with
    | [] => (fst out, [GetPlaceholders])
    | effs =>
        (fst (Chat.loadNextQuestion_generated g (fst out)),
         GetPlaceholders :: effs
           ++ snd (Chat.loadNextQuestion_generated g (fst out)))
    end.
Proof.
  unfold Chat.loadNextQuestion, Chat.loadNextQuestion_listed,
    Chat.loadNextQuestion_start, Chat.loadNextQuestion_generated,
    Chat.generateFinalDoc.
  destruct r as [m|data]; [reflexivity|].
  destruct (Chat.find_pending (pl_placeholders data)); [reflexivity|].
  destruct g as [m|d]; [reflexivity|].
  cbn [fst snd]. destruct (Js.eqb (gd_status d) $"ok"); reflexivity.
Qed.

(* ================================================================== *)
(** ** Blank input (C7) *)

(** C7. For every input that is empty or consists only of whitespace,
    submitting it changes no state and performs no effect: [handleSubmit]
    returns before the user message, the request and any response
    handling, so nothing reaches the backend and nothing is recorded in the
    session's history; the Send button is disabled as well. *)
Theorem blank_input_is_inert (r : Fetched FillData) (s : Chat.State)
    (x : Session.State) :
  forallb Js.is_space (Chat.input s) = true ->
  Chat.handleSubmit_send s = None
  /\ Chat.handleSubmit r s = (s, [])
  /\ Chat.send_disabled s = true
  /\ (Session.chat x = s ->
      Session.step x Session.SubmitClicked = x
      /\ Session.fire Session.SubmitClicked x = x).
Proof.
  intros Hblank. pose proof (truthy_trim_blank _ Hblank) as Ht.
  assert (Hsend : Chat.handleSubmit_send s = None).
  { unfold Chat.handleSubmit_send. rewrite Ht.
    destruct (Chat.currentPlaceholder s); reflexivity. }
  assert (Hall : Chat.handleSubmit r s = (s, [])).
  { unfold Chat.handleSubmit; rewrite Hsend; reflexivity. }
  split; [exact Hsend|]. split; [exact Hall|]. split.
  - unfold Chat.send_disabled. rewrite Ht; simpl.
    apply orb_true_iff; left; apply orb_true_r.
  - intros Hx. split.
    + unfold Session.step, Session.enabled, Chat.send_disabled.
      rewrite Hx, Ht; simpl. rewrite orb_true_r; simpl.
      rewrite andb_false_r. reflexivity.
    + unfold Session.fire. rewrite Hx, Hsend. reflexivity.
Qed.

Lemma blank_input_is_inert_witness :
  forallb Js.is_space (Chat.input Scenario.asking_blank) = true
  /\ Chat.handleSubmit (Json (Scenario.reply "accepted")) Scenario.asking_blank
     = (Scenario.asking_blank, []).
Proof.
  split; [reflexivity|].
  apply (blank_input_is_inert (Json (Scenario.reply "accepted"))
           Scenario.asking_blank
           (Session.init Scenario.uploaded)).
  reflexivity.
Defined.

(* ================================================================== *)
(** ** The status vocabulary (C2) *)

Lemma status_cases (st : Js.str) :
  ~ In st statuses ->
  Js.eqb st $"accepted" = false /\ Js.eqb st $"rejected" = false
  /\ Js.eqb st $"offer_auto_suggest" = false /\ Js.eqb st $"auto_filled" = false.
Proof.
  intros H. repeat split;
    (match goal with |- Js.eqb ?a ?b = false =>
       destruct (Js.eqb a b) eqn:E; [|reflexivity];
       apply Js_eqb_eq in E; exfalso; apply H; rewrite E; simpl; tauto
     end).
Qed.




(* ================================================================== *)
(** ** The active placeholder (C4) *)

Lemma find_split {A} (f : A -> bool) (l : list A) (x : A) :
  find f l = Some x ->
  exists l1 l2, l = l1 ++ x :: l2 /\ f x = true
                /\ Forall (fun y => f y = false) l1.
Proof.
  induction l as [|a l IH]; simpl; [discriminate|].
  destruct (f a) eqn:E.
  - intros H; inversion H; subst. exists [], l. auto.
  - intros H. destruct (IH H) as (l1 & l2 & -> & Hx & Hl1).
    exists (a :: l1), l2. auto.
Qed.

Lemma load_current_pending (data : PlaceholdersData) g s p :
  Chat.find_pending (pl_placeholders data) = Some p ->
  Chat.currentPlaceholder (fst (Chat.loadNextQuestion (Json data) g s)) = Some p.
Proof.
  intros H. unfold Chat.loadNextQuestion. rewrite H. reflexivity.
Qed.

Lemma generateFinalDoc_current g s :
  Chat.currentPlaceholder (fst (Chat.generateFinalDoc g s)) = Chat.currentPlaceholder s.
Proof.
  unfold Chat.generateFinalDoc.
  destruct g as [m|d]; [reflexivity|].
  destruct (Js.eqb (gd_status d) $"ok"); reflexivity.
Qed.

Lemma load_current_none (data : PlaceholdersData) g s :
  Chat.find_pending (pl_placeholders data) = None ->
  Chat.currentPlaceholder (fst (Chat.loadNextQuestion (Json data) g s))
  = Chat.currentPlaceholder s.
Proof.
  intros H. unfold Chat.loadNextQuestion. rewrite H.
  destruct (Chat.generateFinalDoc g _) as [s' effs] eqn:E. simpl.
  apply (f_equal fst) in E; simpl in E; subst s'.
  rewrite generateFinalDoc_current. reflexivity.
Qed.

Lemma handleSubmit_send_target (s : Chat.State) (p : Placeholder) (v : Js.str) :
  Chat.currentPlaceholder s = Some p ->
  match Chat.handleSubmit_send (Chat.setInput v s) with
  | Some (_, request) =>
      request = PostFill (placeholder_id p) (Js.trim v) (Chat.showAutoSuggest s)
  | None => Js.trim v = []
  end.
Proof.
  intros Hcur. unfold Chat.handleSubmit_send. simpl. rewrite Hcur.
  destruct (Js.trim v); reflexivity.
Qed.

Lemma questionText_cases (p : Placeholder) :
  (forall t, prompt_text p = Some t -> t <> [] -> Chat.questionText p = t)
  /\ (prompt_text p = None \/ prompt_text p = Some [] ->
      Chat.questionText p = $"Please provide " ++ placeholder_name p).
Proof.
  unfold Chat.questionText. split.
  - intros t -> Ht. destruct t; [contradiction|reflexivity].
  - intros [->| ->]; reflexivity.
Qed.

Lemma ask_cases (p : Placeholder) (ms : list Chat.Message) :
  ((forall front l, ms = front ++ [l] -> Chat.type l = Chat.bot ->
                    Chat.text l <> Chat.questionText p) ->
   Chat.ask p ms
   = ms ++ [Chat.mkMessage Chat.bot (Chat.questionText p) (Some p)])
  /\ (Chat.ask p ms = ms
      \/ Chat.ask p ms
         = ms ++ [Chat.mkMessage Chat.bot (Chat.questionText p) (Some p)]).
Proof.
  unfold Chat.ask.
  destruct ms as [|m0 ms0] using rev_ind.
  - simpl. auto.
  - rewrite nth_error_last.
    destruct (Chat.MsgType_eqb (Chat.type m0) Chat.bot
              && Js.eqb (Chat.text m0) (Chat.questionText p)) eqn:T.
    + split; [|left; reflexivity].
      intros Hlast. exfalso.
      apply andb_true_iff in T. destruct T as [Hty Htx].
      apply (Hlast ms0 m0 eq_refl).
      * destruct (Chat.type m0); try discriminate Hty. reflexivity.
      * apply Js_eqb_eq. exact Htx.
    + split; [intros _; reflexivity|right; reflexivity].
Qed.

Lemma load_asks (data : PlaceholdersData) (g : Fetched GenerateData)
    (s : Chat.State) (p : Placeholder) :
  Chat.find_pending (pl_placeholders data) = Some p ->
  let s' := fst (Chat.loadNextQuestion (Json data) g s) in
  let question := Chat.mkMessage Chat.bot (Chat.questionText p) (Some p) in
  ((forall prev, Chat.currentPlaceholder s = Some prev ->
                 placeholder_id prev <> placeholder_id p) ->
   (forall front l, Chat.messages s = front ++ [l] -> Chat.type l = Chat.bot ->
                    Chat.text l <> Chat.questionText p) ->
   Chat.messages s' = Chat.messages s ++ [question])
  /\ (Chat.messages s' = Chat.messages s
      \/ Chat.messages s' = Chat.messages s ++ [question]).
Proof.
  intros Hp s' question. subst s' question.
  unfold Chat.loadNextQuestion. rewrite Hp. unfold Chat.activate.
  cbn [fst Chat.currentPlaceholder Chat.setLoading Chat.setProgress].
  destruct (ask_cases p (Chat.messages s)) as [Hask Heither].
  destruct (Chat.currentPlaceholder s) as [prev|].
  - destruct (Js.eqb (placeholder_id prev) (placeholder_id p)) eqn:E;
      cbn [negb].
    + split; [|left; reflexivity].
      intros Hdiff _. exfalso. apply (Hdiff prev eq_refl).
      apply Js_eqb_eq. exact E.
    + split; [intros _ Hlast; exact (Hask Hlast)|exact Heither].
  - split; [intros _ Hlast; exact (Hask Hlast)|exact Heither].
Qed.

(** C4. For every placeholder-list response, the placeholder that becomes
    active ([currentPlaceholder], a single cell, so at most one at a time)
    is the first element of the returned list whose status is pending:
    every element before it is not pending.  Its prompt (prompt_text, or
    "Please provide <placeholder_name>" when the prompt is missing or
    empty) is the question asked next: it is appended as a bot message
    whenever the placeholder is not the one already active and the
    conversation does not already end with that question, and nothing
    else is appended.  The next answer typed is submitted for it.  If no
    element is pending the active placeholder is left as it was. *)
Theorem active_is_first_pending (data : PlaceholdersData)
    (g : Fetched GenerateData) (s : Chat.State) :
  let s' := fst (Chat.loadNextQuestion (Json data) g s) in
  (exists before p after q,
      pl_placeholders data = before ++ p :: after
      /\ Forall (fun x => status x <> $"pending") before
      /\ status p = $"pending"
      /\ Chat.currentPlaceholder s' = Some p
      /\ (forall t, prompt_text p = Some t -> t <> [] -> q = t)
      /\ (prompt_text p = None \/ prompt_text p = Some [] ->
          q = $"Please provide " ++ placeholder_name p)
      /\ ((forall prev, Chat.currentPlaceholder s = Some prev ->
                        placeholder_id prev <> placeholder_id p) ->
          (forall front l, Chat.messages s = front ++ [l] ->
                           Chat.type l = Chat.bot -> Chat.text l <> q) ->
          Chat.messages s'
          = Chat.messages s ++ [Chat.mkMessage Chat.bot q (Some p)])
      /\ (Chat.messages s' = Chat.messages s
          \/ Chat.messages s'
             = Chat.messages s ++ [Chat.mkMessage Chat.bot q (Some p)])
      /\ forall v,
           match Chat.handleSubmit_send (Chat.setInput v s') with
           | Some (_, request) =>
               request = PostFill (placeholder_id p) (Js.trim v)
                                  (Chat.showAutoSuggest s')
           | None => Js.trim v = []
           end)
  \/ (Forall (fun x => status x <> $"pending") (pl_placeholders data)
      /\ Chat.currentPlaceholder s' = Chat.currentPlaceholder s).
Proof.
  intros s'. subst s'.
  destruct (Chat.find_pending (pl_placeholders data)) as [p|] eqn:E.
  - left. destruct (find_split _ _ E) as (l1 & l2 & Hl & Hp & Hl1).
    pose proof (load_current_pending data g s E) as Hcur.
    destruct (load_asks data g s E) as [Hask Heither].
    destruct (questionText_cases p) as [Hprompt Hdefault].
    exists l1, p, l2, (Chat.questionText p).
    split; [exact Hl|]. split.
    { eapply Forall_impl; [|exact Hl1]. intros x Hx Hs. simpl in Hx.
      unfold Chat.is_pending in Hx. rewrite Hs, Js_eqb_refl in Hx. discriminate. }
    split; [apply Js_eqb_eq; exact Hp|].
    split; [exact Hcur|]. split; [exact Hprompt|]. split; [exact Hdefault|].
    split; [exact Hask|]. split; [exact Heither|].
    intros v. apply handleSubmit_send_target. exact Hcur.
  - right. split.
    + apply Forall_forall. intros x Hx Hs.
      pose proof (find_none _ _ E x Hx) as Hn. unfold Chat.is_pending in Hn.
      rewrite Hs, Js_eqb_refl in Hn. discriminate.
    + apply load_current_none; exact E.
Qed.

Lemma active_is_first_pending_witness :
  Chat.currentPlaceholder Scenario.asking = Some Scenario.company
  /\ Chat.messages Scenario.asking
     = [Chat.mkMessage Chat.bot $"Please provide Company Name"
                       (Some Scenario.company)].
Proof.
  destruct (active_is_first_pending Scenario.first_listing_data (Threw [])
              Chat.init)
    as [(before & p & after & q & _ & _ & _ & Hcur & _ & Hdefault & Hask & _)
       | (Hnone & _)].
  - assert (Hp : p = Scenario.company) by (inversion Hcur; reflexivity).
    subst p. split; [exact Hcur|].
    rewrite (Hdefault (or_introl eq_refl)) in Hask.
    apply Hask.
    + intros prev Hprev. discriminate Hprev.
    + intros front l Hfront. destruct front; discriminate Hfront.
  - exfalso. inversion Hnone as [|x l Hx _]. apply Hx. reflexivity.
Defined.

(* ================================================================== *)
(** ** Progress (C6) *)

Lemma generateFinalDoc_progress g s :
  Chat.progress (fst (Chat.generateFinalDoc g s)) = Chat.progress s.
Proof.
  unfold Chat.generateFinalDoc.
  destruct g as [m|d]; [reflexivity|].
  destruct (Js.eqb (gd_status d) $"ok"); reflexivity.
Qed.

Lemma load_progress (data : PlaceholdersData) g s :
  Chat.progress (fst (Chat.loadNextQuestion (Json data) g s))
  = Chat.mkProgress (pd_filled (pl_progress data) + pd_auto_filled (pl_progress data))
                    (pd_total (pl_progress data)).
Proof.
  unfold Chat.loadNextQuestion.
  destruct (Chat.find_pending (pl_placeholders data)) as [p|].
  - unfold Chat.activate. simpl.
    destruct (match Chat.currentPlaceholder s with Some _ => _ | None => _ end);
      reflexivity.
  - destruct (Chat.generateFinalDoc g _) as [s' effs] eqn:E. simpl.
    apply (f_equal fst) in E; simpl in E; subst s'.
    rewrite generateFinalDoc_progress. reflexivity.
Qed.

(** C6, as the code has it.  For every progress response {filled,
    auto_filled, total} with counts below 2^53, the completed count the
    component stores and prints is filled + auto_filled and the total is
    total.  The completion percentage is a binary64 number: for total > 0
    the quotient of the completed count by the total, rounded, times 100,
    rounded again; for total = 0 it is 0. *)
Theorem progress_display (data : PlaceholdersData) (g : Fetched GenerateData)
    (s : Chat.State) :
  let s' := fst (Chat.loadNextQuestion (Json data) g s) in
  let f := pd_filled (pl_progress data) in
  let a := pd_auto_filled (pl_progress data) in
  let t := pd_total (pl_progress data) in
  (f + a < 2 ^ 53)%N -> (t < 2 ^ 53)%N ->
  Chat.filled (Chat.progress s') = (f + a)%N
  /\ Chat.total (Chat.progress s') = t
  /\ Chat.progressLine s'
     = Js.of_N (f + a) ++ $" of " ++ Js.of_N t ++ $" complete"
  /\ ((0 < t)%N ->
      Chat.progressPercent s'
      = Js.mul (Js.div (Js.num_of_N (f + a)) (Js.num_of_N t)) (Js.num_of_N 100))
  /\ (t = 0%N -> Chat.progressPercent s' = SpecFloat.S754_zero false).
Proof.
  intros s' f a t _ _. subst s'.
  unfold Chat.progressLine, Chat.progressPercent. rewrite load_progress.
  cbn [Chat.filled Chat.total]. fold f a t.
  split; [reflexivity|]. split; [reflexivity|]. split; [reflexivity|]. split.
  - intros Ht. apply N.ltb_lt in Ht. rewrite Ht. reflexivity.
  - intros Ht. rewrite Ht. reflexivity.
Qed.

Lemma progress_display_witness :
  (exists q,
      Js.num_to_Q
        (Chat.progressPercent
           (fst (Chat.loadNextQuestion
                   (Json (Scenario.listing 7 1 10 [Scenario.company]))
                   (Threw []) Chat.init)))
      = Some q
      /\ q == 80)
  /\ Chat.progressPercent
       (fst (Chat.loadNextQuestion
               (Json (Scenario.listing 0 0 0 [])) (Threw []) Chat.init))
     = SpecFloat.S754_zero false.
Proof.
  split.
  - destruct (progress_display (Scenario.listing 7 1 10 [Scenario.company])
                (Threw []) Chat.init) as (_ & _ & _ & Hpct & _);
      [reflexivity|reflexivity|].
    rewrite (Hpct eq_refl). eexists. split; vm_compute; reflexivity.
  - apply (progress_display (Scenario.listing 0 0 0 []) (Threw []) Chat.init);
      reflexivity.
Defined.

(** C6 as stated fails: for 29 of 100 completed the percentage the
    component computes is 28.999999999999996 (8162774324609023 * 2^-48),
    not (29 / 100) * 100 = 29. *)
Lemma percentage_is_rounded :
  let s' := fst (Chat.loadNextQuestion
                   (Json (Scenario.listing 29 0 100 [Scenario.company]))
                   (Threw []) Chat.init) in
  Chat.filled (Chat.progress s') = 29%N
  /\ Chat.total (Chat.progress s') = 100%N
  /\ Chat.progressPercent s'
     = SpecFloat.S754_finite false 8162774324609023 (-48)
  /\ Chat.progressPercent s' <> Js.num_of_N 29
  /\ exists q, Js.num_to_Q (Chat.progressPercent s') = Some q
               /\ q < 29 /\ ~ q == 29.
Proof.
  split; [reflexivity|]. split; [reflexivity|].
  split; [vm_compute; reflexivity|]. split.
  - vm_compute. discriminate.
  - eexists. split; [vm_compute; reflexivity|]. split.
    + vm_compute. reflexivity.
    + vm_compute. discriminate.
Qed.

(* ================================================================== *)
(** ** Rejections and offers as shown to the user (C8) *)




(* ================================================================== *)
(** ** Choosing and uploading a file (C10) *)

(** C10. A file is accepted only if its name ends with ".docx": when the
    selected or dropped file is missing or has another name, the chosen
    file is left as it was and the error message is set; whenever a
    handler changes the chosen file, the new file's name ends with
    ".docx", so that no other file is ever posted; and [handleUpload] with
    no file chosen changes nothing and sends nothing (its button is
    disabled too). *)
Theorem upload_only_docx (files : list Upload.File) (s : Upload.State)
    (r : Fetched Upload.UploadResponse) :
  ((forall f, hd_error files = Some f ->
              Js.endsWith $".docx" (Upload.name f) = false) ->
   Upload.file (Upload.handleFileChange files s) = Upload.file s
   /\ Upload.error (Upload.handleFileChange files s) = $"Please select a .docx file"
   /\ Upload.file (Upload.handleDrop files s) = Upload.file s
   /\ Upload.error (Upload.handleDrop files s) = $"Please drop a .docx file")
  /\ (forall f, Upload.file (Upload.handleFileChange files s) = Some f ->
                Upload.file s = Some f
                \/ Js.endsWith $".docx" (Upload.name f) = true)
  /\ (forall f, Upload.file (Upload.handleDrop files s) = Some f ->
                Upload.file s = Some f
                \/ Js.endsWith $".docx" (Upload.name f) = true)
  /\ (docx_chosen s = true ->
      docx_chosen (Upload.handleFileChange files s) = true
      /\ docx_chosen (Upload.handleDrop files s) = true
      /\ docx_chosen (fst (Upload.handleUpload r s)) = true
      /\ forall f, In (Upload.PostUpload f) (snd (Upload.handleUpload r s)) ->
                   Js.endsWith $".docx" (Upload.name f) = true)
  /\ (Upload.file s = None ->
      Upload.handleUpload r s = (s, []) /\ Upload.upload_disabled s = true).
Proof.
  split; [|split; [|split; [|split]]].
  - unfold Upload.handleFileChange, Upload.handleDrop. intros Hno.
    destruct (hd_error files) as [f|]; [rewrite (Hno f eq_refl)|]; auto.
  - unfold Upload.handleFileChange.
    intros f. destruct (hd_error files) as [f'|]; simpl; [|auto].
    destruct (Js.endsWith _ (Upload.name f')) eqn:E; simpl; [|auto].
    intros Hf; inversion Hf; subst; auto.
  - unfold Upload.handleDrop.
    intros f. destruct (hd_error files) as [f'|]; simpl; [|auto].
    destruct (Js.endsWith _ (Upload.name f')) eqn:E; simpl; [|auto].
    intros Hf; inversion Hf; subst; auto.
  - intros Hdocx. unfold docx_chosen in *.
    unfold Upload.handleFileChange, Upload.handleDrop, Upload.handleUpload.
    split; [|split; [|split]].
    + destruct (hd_error files) as [f'|]; [|exact Hdocx].
      destruct (Js.endsWith _ (Upload.name f')) eqn:E; simpl; assumption.
    + destruct (hd_error files) as [f'|]; [|exact Hdocx].
      destruct (Js.endsWith _ (Upload.name f')) eqn:E; simpl; assumption.
    + destruct (Upload.file s) as [f0|] eqn:Ef; [|simpl; rewrite Ef; reflexivity].
      destruct r as [m|resp]; [exact Hdocx|].
      destruct (Upload.ok resp && Upload.success resp); exact Hdocx.
    + intros f Hin. destruct (Upload.file s) as [f0|]; [|destruct Hin].
      assert (Hf : f = f0).
      { destruct r as [m|resp].
        - destruct Hin as [Hin|[]]. inversion Hin; reflexivity.
        - destruct (Upload.ok resp && Upload.success resp).
          + destruct Hin as [Hin|[Hin|[]]]; [|discriminate Hin].
            inversion Hin; reflexivity.
          + destruct Hin as [Hin|[]]. inversion Hin; reflexivity. }
      subst f. exact Hdocx.
  - intros Hnone. unfold Upload.handleUpload, Upload.upload_disabled.
    rewrite Hnone. split; reflexivity.
Qed.

Lemma upload_only_docx_witness :
  Upload.file (Upload.handleDrop [Scenario.notes_pdf] Scenario.contract_chosen)
  = Upload.file Scenario.contract_chosen
  /\ docx_chosen (Upload.handleDrop [Scenario.notes_pdf] Scenario.contract_chosen)
     = true
  /\ Upload.handleUpload (Threw []) Upload.init = (Upload.init, []).
Proof.
  split; [|split].
  - apply (upload_only_docx [Scenario.notes_pdf] Scenario.contract_chosen (Threw [])).
    intros f Hf; inversion Hf; subst; reflexivity.
  - destruct (upload_only_docx [Scenario.notes_pdf] Scenario.contract_chosen
                (Threw [])) as (_ & _ & _ & Hkeeps & _).
    destruct (Hkeeps eq_refl) as (_ & Hdrop & _). exact Hdrop.
  - apply (upload_only_docx [] Upload.init (Threw [])). reflexivity.
Defined.


(* ================================================================== *)
(** ** The handlers, summarised *)

Ltac case_status d :=
  let E := fresh "Est" in
  destruct (Js.eqb (fd_status d) $"accepted") eqn:E;
  [apply Js_eqb_eq in E
  |clear E; destruct (Js.eqb (fd_status d) $"rejected") eqn:E;
   [apply Js_eqb_eq in E
   |clear E; destruct (Js.eqb (fd_status d) $"offer_auto_suggest") eqn:E;
    [apply Js_eqb_eq in E
    |clear E; destruct (Js.eqb (fd_status d) $"auto_filled") eqn:E;
     [apply Js_eqb_eq in E|]]]].

Lemma status_tests (d : FillData) :
  Session.resolving (Json d)
  = Js.eqb (fd_status d) $"accepted" || Js.eqb (fd_status d) $"auto_filled"
  /\ Session.offering (Json d) = Js.eqb (fd_status d) $"offer_auto_suggest"
  /\ auto_filling (Json d) = Js.eqb (fd_status d) $"auto_filled".
Proof.
  unfold Session.resolving, Session.offering, auto_filling, Session.status_in.
  simpl existsb. rewrite !orb_false_r. auto.
Qed.

Lemma status_exclusive (d : FillData) (a b : Js.str) :
  Js.eqb (fd_status d) a = true -> Js.eqb a b = false ->
  Js.eqb (fd_status d) b = false.
Proof.
  intros Ha Hab. apply Js_eqb_eq in Ha. rewrite Ha. exact Hab.
Qed.

Lemma auto_filling_resolving (r : Fetched FillData) :
  auto_filling r = true -> Session.resolving r = true.
Proof.
  destruct r as [m|d]; [discriminate|].
  destruct (status_tests d) as (-> & _ & ->). intros ->. apply orb_true_r.
Qed.

Lemma resolving_not_offering (r : Fetched FillData) :
  Session.resolving r = true -> Session.offering r = false.
Proof.
  destruct r as [m|d]; [discriminate|].
  destruct (status_tests d) as (-> & -> & _). intros H.
  apply orb_true_iff in H. destruct H as [H|H].
  - eapply status_exclusive; [exact H|reflexivity].
  - eapply status_exclusive; [exact H|reflexivity].
Qed.

Lemma handleSubmit_unsent (r : Fetched FillData) (s : Chat.State) :
  Chat.currentPlaceholder s = None \/ Js.truthy (Js.trim (Chat.input s)) = false ->
  Chat.handleSubmit r s = (s, []).
Proof.
  unfold Chat.handleSubmit, Chat.handleSubmit_send.
  intros [H|H]; rewrite H; [reflexivity|].
  destruct (Chat.currentPlaceholder s); reflexivity.
Qed.

Lemma handleSubmit_receive_summary (r : Fetched FillData) (s : Chat.State) :
  exists s' extra,
    Chat.handleSubmit_receive r s
    = (s', if Session.resolving r then [SetTimeoutLoad] else [])
    /\ Chat.currentPlaceholder s' = Chat.currentPlaceholder s
    /\ Chat.showAutoSuggest s' = show_after r (Chat.showAutoSuggest s)
    /\ Chat.loading s' = false
    /\ Chat.messages s' = Chat.messages s ++ extra
    /\ Forall plain extra.
Proof.
  unfold show_after. destruct r as [m|d].
  - simpl. eexists; eexists. split; [reflexivity|]. simpl.
    split; [reflexivity|]. split; [reflexivity|]. split; [reflexivity|].
    split; [reflexivity | repeat constructor].
  - destruct (status_tests d) as (-> & -> & _).
    unfold Chat.handleSubmit_receive.
    case_status d; try rewrite Est; simpl;
      (eexists; eexists; split; [reflexivity|]; simpl;
       split; [reflexivity|]; split; [reflexivity|]; split; [reflexivity|];
       split; [first [reflexivity | symmetry; apply app_nil_r]
              |repeat constructor]).
Qed.

Lemma handleAccept_receive_summary (r : Fetched FillData) (s : Chat.State) :
  exists s' extra,
    Chat.handleAccept_receive r s
    = (s', if auto_filling r then [SetTimeoutLoad] else [])
    /\ Chat.currentPlaceholder s' = Chat.currentPlaceholder s
    /\ Chat.showAutoSuggest s'
       = (if auto_filling r then false else Chat.showAutoSuggest s)
    /\ Chat.loading s' = false
    /\ Chat.messages s' = Chat.messages s ++ extra
    /\ Forall plain extra.
Proof.
  destruct r as [m|d].
  - simpl. eexists; eexists. split; [reflexivity|]. simpl.
    split; [reflexivity|]. split; [reflexivity|]. split; [reflexivity|].
    split; [reflexivity | repeat constructor].
  - destruct (status_tests d) as (_ & _ & ->).
    unfold Chat.handleAccept_receive.
    destruct (Js.eqb (fd_status d) $"auto_filled"); simpl;
      (eexists; eexists; split; [reflexivity|]; simpl;
       split; [reflexivity|]; split; [reflexivity|]; split; [reflexivity|];
       split; [first [reflexivity | symmetry; apply app_nil_r]
              |repeat constructor]).
Qed.

Lemma handleSubmit_sent (r : Fetched FillData) (s : Chat.State) (cur : Placeholder) :
  Chat.currentPlaceholder s = Some cur ->
  Js.truthy (Js.trim (Chat.input s)) = true ->
  exists s' extra,
    Chat.handleSubmit r s
    = (s', PostFill (placeholder_id cur) (Js.trim (Chat.input s))
                    (Chat.showAutoSuggest s)
           :: (if Session.resolving r then [SetTimeoutLoad] else []))
    /\ Chat.currentPlaceholder s' = Some cur
    /\ Chat.showAutoSuggest s' = show_after r (Chat.showAutoSuggest s)
    /\ Chat.loading s' = false
    /\ Chat.messages s' = Chat.messages s ++ extra
    /\ Forall plain extra.
Proof.
  intros Hc Ht. unfold Chat.handleSubmit, Chat.handleSubmit_send.
  rewrite Hc, Ht.
  match goal with |- context [Chat.handleSubmit_receive r ?s0] =>
    destruct (handleSubmit_receive_summary r s0)
      as (s' & extra & -> & Hc' & Hs' & Hl' & Hm' & Hp')
  end.
  exists s', (Chat.msg Chat.user (Js.trim (Chat.input s)) :: extra).
  split; [reflexivity|]. simpl in *.
  split; [congruence|]. split; [exact Hs'|]. split; [exact Hl'|].
  split; [rewrite Hm', <- app_assoc; reflexivity|].
  constructor; [reflexivity|exact Hp'].
Qed.

Lemma generateFinalDoc_summary (g : Fetched GenerateData) (s : Chat.State) :
  exists s' extra tail,
    Chat.generateFinalDoc g s = (s', PostGenerate :: tail)
    /\ (tail = [] \/ exists doc, tail = [OnComplete doc])
    /\ Chat.currentPlaceholder s' = Chat.currentPlaceholder s
    /\ Chat.showAutoSuggest s' = Chat.showAutoSuggest s
    /\ Chat.messages s'
       = Chat.messages s ++ Chat.msg Chat.bot Chat.all_filled_text :: extra
    /\ Forall plain extra.
Proof.
  unfold Chat.generateFinalDoc. destruct g as [m|d].
  - eexists; eexists; eexists. split; [reflexivity|]. simpl.
    split; [left; reflexivity|]. split; [reflexivity|]. split; [reflexivity|].
    split; [rewrite <- app_assoc; reflexivity | repeat constructor].
  - destruct (Js.eqb (gd_status d) $"ok").
    + eexists; exists []; eexists. split; [reflexivity|]. simpl.
      split; [right; eexists; reflexivity|]. auto.
    + eexists; eexists; eexists. split; [reflexivity|]. simpl.
      split; [left; reflexivity|]. split; [reflexivity|]. split; [reflexivity|].
      split; [rewrite <- app_assoc; reflexivity | repeat constructor].
Qed.

(** The two ways [loadNextQuestion] goes on after the listing. *)
Lemma loadNextQuestion_listed_summary (r : Fetched PlaceholdersData)
    (s : Chat.State) :
  (exists s', Chat.loadNextQuestion_listed r s = (s', [])
              /\ (Chat.currentPlaceholder s <> None ->
                  Chat.currentPlaceholder s' <> None)
              /\ Chat.showAutoSuggest s' = Chat.showAutoSuggest s
              /\ Chat.loading s' = false)
  \/ (exists s', Chat.loadNextQuestion_listed r s = (s', [PostGenerate])
                 /\ Chat.currentPlaceholder s' = Chat.currentPlaceholder s
                 /\ Chat.showAutoSuggest s' = Chat.showAutoSuggest s
                 /\ Chat.loading s' = true).
Proof.
  unfold Chat.loadNextQuestion_listed. destruct r as [m|data].
  - left. eexists. split; [reflexivity|]. split; [auto|]. split; reflexivity.
  - destruct (Chat.find_pending (pl_placeholders data)) as [p|].
    + left. eexists. split; [reflexivity|]. unfold Chat.activate. simpl.
      destruct (match Chat.currentPlaceholder s with Some _ => _ | None => _ end);
        (split; [discriminate|]; split; reflexivity).
    + right. eexists. split; [reflexivity|]. repeat split.
Qed.

Lemma loadNextQuestion_generated_summary (g : Fetched GenerateData)
    (s : Chat.State) :
  exists s',
    Chat.currentPlaceholder s' = Chat.currentPlaceholder s
    /\ Chat.showAutoSuggest s' = Chat.showAutoSuggest s
    /\ Chat.loading s' = false
    /\ ((Chat.loadNextQuestion_generated g s = (s', [])
         /\ forall d, g = Json d -> gd_status d <> $"ok")
        \/ exists d, g = Json d /\ gd_status d = $"ok"
                     /\ Chat.loadNextQuestion_generated g s
                        = (s', [OnComplete (gd_final_document d)])).
Proof.
  exists (fst (Chat.loadNextQuestion_generated g s)).
  unfold Chat.loadNextQuestion_generated. destruct g as [m|d].
  - cbn [fst]. repeat (split; [reflexivity|]). left. split; [reflexivity|].
    intros d H. discriminate H.
  - destruct (Js.eqb (gd_status d) $"ok") eqn:E; cbn [fst].
    + repeat (split; [reflexivity|]). right. exists d.
      split; [reflexivity|]. split; [apply Js_eqb_eq; exact E|reflexivity].
    + repeat (split; [reflexivity|]). left. split; [reflexivity|].
      intros d' H Hok. inversion H; subst d'.
      rewrite Hok, Js_eqb_refl in E. discriminate E.
Qed.

(** *** Questions are not repeated *)

Lemma repeats_plain (m1 m2 : Chat.Message) : plain m2 -> repeats m1 m2 = false.
Proof. unfold plain, repeats. intros ->. reflexivity. Qed.

Lemma nrq_snoc (ms : list Chat.Message) (m : Chat.Message) :
  no_repeated_question ms = true ->
  (forall l, nth_error ms (List.length ms - 1) = Some l -> repeats l m = false) ->
  no_repeated_question (ms ++ [m]) = true.
Proof.
  induction ms as [|a ms IH]; intros Hn Hl; [reflexivity|].
  destruct ms as [|b ms].
  - simpl. rewrite (Hl a eq_refl). reflexivity.
  - change (no_repeated_question ((a :: b :: ms) ++ [m]))
      with (negb (repeats a b) && no_repeated_question ((b :: ms) ++ [m])).
    change (no_repeated_question (a :: b :: ms))
      with (negb (repeats a b) && no_repeated_question (b :: ms)) in Hn.
    apply andb_true_iff in Hn. destruct Hn as [Hab Hn].
    rewrite Hab. simpl andb. apply IH; [exact Hn|].
    intros l H. apply Hl. simpl in *. rewrite Nat.sub_0_r in *. exact H.
Qed.

Lemma nrq_app_plain (ms extra : list Chat.Message) :
  no_repeated_question ms = true -> Forall plain extra ->
  no_repeated_question (ms ++ extra) = true.
Proof.
  intros Hn Hp. revert ms Hn. induction Hp as [|m extra Hm Hp IH]; intros ms Hn.
  - rewrite app_nil_r; exact Hn.
  - change (m :: extra) with ([m] ++ extra). rewrite app_assoc. apply IH.
    apply nrq_snoc; [exact Hn|]. intros l _. apply repeats_plain; exact Hm.
Qed.

Lemma nrq_ask (p : Placeholder) (ms : list Chat.Message) :
  no_repeated_question ms = true -> no_repeated_question (Chat.ask p ms) = true.
Proof.
  intros Hn. unfold Chat.ask.
  destruct (nth_error ms (List.length ms - 1)) as [l|] eqn:E.
  - destruct (Chat.MsgType_eqb (Chat.type l) Chat.bot
              && Js.eqb (Chat.text l) (Chat.questionText p)) eqn:T; [exact Hn|].
    apply nrq_snoc; [exact Hn|]. intros l' E'. rewrite E in E'.
    inversion E'; subst l'. unfold repeats; simpl. exact T.
  - apply nrq_snoc; [exact Hn|]. intros l' E'. rewrite E in E'. discriminate.
Qed.

Lemma loadNextQuestion_summary (r : Fetched PlaceholdersData)
    (g : Fetched GenerateData) (s : Chat.State) :
  exists s' tail,
    Chat.loadNextQuestion r g s = (s', GetPlaceholders :: tail)
    /\ (tail = [] \/ tail = [PostGenerate]
        \/ exists doc, tail = [PostGenerate; OnComplete doc])
    /\ (tail <> [] -> Chat.currentPlaceholder s' = Chat.currentPlaceholder s)
    /\ Chat.showAutoSuggest s' = Chat.showAutoSuggest s
    /\ (no_repeated_question (Chat.messages s) = true ->
        no_repeated_question (Chat.messages s') = true).
Proof.
  unfold Chat.loadNextQuestion. destruct r as [m|data].
  - eexists; exists []. split; [reflexivity|]. simpl.
    split; [auto|]. split; [congruence|]. split; [reflexivity|].
    intros Hn. apply nrq_app_plain; [exact Hn|repeat constructor].
  - destruct (Chat.find_pending (pl_placeholders data)) as [p|].
    + eexists; exists []. split; [reflexivity|].
      split; [auto|]. split; [congruence|].
      unfold Chat.activate. simpl.
      destruct (match Chat.currentPlaceholder s with Some _ => _ | None => _ end);
        simpl; split; try reflexivity; try tauto.
      apply nrq_ask.
    + match goal with |- context [Chat.generateFinalDoc g ?s0] =>
        destruct (generateFinalDoc_summary g s0)
          as (s' & extra & tail & -> & Ht & Hc & Hs & Hm & Hp)
      end.
      eexists; eexists. split; [reflexivity|]. simpl.
      split; [destruct Ht as [->|(doc & ->)]; eauto|].
      split; [intros _; rewrite Hc; reflexivity|].
      split; [rewrite Hs; reflexivity|].
      rewrite Hm. simpl. intros Hn. apply nrq_app_plain; [exact Hn|].
      constructor; [reflexivity|exact Hp].
Qed.

(** ** Requests in flight *)

Lemma remove_nth_split {A} (l : list A) (i : nat) (a : A) :
  nth_error l i = Some a ->
  exists l1 l2, l = l1 ++ a :: l2 /\ Session.remove_nth i l = l1 ++ l2.
Proof.
  revert i. induction l as [|b l IH]; intros [|i] H; simpl in H;
    try discriminate H.
  - inversion H; subst b. exists [], l. split; reflexivity.
  - destruct (IH i H) as (l1 & l2 & Hl & Hr).
    exists (b :: l1), l2. split.
    + simpl. f_equal. exact Hl.
    + unfold Session.remove_nth in *. simpl. f_equal. exact Hr.
Qed.

Lemma count_remove_nth {A} (k : A -> bool) (l : list A) (i : nat) (a : A) :
  nth_error l i = Some a ->
  List.length (filter k l)
  = ((if k a then 1 else 0) + List.length (filter k (Session.remove_nth i l)))%nat.
Proof.
  intros H. destruct (remove_nth_split l i H) as (l1 & l2 & Hl & Hr).
  rewrite Hr. rewrite Hl at 1. rewrite !filter_app, !length_app. simpl.
  destruct (k a); simpl; lia.
Qed.

Lemma In_remove_nth {A} (l : list A) (i : nat) (b : A) :
  In b (Session.remove_nth i l) -> In b l.
Proof.
  revert i. induction l as [|a l IH]; intros [|i]; unfold Session.remove_nth;
    simpl; auto.
  intros [H|H]; [left; exact H|right; apply (IH i); exact H].
Qed.

(** ** One step of a session *)

Lemma step_move (x : Session.State) (e : Session.Event) :
  Move x (Session.step x e).
Proof.
  unfold Session.step.
  destruct (Session.enabled x e) eqn:En; [|apply Quiet; reflexivity].
  destruct e as [v | | | | | | i r | i r | i g]; simpl in En;
    unfold Session.fire.
  - apply Quiet; reflexivity.
  - apply andb_true_iff in En. destruct En as [Hm En].
    unfold Chat.send_disabled in En. apply negb_true_iff in En.
    apply orb_false_iff in En. destruct En as [En Hs].
    apply orb_false_iff in En. destruct En as [_ Ht].
    apply negb_false_iff in Ht.
    unfold Chat.handleSubmit_send. rewrite Ht.
    destruct (Chat.currentPlaceholder (Session.chat x)) as [cur|] eqn:Hc.
    + rewrite Hs. apply Asked with (cur := cur); try assumption; reflexivity.
    + apply Quiet; reflexivity.
  - apply andb_true_iff in En. destruct En as [_ Hs].
    apply Refused; try reflexivity. exact Hs.
  - apply andb_true_iff in En. destruct En as [Hm Hs].
    unfold Chat.handleAccept_send.
    cbn [Chat.currentPlaceholder Chat.setLoading Chat.setShowAutoSuggest
         Chat.setInput Chat.append Chat.setMessages].
    destruct (Chat.currentPlaceholder (Session.chat x)) as [cur|] eqn:Hc.
    + apply Consented with (cur := cur); try assumption; reflexivity.
    + apply Fumbled; try assumption; reflexivity.
  - apply Restarted; try reflexivity.
    unfold App.complete_mounted in En.
    destruct (App.step (Session.app x)); try discriminate En. reflexivity.
  - apply Nat.ltb_lt in En.
    unfold Session.perform, Session.settle, Session.mounted.
    cbn [Session.app Session.chat Session.scheduled Session.inflight
         Session.history].
    destruct (App.chat_mounted (Session.app x)) eqn:Hm;
      apply Fetching; try assumption;
      unfold active, buttons, busy, Session.mounted;
      cbn [Session.app Session.chat Session.scheduled Session.inflight
           Session.history];
      rewrite ?Hm; reflexivity.
  - destruct (nth_error (Session.inflight x) i) as [[from pid| |]|] eqn:Hn;
      try discriminate En.
    assert (Hout : exists s' ,
               (match from with
                | Session.Form => Chat.handleSubmit_receive r (Session.chat x)
                | Session.AcceptButton =>
                    Chat.handleAccept_receive r (Session.chat x)
                end)
               = (s', if schedules (Session.Answered from pid r)
                      then [SetTimeoutLoad] else [])
               /\ Chat.currentPlaceholder s'
                  = Chat.currentPlaceholder (Session.chat x)
               /\ Chat.showAutoSuggest s'
                  = shown_after from r (Chat.showAutoSuggest (Session.chat x))
               /\ Chat.loading s' = false).
    { destruct from; simpl.
      - destruct (handleSubmit_receive_summary r (Session.chat x))
          as (s' & extra & Ho & Hc & Hs & Hl & _). exists s'. auto.
      - destruct (handleAccept_receive_summary r (Session.chat x))
          as (s' & extra & Ho & Hc & Hs & Hl & _). exists s'. auto. }
    destruct Hout as (s' & -> & Hc & Hs & Hl).
    unfold Session.commit, Session.settle, Session.answered.
    cbn [fst snd Session.app Session.chat Session.scheduled Session.inflight
         Session.history Session.mounted].
    apply Replied with (i := i) (from := from) (pid := pid) (r := r);
      try assumption;
      destruct (schedules (Session.Answered from pid r));
      unfold active, buttons, busy, Session.mounted;
      cbn [fold_left Session.perform Session.app Session.chat Session.scheduled
           Session.inflight Session.history];
      try reflexivity;
      destruct (App.chat_mounted (Session.app x)); try reflexivity; assumption.
  - destruct (nth_error (Session.inflight x) i) as [[from pid| |]|] eqn:Hn;
      try discriminate En.
    unfold Session.commit, Session.settle, Session.answered.
    destruct (loadNextQuestion_listed_summary r (Session.chat x))
      as [(s' & -> & Hk & Hs & Hl) | (s' & -> & Hc & Hs & Hl)];
      cbn [fst snd fold_left Session.perform Session.app Session.chat
           Session.scheduled Session.inflight Session.history Session.mounted].
    + apply Catalogued with (i := i) (r := r); try assumption; try reflexivity;
        unfold active, buttons, busy, Session.mounted; cbn [Session.chat Session.app];
        destruct (App.chat_mounted (Session.app x)); try reflexivity;
        first [assumption | intros H; exact H].
    + apply Generation with (i := i) (r := r); try assumption; try reflexivity;
        unfold active, buttons, busy, Session.mounted; cbn [Session.chat Session.app];
        destruct (App.chat_mounted (Session.app x)); try reflexivity; assumption.
  - destruct (nth_error (Session.inflight x) i) as [[from pid| |]|] eqn:Hn;
      try discriminate En.
    unfold Session.commit, Session.settle, Session.answered.
    destruct (loadNextQuestion_generated_summary g (Session.chat x))
      as (s' & Hc & Hs & Hl & [(-> & Hno) | (d & -> & Hok & ->)]);
      cbn [fst snd fold_left Session.perform Session.app Session.chat
           Session.scheduled Session.inflight Session.history Session.mounted].
    + apply Failed with (i := i) (g := g); try assumption; try reflexivity;
        unfold active, buttons, busy, Session.mounted; cbn [Session.chat Session.app];
        destruct (App.chat_mounted (Session.app x)); try reflexivity; assumption.
    + apply Delivered with (i := i) (d := d); try assumption; try reflexivity;
        unfold active, buttons, busy, Session.mounted; cbn [Session.chat Session.app];
        destruct (App.chat_mounted (Session.app x)); try reflexivity; assumption.
Qed.

Lemma run_snoc (evs : list Session.Event) (e : Session.Event) (x : Session.State) :
  Session.run (evs ++ [e]) x = Session.step (Session.run evs x) e.
Proof. unfold Session.run. rewrite fold_left_app. reflexivity. Qed.

Lemma run_app (evs evs' : list Session.Event) (x : Session.State) :
  Session.run (evs ++ evs') x = Session.run evs' (Session.run evs x).
Proof. unfold Session.run. apply fold_left_app. Qed.

Lemma move_history (x y : Session.State) :
  Move x y -> exists new, Session.history y = new ++ Session.history x.
Proof.
  intros [H _ _ _ _ _ _
         | cur _ _ _ _ H _ _ _ _ _ _
         | cur _ _ _ H _ _ _ _ _ _
         | _ _ H _ _ _ _ _ _
         | _ H _ _ _ _ _ _
         | _ H _ _ _ _
         | _ H _ _ _ _ _ _
         | i from pid r _ H _ _ _ _ _ _
         | i r _ H _ _ _ _ _ _
         | i r _ H _ _ _ _ _ _
         | i g _ _ H _ _ _ _ _ _
         | i d _ _ H _ _ _ _ _ _]; rewrite H.
  - exists []; reflexivity.
  - eexists [_]; reflexivity.
  - eexists [_]; reflexivity.
  - exists []; reflexivity.
  - eexists [_]; reflexivity.
  - eexists [_]; reflexivity.
  - eexists [_]; reflexivity.
  - eexists [_]; reflexivity.
  - eexists [_]; reflexivity.
  - eexists [_; _]; reflexivity.
  - eexists [_]; reflexivity.
  - eexists [_; _]; reflexivity.
Qed.

Lemma run_history (evs : list Session.Event) (x : Session.State) :
  exists new, Session.history (Session.run evs x) = new ++ Session.history x.
Proof.
  induction evs as [|e evs IH] using rev_ind.
  - exists []; reflexivity.
  - rewrite run_snoc. destruct IH as (new & Hnew).
    destruct (move_history (step_move (Session.run evs x) e)) as (new' & Hn').
    exists (new' ++ new). rewrite Hn', Hnew, app_assoc. reflexivity.
Qed.

Lemma run_invariant (P : Session.State -> Prop) (up : App.UploadData) :
  P (Session.init up) ->
  (forall x y, P x -> Move x y -> P y) ->
  forall evs, P (Session.run evs (Session.init up)).
Proof.
  intros H0 Hstep evs. induction evs as [|e evs IH] using rev_ind; [exact H0|].
  rewrite run_snoc. exact (Hstep _ _ IH (step_move _ e)).
Qed.

(** ** Sessions against a backend that resolves each placeholder once *)

Lemma resolved_once_suffix (new h : list Session.Obs) :
  Session.resolved_once (new ++ h) = true ->
  Session.resolved_once h = true.
Proof.
  induction new as [|o new IH]; simpl; [auto|].
  destruct o; auto.
  intros H. apply andb_true_iff in H. destruct H as [_ H]. auto.
Qed.

Lemma generations_app (new h : list Session.Obs) :
  Session.generations (new ++ h)
  = (Session.generations new + Session.generations h)%nat.
Proof.
  unfold Session.generations. rewrite filter_app, length_app. reflexivity.
Qed.

Lemma resolved_in_cons (pid : Js.str) (o : Session.Obs) (h : list Session.Obs) :
  Session.resolved_in pid h = true -> Session.resolved_in pid (o :: h) = true.
Proof. intros H. simpl. rewrite H. apply orb_true_r. Qed.

Lemma resolved_in_app (pid : Js.str) (new h : list Session.Obs) :
  Session.resolved_in pid h = true -> Session.resolved_in pid (new ++ h) = true.
Proof.
  intros H. induction new as [|o new IH]; [exact H|].
  apply resolved_in_cons. exact IH.
Qed.

Lemma lists_awaited_snoc (x y : Session.State) (p : Session.Pending) :
  Session.inflight y = Session.inflight x ++ [p] ->
  lists_awaited y
  = (lists_awaited x + if is_await_list p then 1 else 0)%nat.
Proof.
  unfold lists_awaited. intros ->. rewrite filter_app, length_app. simpl.
  destruct (is_await_list p); reflexivity.
Qed.

Lemma inv_init (up : App.UploadData) : Inv (Session.init up).
Proof.
  constructor; simpl.
  - unfold Session.generations, lists_awaited; simpl; lia.
  - intros _. exact I.
  - intros from pid [H|[]]. discriminate H.
  - intros [H|[]]. discriminate H.
  - intros H. contradiction H. reflexivity.
Qed.

(** Events that neither start nor end a load, nor resolve anything. *)
Lemma inv_frame (x y : Session.State) :
  Inv x ->
  Session.generations (Session.history y) = Session.generations (Session.history x) ->
  Session.scheduled y = Session.scheduled x ->
  lists_awaited y = lists_awaited x ->
  active y = active x ->
  (forall pid, Session.resolved_in pid (Session.history x) = true ->
               Session.resolved_in pid (Session.history y) = true) ->
  (forall from pid,
      In (Session.AwaitFill from pid) (Session.inflight y) ->
      In (Session.AwaitFill from pid) (Session.inflight x)
      \/ exists p, active y = Some p /\ placeholder_id p = pid) ->
  (In Session.AwaitGenerate (Session.inflight y) ->
   In Session.AwaitGenerate (Session.inflight x)) ->
  (App.step (Session.app y) <> App.chat ->
   App.step (Session.app x) <> App.chat
   \/ In Session.AwaitGenerate (Session.inflight x)) ->
  Inv y.
Proof.
  intros HI Hg Hn Hl Ha Hres Hfills Hgen Hstep.
  constructor; unfold closed; rewrite ?Hg, ?Hn, ?Hl, ?Ha.
  - exact (inv_budget HI).
  - intros Hw. pose proof (inv_wait HI Hw) as Hc. unfold closed in Hc.
    destruct (active x) as [p|]; [|exact I]. apply Hres. exact Hc.
  - intros from pid Hin. destruct (Hfills from pid Hin) as [Hx|Hy].
    + destruct (inv_fills HI from pid Hx) as [Hact|Hr].
      * left. exact Hact.
      * right. apply Hres. exact Hr.
    + left. rewrite <- Ha. exact Hy.
  - intros Hin. exact (inv_generating HI (Hgen Hin)).
  - intros Hs. destruct (Hstep Hs) as [Hx|Hx].
    + exact (inv_complete HI Hx).
    + exact (inv_generating HI Hx).
Qed.

Lemma in_snoc_fill (l : list Session.Pending) (p : Session.Pending)
    (from : Session.Origin) (pid : Js.str) :
  In (Session.AwaitFill from pid) (l ++ [p]) ->
  In (Session.AwaitFill from pid) l \/ p = Session.AwaitFill from pid.
Proof.
  intros H. apply in_app_or in H. destruct H as [H|[H|[]]]; auto.
Qed.

Lemma inv_step (x y : Session.State) :
  Inv x -> Move x y ->
  Session.resolved_once (Session.history y) = true -> Inv y.
Proof.
  intros HI HM Hrsc.
  pose proof (inv_budget HI) as Hb.
  destruct HM as [Hh Hn Hf Ha Hc Hs Hl
                 | cur Hm Hcur Hshow Ht Hh Hf Hn Ha Hc Hs Hl
                 | cur Hm Hcur Hshow Hh Hf Hn Ha Hc Hs Hl
                 | Hcur Hshow Hh Hn Hf Ha Hc Hs Hl
                 | Hshow Hh Hn Hf Ha Hc Hs Hl
                 | Hstep Hh Hn Hf Ha Hch
                 | Hpos Hh Hn Hf Ha Hc Hs Hl
                 | i from pid r Hnth Hh Hn Hf Ha Hc Hs Hl
                 | i r Hnth Hh Hn Hf Ha Hk Hs Hl
                 | i r Hnth Hh Hn Hf Ha Hc Hs Hl
                 | i g Hnth Hno Hh Hn Hf Ha Hc Hs Hl
                 | i d Hnth Hok Hh Hn Hf Ha Hc Hs Hl].
  - (* nothing observable happened *)
    apply (@inv_frame x y HI).
    + rewrite Hh; reflexivity.
    + exact Hn.
    + unfold lists_awaited; rewrite Hf; reflexivity.
    + exact Hc.
    + rewrite Hh. auto.
    + rewrite Hf. auto.
    + rewrite Hf. auto.
    + rewrite Ha. auto.
  - (* an answer goes out from the form *)
    apply (@inv_frame x y HI).
    + rewrite Hh; reflexivity.
    + exact Hn.
    + rewrite (@lists_awaited_snoc x y _ Hf). simpl. lia.
    + congruence.
    + intros q Hq. rewrite Hh. apply resolved_in_cons. exact Hq.
    + intros from pid Hin. rewrite Hf in Hin.
      destruct (in_snoc_fill _ _ _ _ Hin) as [Hin'|Hin']; [left; exact Hin'|].
      right. exists cur. split; [exact Hc|]. inversion Hin'. reflexivity.
    + rewrite Hf. intros Hin. apply in_app_or in Hin.
      destruct Hin as [Hin|[Hin|[]]]; [exact Hin|discriminate Hin].
    + rewrite Ha. auto.
  - (* the suggestion is accepted *)
    apply (@inv_frame x y HI).
    + rewrite Hh; reflexivity.
    + exact Hn.
    + rewrite (@lists_awaited_snoc x y _ Hf). simpl. lia.
    + congruence.
    + intros q Hq. rewrite Hh. apply resolved_in_cons. exact Hq.
    + intros from pid Hin. rewrite Hf in Hin.
      destruct (in_snoc_fill _ _ _ _ Hin) as [Hin'|Hin']; [left; exact Hin'|].
      right. exists cur. split; [exact Hc|]. inversion Hin'. reflexivity.
    + rewrite Hf. intros Hin. apply in_app_or in Hin.
      destruct Hin as [Hin|[Hin|[]]]; [exact Hin|discriminate Hin].
    + rewrite Ha. auto.
  - (* Accept with no placeholder active *)
    apply (@inv_frame x y HI).
    + rewrite Hh; reflexivity.
    + exact Hn.
    + unfold lists_awaited; rewrite Hf; reflexivity.
    + congruence.
    + rewrite Hh. auto.
    + rewrite Hf. auto.
    + rewrite Hf. auto.
    + rewrite Ha. auto.
  - (* the suggestion is declined *)
    apply (@inv_frame x y HI).
    + rewrite Hh; reflexivity.
    + exact Hn.
    + unfold lists_awaited; rewrite Hf; reflexivity.
    + exact Hc.
    + intros q Hq. rewrite Hh. apply resolved_in_cons. exact Hq.
    + rewrite Hf. auto.
    + rewrite Hf. auto.
    + rewrite Ha. auto.
  - (* the user starts over *)
    apply (@inv_frame x y HI).
    + rewrite Hh; reflexivity.
    + exact Hn.
    + unfold lists_awaited; rewrite Hf; reflexivity.
    + unfold active. rewrite Hch. reflexivity.
    + intros q Hq. rewrite Hh. apply resolved_in_cons. exact Hq.
    + rewrite Hf. auto.
    + rewrite Hf. auto.
    + intros _. left. rewrite Hstep. discriminate.
  - (* a timer fires *)
    pose proof (@lists_awaited_snoc x y _ Hf) as Hla. simpl in Hla.
    assert (Hg : Session.generations (Session.history y)
                 = Session.generations (Session.history x))
      by (rewrite Hh; reflexivity).
    constructor; unfold closed; rewrite ?Hg, ?Hn, ?Hla, ?Ha, ?Hc.
    + lia.
    + intros Hw. assert (Hw' : (Session.scheduled x + lists_awaited x = 1)%nat
                               \/ Session.generations (Session.history x) = 1%nat)
        by (destruct Hw as [Hw|Hw]; [left; lia|right; exact Hw]).
      pose proof (inv_wait HI Hw') as Hcl. unfold closed in Hcl.
      destruct (active x) as [p|]; [|exact I].
      rewrite Hh. apply resolved_in_cons. exact Hcl.
    + intros from pid Hin. rewrite Hf in Hin.
      destruct (in_snoc_fill _ _ _ _ Hin) as [Hin'|Hin']; [|discriminate Hin'].
      destruct (inv_fills HI from pid Hin') as [Hact|Hr]; [left; exact Hact|].
      right. rewrite Hh. apply resolved_in_cons. exact Hr.
    + rewrite Hf. intros Hin. apply in_app_or in Hin.
      destruct Hin as [Hin|[Hin|[]]]; [|discriminate Hin].
      exact (inv_generating HI Hin).
    + exact (inv_complete HI).
  - (* a fill_placeholder response *)
    assert (Hla : lists_awaited y = lists_awaited x).
    { unfold lists_awaited. rewrite Hf.
      rewrite (count_remove_nth is_await_list _ _ Hnth). reflexivity. }
    assert (Hg : Session.generations (Session.history y)
                 = Session.generations (Session.history x))
      by (rewrite Hh; reflexivity).
    assert (Hin : In (Session.AwaitFill from pid) (Session.inflight x))
      by (eapply nth_error_In; exact Hnth).
    rewrite Hh in Hrsc. simpl in Hrsc. apply andb_true_iff in Hrsc.
    destruct Hrsc as [Hfirst _]. apply negb_true_iff in Hfirst.
    assert (Hmono : forall q, Session.resolved_in q (Session.history x) = true ->
                              Session.resolved_in q (Session.history y) = true)
      by (intros q Hq; rewrite Hh; apply resolved_in_cons; exact Hq).
    assert (Hfills : forall f q,
               In (Session.AwaitFill f q) (Session.inflight y) ->
               (exists p, active y = Some p /\ placeholder_id p = q)
               \/ Session.resolved_in q (Session.history y) = true).
    { intros f q Hq. rewrite Hf in Hq. apply In_remove_nth in Hq.
      destruct (inv_fills HI f q Hq) as [Hact|Hr].
      - left. rewrite Hc. exact Hact.
      - right. apply Hmono. exact Hr. }
    assert (Hgen : In Session.AwaitGenerate (Session.inflight y) ->
                   Session.generations (Session.history y) = 1%nat).
    { rewrite Hf, Hg. intros Hq. apply In_remove_nth in Hq.
      exact (inv_generating HI Hq). }
    destruct (schedules (Session.Answered from pid r)) eqn:Esch.
    + (* it resolves the placeholder and sets a timer *)
      assert (Hres : Session.resolving r = true).
      { destruct from; simpl in Esch;
          [exact Esch|apply auto_filling_resolving; exact Esch]. }
      rewrite Hres in Hfirst. simpl in Hfirst.
      destruct (inv_fills HI from pid Hin) as [(p & Hp & Hid)|Hr];
        [|congruence].
      assert (Hidle : ~ ((Session.scheduled x + lists_awaited x = 1)%nat
                         \/ Session.generations (Session.history x) = 1%nat)).
      { intros Hw. pose proof (inv_wait HI Hw) as Hcl. unfold closed in Hcl.
        rewrite Hp, Hid in Hcl. congruence. }
      constructor; unfold closed; rewrite ?Hg, ?Hn, ?Hla, ?Ha.
      * lia.
      * intros _. rewrite Hc, Hp, Hh. simpl. rewrite Hid, Js_eqb_refl, Hres.
        reflexivity.
      * exact Hfills.
      * rewrite <- Hg. exact Hgen.
      * exact (inv_complete HI).
    + constructor; unfold closed; rewrite ?Hg, ?Hn, ?Hla, ?Ha.
      * exact Hb.
      * intros Hw. pose proof (inv_wait HI Hw) as Hcl. unfold closed in Hcl.
        rewrite Hc.
        destruct (active x) as [p|]; [|exact I]. apply Hmono. exact Hcl.
      * exact Hfills.
      * rewrite <- Hg. exact Hgen.
      * exact (inv_complete HI).
  - (* a listing with a pending placeholder, or none at all *)
    pose proof (count_remove_nth is_await_list _ _ Hnth) as Hcount.
    simpl in Hcount. fold (lists_awaited x) in Hcount.
    assert (Hla : lists_awaited y = 0%nat /\ lists_awaited x = 1%nat).
    { unfold lists_awaited at 1. rewrite Hf. lia. }
    destruct Hla as [Hy0 Hx1].
    assert (Hg : Session.generations (Session.history y)
                 = Session.generations (Session.history x))
      by (rewrite Hh; reflexivity).
    assert (Hcl : closed x) by (apply (inv_wait HI); left; lia).
    constructor; unfold closed; rewrite ?Hg, ?Hn, ?Hy0, ?Ha.
    + lia.
    + intros [Hw|Hw]; lia.
    + intros f q Hq. rewrite Hf in Hq. apply In_remove_nth in Hq. right.
      rewrite Hh. apply resolved_in_cons.
      destruct (inv_fills HI f q Hq) as [(p & Hp & Hid)|Hr]; [|exact Hr].
      unfold closed in Hcl. rewrite Hp, Hid in Hcl. exact Hcl.
    + rewrite Hf. intros Hq. apply In_remove_nth in Hq.
      exact (inv_generating HI Hq).
    + exact (inv_complete HI).
  - (* a listing with nothing pending: generation is invoked *)
    pose proof (count_remove_nth is_await_list _ _ Hnth) as Hcount.
    simpl in Hcount. fold (lists_awaited x) in Hcount.
    assert (Hla : lists_awaited y = 0%nat /\ lists_awaited x = 1%nat).
    { unfold lists_awaited at 1. rewrite Hf, filter_app, length_app. simpl. lia. }
    destruct Hla as [Hy0 Hx1].
    assert (Hg : Session.generations (Session.history y)
                 = S (Session.generations (Session.history x)))
      by (rewrite Hh; reflexivity).
    assert (Hcl : closed x) by (apply (inv_wait HI); left; lia).
    constructor; unfold closed; rewrite ?Hg, ?Hn, ?Hy0, ?Ha, ?Hc.
    + lia.
    + intros _. unfold closed in Hcl. destruct (active x) as [p|]; [|exact I].
      rewrite Hh. apply resolved_in_cons, resolved_in_cons. exact Hcl.
    + intros f q Hq. rewrite Hf in Hq.
      destruct (in_snoc_fill _ _ _ _ Hq) as [Hq'|Hq']; [|discriminate Hq'].
      apply In_remove_nth in Hq'.
      destruct (inv_fills HI f q Hq') as [Hact|Hr]; [left; exact Hact|].
      right. rewrite Hh. apply resolved_in_cons, resolved_in_cons. exact Hr.
    + intros _. lia.
    + intros _. lia.
  - (* generation failed *)
    apply (@inv_frame x y HI).
    + rewrite Hh; reflexivity.
    + exact Hn.
    + unfold lists_awaited. rewrite Hf.
      rewrite (count_remove_nth is_await_list _ _ Hnth). reflexivity.
    + exact Hc.
    + intros q Hq. rewrite Hh. apply resolved_in_cons. exact Hq.
    + intros f q Hq. rewrite Hf in Hq. apply In_remove_nth in Hq. left. exact Hq.
    + rewrite Hf. apply In_remove_nth.
    + rewrite Ha. auto.
  - (* generation succeeded: onComplete *)
    apply (@inv_frame x y HI).
    + rewrite Hh; reflexivity.
    + exact Hn.
    + unfold lists_awaited. rewrite Hf.
      rewrite (count_remove_nth is_await_list _ _ Hnth). reflexivity.
    + exact Hc.
    + intros q Hq. rewrite Hh. apply resolved_in_cons, resolved_in_cons. exact Hq.
    + intros f q Hq. rewrite Hf in Hq. apply In_remove_nth in Hq. left. exact Hq.
    + rewrite Hf. apply In_remove_nth.
    + intros _. right. eapply nth_error_In. exact Hnth.
Qed.

Lemma inv_run (up : App.UploadData) (evs : list Session.Event) :
  Session.resolved_once (Session.history (Session.run evs (Session.init up)))
  = true ->
  Inv (Session.run evs (Session.init up)).
Proof.
  induction evs as [|e evs IH] using rev_ind; intros H.
  - apply inv_init.
  - rewrite run_snoc in *.
    pose proof (step_move (Session.run evs (Session.init up)) e) as HM.
    destruct (move_history HM) as (new & Hnew).
    apply inv_step with (x := Session.run evs (Session.init up)).
    + apply IH. rewrite Hnew in H. exact (resolved_once_suffix _ _ H).
    + exact HM.
    + exact H.
Qed.

(** ** Consent is backed by an offer, whatever the backend answers *)

Lemma consent_backed_step (x y : Session.State) :
  Move x y ->
  (buttons x = true -> Session.offer_open (Session.history x) = true) ->
  Session.consent_backed (Session.history x) = true ->
  (buttons y = true -> Session.offer_open (Session.history y) = true)
  /\ Session.consent_backed (Session.history y) = true.
Proof.
  intros HM Hopen Hback.
  destruct HM as [Hh Hn Hf Ha Hc Hs Hl
                 | cur Hm Hcur Hshow Ht Hh Hf Hn Ha Hc Hs Hl
                 | cur Hm Hcur Hshow Hh Hf Hn Ha Hc Hs Hl
                 | Hcur Hshow Hh Hn Hf Ha Hc Hs Hl
                 | Hshow Hh Hn Hf Ha Hc Hs Hl
                 | Hstep Hh Hn Hf Ha Hch
                 | Hpos Hh Hn Hf Ha Hc Hs Hl
                 | i from pid r Hnth Hh Hn Hf Ha Hc Hs Hl
                 | i r Hnth Hh Hn Hf Ha Hk Hs Hl
                 | i r Hnth Hh Hn Hf Ha Hc Hs Hl
                 | i g Hnth Hno Hh Hn Hf Ha Hc Hs Hl
                 | i d Hnth Hok Hh Hn Hf Ha Hc Hs Hl];
    rewrite Hh; simpl.
  - rewrite Hs. auto.
  - rewrite Hs. split; [discriminate|exact Hback].
  - rewrite (Hopen Hshow), Hback. auto.
  - rewrite Hs. auto.
  - rewrite Hs. split; [discriminate|exact Hback].
  - unfold buttons in *. rewrite Hch. auto.
  - rewrite Hs. auto.
  - split; [|destruct from; exact Hback].
    rewrite Hs. destruct (Session.mounted x).
    + destruct from; simpl.
      * unfold show_after. destruct (Session.resolving r); [discriminate|].
        destruct (Session.offering r); [intros _; reflexivity|exact Hopen].
      * destruct (auto_filling r); [discriminate|exact Hopen].
    + destruct from; simpl.
      * intros H. rewrite (Hopen H). apply orb_true_r.
      * exact Hopen.
  - rewrite Hs. auto.
  - rewrite Hs. auto.
  - rewrite Hs. auto.
  - rewrite Hs. auto.
Qed.

Lemma consent_backed_run (up : App.UploadData) (evs : list Session.Event) :
  (buttons (Session.run evs (Session.init up)) = true ->
   Session.offer_open (Session.history (Session.run evs (Session.init up))) = true)
  /\ Session.consent_backed (Session.history (Session.run evs (Session.init up)))
     = true.
Proof.
  apply run_invariant with
    (P := fun x => (buttons x = true ->
                    Session.offer_open (Session.history x) = true)
                   /\ Session.consent_backed (Session.history x) = true).
  - split; [discriminate|reflexivity].
  - intros x y [Ho Hb] HM. exact (consent_backed_step HM Ho Hb).
Qed.

(** ** Sessions in which nothing was ever offered *)

Lemma never_offered_step (x y : Session.State) :
  Move x y ->
  (never_offered (Session.history x) = true ->
   buttons x = false /\ no_consent (Session.history x) = true) ->
  never_offered (Session.history y) = true ->
  buttons y = false /\ no_consent (Session.history y) = true.
Proof.
  intros HM IH Hy.
  destruct HM as [Hh Hn Hf Ha Hc Hs Hl
                 | cur Hm Hcur Hshow Ht Hh Hf Hn Ha Hc Hs Hl
                 | cur Hm Hcur Hshow Hh Hf Hn Ha Hc Hs Hl
                 | Hcur Hshow Hh Hn Hf Ha Hc Hs Hl
                 | Hshow Hh Hn Hf Ha Hc Hs Hl
                 | Hstep Hh Hn Hf Ha Hch
                 | Hpos Hh Hn Hf Ha Hc Hs Hl
                 | i from pid r Hnth Hh Hn Hf Ha Hc Hs Hl
                 | i r Hnth Hh Hn Hf Ha Hk Hs Hl
                 | i r Hnth Hh Hn Hf Ha Hc Hs Hl
                 | i g Hnth Hno Hh Hn Hf Ha Hc Hs Hl
                 | i d Hnth Hok Hh Hn Hf Ha Hc Hs Hl];
    rewrite Hh in Hy |- *; simpl in Hy |- *.
  - rewrite Hs. exact (IH Hy).
  - destruct (IH Hy) as [_ Hno]. auto.
  - destruct (IH Hy) as [F _]. congruence.
  - destruct (IH Hy) as [F _]. congruence.
  - destruct (IH Hy) as [F _]. congruence.
  - unfold buttons in *. rewrite Hch. exact (IH Hy).
  - rewrite Hs. exact (IH Hy).
  - apply andb_true_iff in Hy. destruct Hy as [Ho Hy].
    apply negb_true_iff in Ho. destruct (IH Hy) as [Hb Hno].
    split; [|exact Hno].
    rewrite Hs, Hb. destruct (Session.mounted x); [|reflexivity].
    destruct from; simpl in *.
    + unfold show_after. rewrite Ho.
      destruct (Session.resolving r); reflexivity.
    + destruct (auto_filling r); reflexivity.
  - rewrite Hs. exact (IH Hy).
  - rewrite Hs. exact (IH Hy).
  - rewrite Hs. exact (IH Hy).
  - rewrite Hs. exact (IH Hy).
Qed.

Lemma never_offered_run (up : App.UploadData) (evs : list Session.Event) :
  never_offered (Session.history (Session.run evs (Session.init up))) = true ->
  buttons (Session.run evs (Session.init up)) = false
  /\ no_consent (Session.history (Session.run evs (Session.init up))) = true.
Proof.
  apply run_invariant with
    (P := fun x => never_offered (Session.history x) = true ->
                   buttons x = false /\ no_consent (Session.history x) = true).
  - intros _. split; reflexivity.
  - intros x y IH HM. exact (never_offered_step HM IH).
Qed.

(* ================================================================== *)
(** ** Consent to auto-suggestion (C1) *)




(* ================================================================== *)
(** ** Completion (C5) *)

Lemma none_pending (ps : list Placeholder) :
  (forall q, In q ps -> status q <> $"pending") -> Chat.find_pending ps = None.
Proof.
  intros H. unfold Chat.find_pending.
  destruct (find Chat.is_pending ps) as [p|] eqn:E; [exfalso|reflexivity].
  apply find_some in E. destruct E as [Hin Hp].
  apply (H p Hin). apply Js_eqb_eq. exact Hp.
Qed.

(** C5, as the code has it.  When a placeholder-list response contains no
    placeholder with status pending, the next-question step invokes final
    document generation and asks no question (with a pending placeholder
    it only fetches the list).  Provided the backend answers accepted or
    auto_filled at most once for each placeholder, generation is invoked
    at most once in a session, whatever else the backend answers and in
    whatever order requests, timers and responses interleave, and never
    again once the completion view has been entered. *)
Theorem completion_signalled_once (up : App.UploadData)
    (evs evs' : list Session.Event) (data : PlaceholdersData)
    (g : Fetched GenerateData) (s : Chat.State) :
  ((forall q, In q (pl_placeholders data) -> status q <> $"pending") ->
   (exists s' extra tail,
     Chat.loadNextQuestion (Json data) g s
     = (s', GetPlaceholders :: PostGenerate :: tail)
     /\ Chat.messages s'
        = Chat.messages s ++ Chat.msg Chat.bot Chat.all_filled_text :: extra
     /\ Forall plain extra
     /\ Chat.currentPlaceholder s' = Chat.currentPlaceholder s)
   /\ snd (Chat.loadNextQuestion_listed (Json data) s) = [PostGenerate])
  /\ (forall p, Chat.find_pending (pl_placeholders data) = Some p ->
                snd (Chat.loadNextQuestion (Json data) g s) = [GetPlaceholders]
                /\ snd (Chat.loadNextQuestion_listed (Json data) s) = [])
  /\ (let x := Session.run evs (Session.init up) in
      let y := Session.run evs' x in
      Session.resolved_once (Session.history y) = true ->
      (Session.generations (Session.history y) <= 1)%nat
      /\ (App.step (Session.app x) = App.complete ->
          Session.generations (Session.history y)
          = Session.generations (Session.history x))).
Proof.
  split; [|split].
  - intros Hnone. split.
    + unfold Chat.loadNextQuestion. rewrite (none_pending _ Hnone).
      match goal with |- context [Chat.generateFinalDoc g ?s0] =>
        destruct (generateFinalDoc_summary g s0)
          as (s' & extra & tail & -> & _ & Hc & _ & Hm & Hp)
      end.
      exists (Chat.setLoading false s'), extra, tail.
      split; [reflexivity|]. simpl. rewrite Hm, Hc. auto.
    + unfold Chat.loadNextQuestion_listed. rewrite (none_pending _ Hnone).
      reflexivity.
  - intros p Hp. unfold Chat.loadNextQuestion, Chat.loadNextQuestion_listed.
    rewrite Hp. split; reflexivity.
  - intros x y Hrsc. subst y.
    destruct (run_history evs' x) as (new & Hnew).
    assert (Hx : Session.resolved_once (Session.history x) = true).
    { rewrite Hnew in Hrsc. exact (resolved_once_suffix _ _ Hrsc). }
    subst x. rewrite <- run_app in *.
    pose proof (inv_budget (inv_run up (evs ++ evs') Hrsc)) as Hy.
    split; [lia|].
    intros Hdone.
    assert (Hone : Session.generations
                     (Session.history (Session.run evs (Session.init up)))
                   = 1%nat).
    { apply (inv_complete (inv_run up evs Hx)). rewrite Hdone. discriminate. }
    rewrite Hnew, generations_app in *. lia.
Qed.

Lemma completion_signalled_once_witness :
  (Session.resolved_once
     (Session.history
        (Session.run Scenario.second_load
           (Session.run Scenario.hasty (Session.init Scenario.uploaded))))
   = true
   /\ App.step (Session.app (Session.run Scenario.hasty
                               (Session.init Scenario.uploaded)))
      = App.complete)
  /\ (Session.generations
        (Session.history
           (Session.run Scenario.second_load
              (Session.run Scenario.hasty (Session.init Scenario.uploaded))))
      = 1)%nat
  /\ snd (Chat.loadNextQuestion_listed
            (Json (Scenario.listing 1 0 1 [Scenario.company_accepted]))
            Scenario.asking)
     = [PostGenerate].
Proof.
  destruct (completion_signalled_once Scenario.uploaded Scenario.hasty
              Scenario.second_load
              (Scenario.listing 1 0 1 [Scenario.company_accepted])
              (Json Scenario.generated_ok) Scenario.asking)
    as (Hgen & _ & Honce).
  split; [split; vm_compute; reflexivity|]. split.
  - destruct Honce as [_ Hsame]; [vm_compute; reflexivity|].
    rewrite Hsame; [|vm_compute; reflexivity]. vm_compute. reflexivity.
  - apply Hgen. intros q [Hq|[]]. rewrite <- Hq. discriminate.
Defined.

(** C5 as stated fails: in the session [Scenario.accepted_twice] the
    backend accepts two answers for the one placeholder, each acceptance
    sets a timer, the first load enters the completion view, and the
    second invokes final document generation again after that. *)
Lemma completion_signalled_twice :
  let x := Session.run Scenario.accepted_twice (Session.init Scenario.uploaded) in
  let y := Session.run Scenario.second_load x in
  App.step (Session.app x) = App.complete
  /\ Session.generations (Session.history x) = 1%nat
  /\ Session.generations (Session.history y) = 2%nat
  /\ Session.resolved_once (Session.history x) = false.
Proof. vm_compute. repeat split. Qed.

(* ================================================================== *)
(** ** No duplicate question (C9) *)

Lemma messages_last_snoc (ms : list Chat.Message) (m : Chat.Message) :
  nth_error (ms ++ [m]) (List.length (ms ++ [m]) - 1) = Some m.
Proof. apply nth_error_last. Qed.

Lemma load_same_placeholder (data : PlaceholdersData) g s p cur :
  Chat.find_pending (pl_placeholders data) = Some p ->
  Chat.currentPlaceholder s = Some cur ->
  placeholder_id cur = placeholder_id p ->
  Chat.messages (fst (Chat.loadNextQuestion (Json data) g s)) = Chat.messages s.
Proof.
  intros Hp Hc Hid. unfold Chat.loadNextQuestion. rewrite Hp.
  unfold Chat.activate. simpl. rewrite Hc, Hid, Js_eqb_refl. reflexivity.
Qed.

(** What each part of a handler keeps of the conversation. *)
Lemma nrq_listed (r : Fetched PlaceholdersData) (s : Chat.State) :
  no_repeated_question (Chat.messages s) = true ->
  no_repeated_question
    (Chat.messages (fst (Chat.loadNextQuestion_listed r s))) = true.
Proof.
  intros Hn. unfold Chat.loadNextQuestion_listed. destruct r as [m|data].
  - simpl. apply nrq_app_plain; [exact Hn|repeat constructor].
  - destruct (Chat.find_pending (pl_placeholders data)) as [p|].
    + unfold Chat.activate. simpl.
      destruct (match Chat.currentPlaceholder s with Some _ => _ | None => _ end);
        simpl; [apply nrq_ask|]; exact Hn.
    + simpl. apply nrq_app_plain; [exact Hn|repeat constructor].
Qed.

Lemma nrq_generated (g : Fetched GenerateData) (s : Chat.State) :
  no_repeated_question (Chat.messages s) = true ->
  no_repeated_question
    (Chat.messages (fst (Chat.loadNextQuestion_generated g s))) = true.
Proof.
  intros Hn. unfold Chat.loadNextQuestion_generated. destruct g as [m|d].
  - simpl. apply nrq_app_plain; [exact Hn|repeat constructor].
  - destruct (Js.eqb (gd_status d) $"ok"); simpl; [exact Hn|].
    apply nrq_app_plain; [exact Hn|repeat constructor].
Qed.

Lemma commit_chat (x : Session.State) (out : Chat.State * list Effect) :
  Session.chat (Session.commit x out)
  = if Session.mounted x then fst out else Session.chat x.
Proof.
  unfold Session.commit.
  assert (H : forall effs z,
             Session.chat (fold_left Session.perform effs z) = Session.chat z).
  { induction effs as [|e effs IH]; intros z; [reflexivity|].
    simpl. rewrite IH. destruct e; reflexivity. }
  rewrite H. reflexivity.
Qed.

(** The Chat state after a step is the state before, or what one part
    of a handler made of it. *)
Lemma step_chat (x : Session.State) (e : Session.Event) :
  Session.chat (Session.step x e) = Session.chat x
  \/ (exists v, Session.chat (Session.step x e) = Chat.setInput v (Session.chat x))
  \/ (exists c req, Chat.handleSubmit_send (Session.chat x) = Some (c, req)
                    /\ Session.chat (Session.step x e) = c)
  \/ Session.chat (Session.step x e) = Chat.handleSkipAutoSuggest (Session.chat x)
  \/ Session.chat (Session.step x e) = fst (Chat.handleAccept_send (Session.chat x))
  \/ Session.chat (Session.step x e) = Chat.loadNextQuestion_start (Session.chat x)
  \/ (exists r, Session.chat (Session.step x e)
                = fst (Chat.handleSubmit_receive r (Session.chat x)))
  \/ (exists r, Session.chat (Session.step x e)
                = fst (Chat.handleAccept_receive r (Session.chat x)))
  \/ (exists r, Session.chat (Session.step x e)
                = fst (Chat.loadNextQuestion_listed r (Session.chat x)))
  \/ (exists g, Session.chat (Session.step x e)
                = fst (Chat.loadNextQuestion_generated g (Session.chat x))).
Proof.
  unfold Session.step. destruct (Session.enabled x e); [|left; reflexivity].
  destruct e as [v | | | | | | i r | i r | i g]; unfold Session.fire.
  - right; left. exists v. reflexivity.
  - destruct (Chat.handleSubmit_send (Session.chat x)) as [[c req]|] eqn:E;
      [|left; reflexivity].
    right; right; left. exists c, req. split; [reflexivity|].
    unfold Chat.handleSubmit_send in E.
    destruct (Chat.currentPlaceholder (Session.chat x)); [|discriminate E].
    destruct (Js.truthy (Js.trim (Chat.input (Session.chat x))));
      [|discriminate E].
    inversion E; subst. reflexivity.
  - do 3 right; left. reflexivity.
  - do 4 right; left.
    destruct (Chat.handleAccept_send (Session.chat x)) as [c [req|]] eqn:E;
      [|reflexivity].
    unfold Chat.handleAccept_send in E.
    cbn [Chat.currentPlaceholder Chat.setLoading Chat.setShowAutoSuggest
         Chat.setInput Chat.append Chat.setMessages] in E.
    destruct (Chat.currentPlaceholder (Session.chat x)); [|discriminate E].
    inversion E; subst. reflexivity.
  - left. reflexivity.
  - unfold Session.perform, Session.settle, Session.mounted.
    cbn [Session.app Session.chat].
    destruct (App.chat_mounted (Session.app x)); [|left; reflexivity].
    do 5 right; left. reflexivity.
  - destruct (nth_error (Session.inflight x) i) as [[from pid| |]|];
      try (left; reflexivity).
    rewrite commit_chat. unfold Session.mounted, Session.answered.
    cbn [Session.app Session.chat].
    destruct (App.chat_mounted (Session.app x)); [|left; reflexivity].
    destruct from; [do 6 right; left|do 7 right; left]; exists r; reflexivity.
  - destruct (nth_error (Session.inflight x) i) as [[from pid| |]|];
      try (left; reflexivity).
    rewrite commit_chat. unfold Session.mounted, Session.answered.
    cbn [Session.app Session.chat].
    destruct (App.chat_mounted (Session.app x)); [|left; reflexivity].
    do 8 right; left. exists r. reflexivity.
  - destruct (nth_error (Session.inflight x) i) as [[from pid| |]|];
      try (left; reflexivity).
    rewrite commit_chat. unfold Session.mounted, Session.answered.
    cbn [Session.app Session.chat].
    destruct (App.chat_mounted (Session.app x)); [|left; reflexivity].
    do 9 right. exists g. reflexivity.
Qed.

Lemma handleSubmit_send_messages (s c : Chat.State) (req : Effect) :
  Chat.handleSubmit_send s = Some (c, req) ->
  Chat.currentPlaceholder c = Chat.currentPlaceholder s
  /\ Chat.currentPlaceholder s <> None
  /\ exists m, Chat.messages c = Chat.messages s ++ [m] /\ plain m.
Proof.
  unfold Chat.handleSubmit_send.
  destruct (Chat.currentPlaceholder s) as [cur|] eqn:Hc; [|discriminate].
  destruct (Js.truthy (Js.trim (Chat.input s))); [|discriminate].
  intros H. inversion H; subst. simpl.
  split; [congruence|]. split; [discriminate|].
  eexists. split; reflexivity.
Qed.

Lemma handleAccept_send_messages (s : Chat.State) :
  Chat.currentPlaceholder (fst (Chat.handleAccept_send s))
  = Chat.currentPlaceholder s
  /\ exists extra, Chat.messages (fst (Chat.handleAccept_send s))
                   = Chat.messages s ++ extra
                   /\ Forall plain extra.
Proof.
  unfold Chat.handleAccept_send.
  cbn [Chat.currentPlaceholder Chat.setLoading Chat.setShowAutoSuggest
       Chat.setInput Chat.append Chat.setMessages].
  destruct (Chat.currentPlaceholder s) as [cur|] eqn:Hc; simpl.
  - split; [congruence|]. eexists. split; [reflexivity|].
    repeat constructor.
  - split; [congruence|]. eexists.
    split; [rewrite <- app_assoc; reflexivity|]. repeat constructor.
Qed.

Lemma nrq_step (x : Session.State) (e : Session.Event) :
  no_repeated_question (Chat.messages (Session.chat x)) = true ->
  no_repeated_question (Chat.messages (Session.chat (Session.step x e))) = true.
Proof.
  intros Hn.
  destruct (step_chat x e)
    as [H|[(v & H)|[(c & req & Hs & H)|[H|[H|[H|[(r & H)|[(r & H)|[(r & H)
       |(g & H)]]]]]]]]]; rewrite H.
  - exact Hn.
  - exact Hn.
  - destruct (handleSubmit_send_messages _ Hs) as (_ & _ & m & Hm & Hp).
    rewrite Hm. apply nrq_app_plain; [exact Hn|]. constructor; [exact Hp|constructor].
  - simpl. apply nrq_app_plain; [exact Hn|repeat constructor].
  - destruct (handleAccept_send_messages (Session.chat x))
      as (_ & extra & Hm & Hp).
    rewrite Hm. apply nrq_app_plain; assumption.
  - exact Hn.
  - destruct (handleSubmit_receive_summary r (Session.chat x))
      as (s' & extra & Hout & _ & _ & _ & Hm & Hp).
    rewrite Hout. simpl fst. rewrite Hm. apply nrq_app_plain; assumption.
  - destruct (handleAccept_receive_summary r (Session.chat x))
      as (s' & extra & Hout & _ & _ & _ & Hm & Hp).
    rewrite Hout. simpl fst. rewrite Hm. apply nrq_app_plain; assumption.
  - apply nrq_listed. exact Hn.
  - apply nrq_generated. exact Hn.
Qed.

Lemma nrq_run (evs : list Session.Event) (x : Session.State) :
  no_repeated_question (Chat.messages (Session.chat x)) = true ->
  no_repeated_question (Chat.messages (Session.chat (Session.run evs x))) = true.
Proof.
  revert x. induction evs as [|e evs IH]; intros x Hn; [exact Hn|].
  simpl. apply IH. apply nrq_step. exact Hn.
Qed.

(** C9. Loading the next question does not repeat a question: when the
    first pending placeholder is the one already active, or the last
    message is already the bot message with that placeholder's question
    text, the step leaves the message list as it is; running the step twice
    on the same response appends nothing the second time; and in every
    session no question message directly follows a bot message with the
    same text. *)
Theorem next_question_not_repeated (data : PlaceholdersData)
    (g g' : Fetched GenerateData) (s : Chat.State) (p : Placeholder)
    (up : App.UploadData) (evs : list Session.Event) :
  Chat.find_pending (pl_placeholders data) = Some p ->
  (forall cur, Chat.currentPlaceholder s = Some cur ->
               placeholder_id cur = placeholder_id p ->
               Chat.messages (fst (Chat.loadNextQuestion (Json data) g s))
               = Chat.messages s)
  /\ (forall ms m, Chat.messages s = ms ++ [m] ->
                   Chat.type m = Chat.bot ->
                   Chat.text m = Chat.questionText p ->
                   Chat.messages (fst (Chat.loadNextQuestion (Json data) g s))
                   = Chat.messages s)
  /\ Chat.messages
       (fst (Chat.loadNextQuestion (Json data) g'
               (fst (Chat.loadNextQuestion (Json data) g s))))
     = Chat.messages (fst (Chat.loadNextQuestion (Json data) g s))
  /\ no_repeated_question
       (Chat.messages (Session.chat (Session.run evs (Session.init up)))) = true.
Proof.
  intros Hp. split; [|split; [|split]].
  - intros cur Hc Hid. exact (load_same_placeholder data g s Hp Hc Hid).
  - intros ms m Hms Hty Htx. unfold Chat.loadNextQuestion. rewrite Hp.
    unfold Chat.activate. simpl.
    destruct (match Chat.currentPlaceholder s with Some _ => _ | None => _ end);
      [|reflexivity].
    simpl. unfold Chat.ask. rewrite Hms, messages_last_snoc, Hty, Htx, Js_eqb_refl.
    reflexivity.
  - apply load_same_placeholder with (p := p) (cur := p).
    + exact Hp.
    + apply load_current_pending. exact Hp.
    + reflexivity.
  - apply nrq_run. reflexivity.
Qed.

Lemma next_question_not_repeated_witness :
  Chat.messages
    (fst (Chat.loadNextQuestion (Json Scenario.first_listing_data) (Threw [])
            Scenario.asking))
  = Chat.messages Scenario.asking.
Proof.
  destruct (@next_question_not_repeated Scenario.first_listing_data
              (Threw []) (Threw []) Scenario.asking Scenario.company
              Scenario.uploaded Scenario.orderly eq_refl) as [Hsame _].
  apply (Hsame Scenario.company); reflexivity.
Defined.

(* ================================================================== *)
(** * Further properties of the components *)

(** ** Strings *)

Lemma startsWith_iff (p s : Js.str) :
  Js.startsWith p s = true <-> exists b, s = p ++ b.
Proof.
  split.
  - revert s. induction p as [|x p IH]; intros s H.
    + exists s; reflexivity.
    + destruct s as [|y s]; simpl in H; [discriminate|].
      apply andb_true_iff in H. destruct H as [Hxy H].
      apply N.eqb_eq in Hxy. subst y.
      destruct (IH s H) as (b & ->). exists b; reflexivity.
  - intros (b & ->). apply startsWith_app.
Qed.

Lemma includes_iff (p s : Js.str) :
  Js.includes p s = true <-> exists a b, s = a ++ p ++ b.
Proof.
  split.
  - induction s as [|c s IH]; simpl; intros H.
    + rewrite orb_false_r in H. apply startsWith_iff in H.
      destruct H as (b & Hb). exists [], b. exact Hb.
    + apply orb_true_iff in H. destruct H as [H|H].
      * apply startsWith_iff in H. destruct H as (b & Hb). exists [], b. exact Hb.
      * destruct (IH H) as (a & b & ->). exists (c :: a), b. reflexivity.
  - intros (a & b & ->). apply includes_app.
Qed.

Lemma endsWith_iff (p s : Js.str) :
  Js.endsWith p s = true <-> exists a, s = a ++ p.
Proof.
  unfold Js.endsWith. rewrite startsWith_iff. split.
  - intros (b & Hb). exists (rev b).
    apply (f_equal (@rev N)) in Hb. rewrite rev_involutive, rev_app_distr in Hb.
    rewrite rev_involutive in Hb. exact Hb.
  - intros (a & ->). exists (rev a). apply rev_app_distr.
Qed.

Lemma trimStart_decomp (s : Js.str) :
  exists pre, s = pre ++ Js.trimStart s
              /\ forallb Js.is_space pre = true
              /\ (forall c t, Js.trimStart s = c :: t -> Js.is_space c = false).
Proof.
  induction s as [|c s (pre & Hs & Hpre & Hhd)]; simpl.
  - exists []. repeat split. discriminate.
  - destruct (Js.is_space c) eqn:Ec.
    + exists (c :: pre). simpl. rewrite Ec, Hpre. repeat split.
      * f_equal. exact Hs.
      * exact Hhd.
    + exists []. repeat split. intros c' t H. inversion H; subst. exact Ec.
Qed.

Lemma trimStart_tight (s : Js.str) :
  (forall c t, s = c :: t -> Js.is_space c = false) -> Js.trimStart s = s.
Proof.
  destruct s as [|c t]; [reflexivity|]. intros H. simpl.
  rewrite (H c t eq_refl). reflexivity.
Qed.

Lemma trim_decomp (s : Js.str) :
  exists pre post,
    s = pre ++ Js.trim s ++ post
    /\ forallb Js.is_space pre = true
    /\ forallb Js.is_space post = true
    /\ tight (Js.trim s).
Proof.
  destruct (trimStart_decomp s) as (pre & Hs & Hpre & Hhd).
  destruct (trimStart_decomp (rev (Js.trimStart s))) as (erp & Hr & Herp & Hlast).
  assert (Ha : Js.trimStart s = Js.trim s ++ rev erp).
  { unfold Js.trim, Js.trimEnd. rewrite <- rev_app_distr, <- Hr.
    symmetry. apply rev_involutive. }
  exists pre, (rev erp). split; [|split; [|split; [|split]]].
  - rewrite <- Ha. exact Hs.
  - exact Hpre.
  - rewrite forallb_forall in *. intros c Hc. apply Herp.
    apply in_rev. exact Hc.
  - intros c t Ht. rewrite Ht in Ha. exact (Hhd c _ Ha).
  - intros t c Ht. unfold Js.trim, Js.trimEnd in Ht.
    apply (f_equal (@rev N)) in Ht.
    rewrite rev_involutive, rev_app_distr in Ht. simpl in Ht.
    exact (Hlast c _ Ht).
Qed.

Lemma trim_tight (s : Js.str) : tight s -> Js.trim s = s.
Proof.
  intros [Hhd Hlast]. unfold Js.trim, Js.trimEnd.
  rewrite (trimStart_tight Hhd).
  rewrite trimStart_tight; [apply rev_involutive|].
  intros c t H. apply (f_equal (@rev N)) in H.
  rewrite rev_involutive in H. simpl in H. exact (Hlast _ _ H).
Qed.

Lemma trim_idempotent (s : Js.str) : Js.trim (Js.trim s) = Js.trim s.
Proof.
  destruct (trim_decomp s) as (_ & _ & _ & _ & _ & Ht). apply trim_tight; exact Ht.
Qed.

(** ** How the handlers move the Chat state *)

Lemma plain_well_formed (m : Chat.Message) : plain m -> well_formed m.
Proof. unfold plain, well_formed. intros ->. exact I. Qed.

Lemma Forall_plain_well_formed (ms : list Chat.Message) :
  Forall plain ms -> Forall well_formed ms.
Proof. apply Forall_impl. exact plain_well_formed. Qed.

Lemma advances_refl (s : Chat.State) : advances s s.
Proof.
  split; [exists []; split; [symmetry; apply app_nil_r|constructor]|]. tauto.
Qed.

Lemma advances_trans (a b c : Chat.State) :
  advances a b -> advances b c -> advances a c.
Proof.
  intros ((e1 & H1 & F1) & P1 & C1) ((e2 & H2 & F2) & P2 & C2).
  split; [|tauto].
  exists (e1 ++ e2). split.
  - rewrite H2, H1, app_assoc. reflexivity.
  - apply Forall_app. split; assumption.
Qed.

(** A part of a handler that keeps the active placeholder and appends
    messages that are not questions. *)
Lemma advances_plain (s s' : Chat.State) (extra : list Chat.Message) :
  Chat.currentPlaceholder s' = Chat.currentPlaceholder s ->
  Chat.messages s' = Chat.messages s ++ extra ->
  Forall plain extra ->
  advances s s'.
Proof.
  intros Hc Hm Hp. split; [|unfold active_pending; rewrite Hc; tauto].
  exists extra. split; [exact Hm|]. apply Forall_plain_well_formed. exact Hp.
Qed.

Lemma handleSubmit_advances (r : Fetched FillData) (s : Chat.State) :
  advances s (fst (Chat.handleSubmit r s)).
Proof.
  destruct (Chat.currentPlaceholder s) as [cur|] eqn:Hc.
  - destruct (Js.truthy (Js.trim (Chat.input s))) eqn:Ht.
    + destruct (handleSubmit_sent r _ Hc Ht)
        as (s' & extra & Hout & Hc' & _ & Hl & Hm & Hp).
      rewrite Hout. simpl.
      apply advances_plain with (extra := extra); congruence.
    + rewrite handleSubmit_unsent by (right; exact Ht). apply advances_refl.
  - rewrite handleSubmit_unsent by (left; exact Hc). apply advances_refl.
Qed.

Lemma ask_extends (p : Placeholder) (ms : list Chat.Message) :
  status p = $"pending" ->
  exists extra, Chat.ask p ms = ms ++ extra /\ Forall well_formed extra.
Proof.
  intros Hp. unfold Chat.ask.
  assert (Hq : Forall well_formed
                 [Chat.mkMessage Chat.bot (Chat.questionText p) (Some p)]).
  { constructor; [|constructor]. unfold well_formed; simpl. auto. }
  destruct (nth_error ms (List.length ms - 1)) as [l|].
  - destruct (Chat.MsgType_eqb (Chat.type l) Chat.bot
              && Js.eqb (Chat.text l) (Chat.questionText p)).
    + exists []. split; [symmetry; apply app_nil_r|constructor].
    + eexists. split; [reflexivity|exact Hq].
  - eexists. split; [reflexivity|exact Hq].
Qed.

Lemma loadNextQuestion_listed_advances (r : Fetched PlaceholdersData)
    (s : Chat.State) :
  advances s (fst (Chat.loadNextQuestion_listed r s)).
Proof.
  unfold Chat.loadNextQuestion_listed. destruct r as [m|data].
  - simpl. eapply advances_plain; [reflexivity|reflexivity|repeat constructor].
  - destruct (Chat.find_pending (pl_placeholders data)) as [p|] eqn:E.
    + assert (Hp : status p = $"pending").
      { apply find_some in E. destruct E as [_ E]. apply Js_eqb_eq. exact E. }
      destruct (ask_extends p (Chat.messages s) Hp) as (extra & Hx & Hwf).
      unfold Chat.activate.
      destruct (match Chat.currentPlaceholder _ with Some _ => _ | None => _ end);
        unfold advances, active_pending;
        cbn [fst Chat.messages Chat.loading Chat.currentPlaceholder Chat.setLoading
             Chat.setCurrentPlaceholder Chat.setMessages Chat.setProgress].
      * rewrite Hx.
        split; [exists extra; split; [reflexivity|exact Hwf]|].
        repeat split; auto; discriminate.
      * split; [exists []; split; [symmetry; apply app_nil_r|constructor]|].
        repeat split; auto; discriminate.
    + simpl. eapply advances_plain; [reflexivity|reflexivity|repeat constructor].
Qed.

Lemma loadNextQuestion_generated_advances (g : Fetched GenerateData)
    (s : Chat.State) :
  advances s (fst (Chat.loadNextQuestion_generated g s)).
Proof.
  unfold Chat.loadNextQuestion_generated. destruct g as [m|d].
  - simpl. eapply advances_plain; [reflexivity|reflexivity|repeat constructor].
  - destruct (Js.eqb (gd_status d) $"ok"); simpl.
    + apply advances_plain with (extra := []);
        [reflexivity|symmetry; apply app_nil_r|constructor].
    + eapply advances_plain; [reflexivity|reflexivity|repeat constructor].
Qed.

Lemma loadNextQuestion_advances (r : Fetched PlaceholdersData)
    (g : Fetched GenerateData) (s : Chat.State) :
  advances s (fst (Chat.loadNextQuestion r g s)).
Proof.
  rewrite loadNextQuestion_parts. cbv zeta.
  assert (H0 : advances s (Chat.loadNextQuestion_start s))
    by (apply advances_plain with (extra := []);
        [reflexivity|symmetry; apply app_nil_r|constructor]).
  pose proof (loadNextQuestion_listed_advances r (Chat.loadNextQuestion_start s))
    as H1.
  destruct (snd (Chat.loadNextQuestion_listed r (Chat.loadNextQuestion_start s)));
    cbn [fst].
  - exact (advances_trans H0 H1).
  - eapply advances_trans; [exact H0|]. eapply advances_trans; [exact H1|].
    apply loadNextQuestion_generated_advances.
Qed.

Lemma step_advances (x : Session.State) (e : Session.Event) :
  advances (Session.chat x) (Session.chat (Session.step x e)).
Proof.
  destruct (step_chat x e)
    as [H|[(v & H)|[(c & req & Hs & H)|[H|[H|[H|[(r & H)|[(r & H)|[(r & H)
       |(g & H)]]]]]]]]]; rewrite H.
  - apply advances_refl.
  - apply advances_plain with (extra := []);
      [reflexivity|symmetry; apply app_nil_r|constructor].
  - destruct (handleSubmit_send_messages _ Hs) as (Hc & _ & m & Hm & Hp).
    apply advances_plain with (extra := [m]);
      [exact Hc|exact Hm|constructor; [exact Hp|constructor]].
  - eapply advances_plain; [reflexivity|reflexivity|repeat constructor].
  - destruct (handleAccept_send_messages (Session.chat x))
      as (Hc & extra & Hm & Hp).
    apply advances_plain with (extra := extra); assumption.
  - apply advances_plain with (extra := []);
      [reflexivity|symmetry; apply app_nil_r|constructor].
  - destruct (handleSubmit_receive_summary r (Session.chat x))
      as (s' & extra & Hout & Hc & _ & _ & Hm & Hp).
    rewrite Hout. apply advances_plain with (extra := extra); assumption.
  - destruct (handleAccept_receive_summary r (Session.chat x))
      as (s' & extra & Hout & Hc & _ & _ & Hm & Hp).
    rewrite Hout. apply advances_plain with (extra := extra); assumption.
  - apply loadNextQuestion_listed_advances.
  - apply loadNextQuestion_generated_advances.
Qed.

Lemma run_advances (evs : list Session.Event) (x : Session.State) :
  advances (Session.chat x) (Session.chat (Session.run evs x)).
Proof.
  revert x. induction evs as [|e evs IH]; intros x; [apply advances_refl|].
  simpl. eapply advances_trans; [apply step_advances|apply IH].
Qed.

(** What a step adds to the history. *)
Lemma move_sent (x y : Session.State) :
  Move x y ->
  forall o, In o (Session.history y) ->
            In o (Session.history x)
            \/ (exists cur,
                   active x = Some cur
                   /\ Js.truthy (Js.trim (Chat.input (Session.chat x))) = true
                   /\ o = Session.Sent (placeholder_id cur)
                            (Js.trim (Chat.input (Session.chat x))) false)
            \/ (exists cur, active x = Some cur
                            /\ o = Session.Sent (placeholder_id cur) $"auto" true)
            \/ (forall pid inp c, o <> Session.Sent pid inp c).
Proof.
  intros [Hh Hn Hf Ha Hc Hs Hl
         | cur Hm Hcur Hshow Ht Hh Hf Hn Ha Hc Hs Hl
         | cur Hm Hcur Hshow Hh Hf Hn Ha Hc Hs Hl
         | Hcur Hshow Hh Hn Hf Ha Hc Hs Hl
         | Hshow Hh Hn Hf Ha Hc Hs Hl
         | Hstep Hh Hn Hf Ha Hch
         | Hpos Hh Hn Hf Ha Hc Hs Hl
         | i from pid r Hnth Hh Hn Hf Ha Hc Hs Hl
         | i r Hnth Hh Hn Hf Ha Hk Hs Hl
         | i r Hnth Hh Hn Hf Ha Hc Hs Hl
         | i g Hnth Hno Hh Hn Hf Ha Hc Hs Hl
         | i d Hnth Hok Hh Hn Hf Ha Hc Hs Hl] o; rewrite Hh; simpl;
    try (intros H; left; exact H);
    try (intros [H|H]; [|left; exact H]; subst o;
         first [right; left; exists cur; auto; fail
               |right; right; left; exists cur; auto; fail
               |right; right; right; intros; discriminate]);
    try (intros [H|[H|H]]; [| |left; exact H]; subst o;
         right; right; right; intros; discriminate).
Qed.
(* ================================================================== *)
(** ** Sessions: what every run keeps *)

(** X1. In every session, whatever the backend answers, a submission
    carrying consent_auto_suggest = true has user_input "auto": it was sent
    by the Accept button.  Answers sent from the form never carry consent,
    the form being disabled while the buttons are on show. *)
Theorem consent_only_from_accept_button (up : App.UploadData)
    (evs : list Session.Event) :
  Forall consent_from_accept
         (Session.history (Session.run evs (Session.init up))).
Proof.
  apply run_invariant with
    (P := fun x => Forall consent_from_accept (Session.history x)).
  - repeat constructor.
  - intros x y Hx HM. apply Forall_forall. intros o Ho.
    destruct (move_sent HM o Ho)
      as [H|[(cur & _ & _ & ->)|[(cur & _ & ->)|H]]].
    + rewrite Forall_forall in Hx. exact (Hx o H).
    + exact I.
    + reflexivity.
    + destruct o; try exact I.
      exfalso. exact (H _ _ _ eq_refl).
Qed.

Lemma handleAcceptAutoSuggest_loading (r : Fetched FillData) (s : Chat.State) :
  Chat.loading (fst (Chat.handleAcceptAutoSuggest r s)) = false.
Proof.
  unfold Chat.handleAcceptAutoSuggest. simpl.
  destruct (Chat.currentPlaceholder s); [|reflexivity].
  destruct r as [m|d]; [reflexivity|].
  destruct (Js.eqb (fd_status d) $"auto_filled"); reflexivity.
Qed.

Lemma generateFinalDoc_loading (g : Fetched GenerateData) (s : Chat.State) :
  Chat.loading (fst (Chat.generateFinalDoc g s)) = false.
Proof.
  unfold Chat.generateFinalDoc. destruct g as [m|d]; [reflexivity|].
  destruct (Js.eqb (gd_status d) $"ok"); reflexivity.
Qed.

Lemma idle_not_busy (up : App.UploadData) (evs : list Session.Event) :
  Session.mounted (Session.run evs (Session.init up)) = true ->
  Session.inflight (Session.run evs (Session.init up)) = [] ->
  busy (Session.run evs (Session.init up)) = false.
Proof.
  apply run_invariant with
    (P := fun x => Session.mounted x = true -> Session.inflight x = [] ->
                   busy x = false).
  - intros _ H. discriminate H.
  - intros x y IH
      [Hh Hn Hf Ha Hc Hs Hl
      | cur Hm Hcur Hshow Ht Hh Hf Hn Ha Hc Hs Hl
      | cur Hm Hcur Hshow Hh Hf Hn Ha Hc Hs Hl
      | Hcur Hshow Hh Hn Hf Ha Hc Hs Hl
      | Hshow Hh Hn Hf Ha Hc Hs Hl
      | Hstep Hh Hn Hf Ha Hch
      | Hpos Hh Hn Hf Ha Hc Hs Hl
      | i from pid r Hnth Hh Hn Hf Ha Hc Hs Hl
      | i r Hnth Hh Hn Hf Ha Hk Hs Hl
      | i r Hnth Hh Hn Hf Ha Hc Hs Hl
      | i g Hnth Hno Hh Hn Hf Ha Hc Hs Hl
      | i d Hnth Hok Hh Hn Hf Ha Hc Hs Hl];
      unfold Session.mounted in *; rewrite ?Ha, ?Hf, ?Hl.
    + exact IH.
    + intros _ H. destruct (Session.inflight x); discriminate H.
    + intros _ H. destruct (Session.inflight x); discriminate H.
    + reflexivity.
    + exact IH.
    + intros H. discriminate H.
    + intros _ H. destruct (Session.inflight x); discriminate H.
    + intros Hm _. rewrite Hm. reflexivity.
    + intros Hm _. rewrite Hm. reflexivity.
    + intros _ H.
      destruct (Session.remove_nth i (Session.inflight x)); discriminate H.
    + intros Hm _. rewrite Hm. reflexivity.
    + intros H. discriminate H.
Qed.

(** X2. No handler leaves the loading indicator on: whatever is fetched
    or thrown, the code that handles the response of a fill_placeholder
    request, of a listing that has a pending placeholder or fails, and of
    a generation ends with [loading] false, and so does each handler as a
    whole.  In a session [loading] can only be on while a request is in
    flight: with the chat on show and every request answered it is
    off. *)
Theorem loading_never_left_on (up : App.UploadData) (evs : list Session.Event)
    (r : Fetched FillData) (l : Fetched PlaceholdersData)
    (g : Fetched GenerateData) (s : Chat.State) :
  Chat.loading (fst (Chat.handleSubmit_receive r s)) = false
  /\ Chat.loading (fst (Chat.handleAccept_receive r s)) = false
  /\ Chat.loading (fst (Chat.handleAcceptAutoSuggest r s)) = false
  /\ (Chat.loading (fst (Chat.loadNextQuestion_listed l s)) = false
      \/ snd (Chat.loadNextQuestion_listed l s) = [PostGenerate])
  /\ Chat.loading (fst (Chat.loadNextQuestion_generated g s)) = false
  /\ Chat.loading (fst (Chat.loadNextQuestion l g s)) = false
  /\ Chat.loading (fst (Chat.generateFinalDoc g s)) = false
  /\ (Session.mounted (Session.run evs (Session.init up)) = true ->
      Session.inflight (Session.run evs (Session.init up)) = [] ->
      Chat.loading (Session.chat (Session.run evs (Session.init up))) = false).
Proof.
  split; [|split; [|split; [|split; [|split; [|split; [|split]]]]]].
  - destruct (handleSubmit_receive_summary r s) as (s' & extra & -> & _ & _ & Hl & _).
    exact Hl.
  - destruct (handleAccept_receive_summary r s) as (s' & extra & -> & _ & _ & Hl & _).
    exact Hl.
  - apply handleAcceptAutoSuggest_loading.
  - destruct (loadNextQuestion_listed_summary l s)
      as [(s' & -> & _ & _ & Hl) | (s' & -> & _)]; [left; exact Hl|right; reflexivity].
  - destruct (loadNextQuestion_generated_summary g s) as (s' & _ & _ & Hl & Hout).
    destruct Hout as [(-> & _) | (d & _ & _ & ->)]; exact Hl.
  - unfold Chat.loadNextQuestion. destruct l as [m|data]; [reflexivity|].
    destruct (Chat.find_pending (pl_placeholders data)); [reflexivity|].
    destruct (Chat.generateFinalDoc g _); reflexivity.
  - apply generateFinalDoc_loading.
  - apply idle_not_busy.
Qed.

Lemma loading_never_left_on_witness :
  Chat.loading
    (Session.chat (Session.run (firstn 4 Scenario.orderly)
                     (Session.init Scenario.uploaded))) = false
  /\ Chat.loading
       (Session.chat (Session.run (firstn 3 Scenario.orderly)
                        (Session.init Scenario.uploaded))) = true.
Proof.
  split; [|vm_compute; reflexivity].
  apply (loading_never_left_on Scenario.uploaded (firstn 4 Scenario.orderly)
           (Threw []) (Threw []) (Threw []) Chat.init);
    vm_compute; reflexivity.
Defined.

(** X3. The conversation is append-only: between any two points of a
    session the message list only grows at its end; no message is removed,
    reordered or rewritten. *)
Theorem conversation_append_only (up : App.UploadData)
    (evs evs' : list Session.Event) :
  exists extra,
    Chat.messages (Session.chat (Session.run (evs ++ evs') (Session.init up)))
    = Chat.messages (Session.chat (Session.run evs (Session.init up))) ++ extra.
Proof.
  rewrite run_app.
  destruct (run_advances evs' (Session.run evs (Session.init up)))
    as ((extra & Hm & _) & _).
  exists extra. exact Hm.
Qed.

Lemma questionText_not_empty (p : Placeholder) : Chat.questionText p <> [].
Proof.
  unfold Chat.questionText. destruct (prompt_text p) as [t|].
  - destruct t as [|c t]; simpl; discriminate.
  - discriminate.
Qed.

(** X4. Every question message of a session is a bot message whose text
    is the question text of the placeholder it carries (the prompt, or
    "Please provide <name>" when the prompt is missing or empty, never the
    empty string), and that placeholder was listed as pending. *)
Theorem question_messages_well_formed (up : App.UploadData)
    (evs : list Session.Event) :
  Forall (fun m => well_formed m
                   /\ (Chat.placeholder m <> None -> Chat.text m <> []))
         (Chat.messages (Session.chat (Session.run evs (Session.init up)))).
Proof.
  destruct (run_advances evs (Session.init up)) as ((extra & Hm & Hwf) & _).
  rewrite Hm. simpl. eapply Forall_impl; [|exact Hwf].
  intros m Hw. split; [exact Hw|].
  unfold well_formed in Hw. destruct (Chat.placeholder m) as [p|].
  - destruct Hw as (_ & Ht & _). intros _. rewrite Ht.
    apply questionText_not_empty.
  - intros H. contradiction.
Qed.

(** X5. The active placeholder of a session, once there is one, is never
    unset, and it is always one that its listing gave as pending. *)
Theorem active_placeholder_kept (up : App.UploadData)
    (evs evs' : list Session.Event) :
  active_pending (Session.chat (Session.run evs (Session.init up)))
  /\ (Chat.currentPlaceholder (Session.chat (Session.run evs (Session.init up)))
      <> None ->
      Chat.currentPlaceholder
        (Session.chat (Session.run (evs ++ evs') (Session.init up))) <> None).
Proof.
  split.
  - destruct (run_advances evs (Session.init up)) as (_ & Hp & _).
    apply Hp. exact I.
  - rewrite run_app.
    destruct (run_advances evs' (Session.run evs (Session.init up)))
      as (_ & _ & Hc).
    exact Hc.
Qed.

Lemma active_placeholder_kept_witness :
  Chat.currentPlaceholder
    (Session.chat (Session.run (Example.opening ++ Example.first_answer)
                               (Session.init Scenario.uploaded))) <> None.
Proof.
  apply (active_placeholder_kept Scenario.uploaded Example.opening
           Example.first_answer).
  vm_compute. discriminate.
Defined.

Lemma auto_tight : tight $"auto".
Proof.
  destruct (trim_decomp $"auto") as (_ & _ & _ & _ & _ & Ht).
  exact Ht.
Qed.

(** X6. Every request a session sends to fill_placeholder has a
    [user_input] that is not empty and has no whitespace at either end. *)
Theorem requests_are_trimmed (up : App.UploadData) (evs : list Session.Event) :
  Forall request_trimmed (Session.history (Session.run evs (Session.init up))).
Proof.
  apply run_invariant with
    (P := fun x => Forall request_trimmed (Session.history x)).
  - repeat constructor.
  - intros x y Hx HM. apply Forall_forall. intros o Ho.
    destruct (move_sent HM o Ho)
      as [H|[(cur & _ & Ht & ->)|[(cur & _ & ->)|H]]].
    + rewrite Forall_forall in Hx. exact (Hx o H).
    + split.
      * intros E. rewrite E in Ht. discriminate.
      * destruct (trim_decomp (Chat.input (Session.chat x)))
          as (_ & _ & _ & _ & _ & Htight). exact Htight.
    + split; [discriminate|apply auto_tight].
    + destruct o; try exact I.
      exfalso. exact (H _ _ _ eq_refl).
Qed.

(* ================================================================== *)
(** ** Sending an answer *)

(** X7. With a placeholder active and an input that is not blank,
    [handleSubmit] sends, and shows as the user's message, the input
    without its surrounding whitespace: the input is pre ++ sent ++ post
    with pre and post all whitespace and sent starting and ending with a
    character that is not whitespace.  The input cell is emptied. *)
Theorem submit_sends_trimmed_input (s : Chat.State) (p : Placeholder) :
  Chat.currentPlaceholder s = Some p ->
  Js.truthy (Js.trim (Chat.input s)) = true ->
  exists s' sent pre post,
    Chat.handleSubmit_send s
    = Some (s', PostFill (placeholder_id p) sent (Chat.showAutoSuggest s))
    /\ Chat.messages s' = Chat.messages s ++ [Chat.msg Chat.user sent]
    /\ Chat.input s' = []
    /\ Chat.input s = pre ++ sent ++ post
    /\ forallb Js.is_space pre = true
    /\ forallb Js.is_space post = true
    /\ sent <> [] /\ tight sent.
Proof.
  intros Hc Ht.
  destruct (trim_decomp (Chat.input s)) as (pre & post & Hs & Hpre & Hpost & Htight).
  unfold Chat.handleSubmit_send. rewrite Hc, Ht.
  eexists; exists (Js.trim (Chat.input s)), pre, post.
  split; [reflexivity|]. simpl.
  repeat (split; [first [reflexivity | assumption]|]).
  split; [|exact Htight].
  intros E. rewrite E in Ht. discriminate.
Qed.

Lemma submit_sends_trimmed_input_witness :
  exists s' sent pre post,
    Chat.handleSubmit_send Example.asking_padded
    = Some (s', PostFill (placeholder_id Scenario.company) sent
                         (Chat.showAutoSuggest Example.asking_padded))
    /\ Chat.messages s'
       = Chat.messages Example.asking_padded ++ [Chat.msg Chat.user sent]
    /\ Chat.input s' = []
    /\ Chat.input Example.asking_padded = pre ++ sent ++ post
    /\ forallb Js.is_space pre = true
    /\ forallb Js.is_space post = true
    /\ sent <> [] /\ tight sent.
Proof.
  apply (@submit_sends_trimmed_input Example.asking_padded Scenario.company);
    reflexivity.
Defined.

(** X8. After the Accept button has been used, the input cell holds the
    text "dummy" whatever the response; when the response is auto_filled
    the buttons are gone and the Send button is enabled, so that submitting
    the form without retyping sends "dummy", without consent, for the
    placeholder that was just filled. *)
Theorem accept_leaves_dummy_input (r : Fetched FillData) (s : Chat.State)
    (p : Placeholder) :
  Chat.currentPlaceholder s = Some p ->
  let s1 := fst (Chat.handleAcceptAutoSuggest r s) in
  Chat.input s1 = $"dummy"
  /\ (auto_filling r = true ->
      Chat.send_disabled s1 = false
      /\ exists s2, Chat.handleSubmit_send s1
                    = Some (s2, PostFill (placeholder_id p) $"dummy" false))
  /\ (auto_filling r = false ->
      Chat.autoSuggestButtons_shown s1 = true /\ Chat.send_disabled s1 = true).
Proof.
  intros Hc s1. subst s1. unfold Chat.handleAcceptAutoSuggest. simpl. rewrite Hc.
  destruct r as [m|d].
  - simpl. split; [reflexivity|]. split; [discriminate|].
    intros _. split; reflexivity.
  - destruct (status_tests d) as (_ & _ & ->).
    destruct (Js.eqb (fd_status d) $"auto_filled"); simpl.
    + split; [reflexivity|]. split; [|discriminate].
      intros _. split; [reflexivity|].
      unfold Chat.handleSubmit_send. simpl. rewrite Hc.
      eexists. reflexivity.
    + split; [reflexivity|]. split; [discriminate|].
      intros _. split; reflexivity.
Qed.

Lemma accept_leaves_dummy_input_witness :
  Chat.input (fst (Chat.handleAcceptAutoSuggest
                     (Json (Scenario.reply "auto_filled")) Example.offered))
  = $"dummy"
  /\ Chat.send_disabled
       (fst (Chat.handleAcceptAutoSuggest
               (Json (Scenario.reply "auto_filled")) Example.offered))
     = false.
Proof.
  destruct (@accept_leaves_dummy_input (Json (Scenario.reply "auto_filled"))
              Example.offered Scenario.company eq_refl) as (Hin & Hsend & _).
  split; [exact Hin|]. apply Hsend. reflexivity.
Defined.

(* ================================================================== *)
(** ** Completion *)

(** What a step does to [App]. *)
Lemma move_app (x y : Session.State) :
  Move x y ->
  (Session.app y = Session.app x
   /\ (forall o, In o (Session.history x) -> In o (Session.history y))
   /\ (forall o, In o (Session.history y) ->
                 In o (Session.history x)
                 \/ (o <> Session.StartedOver
                     /\ forall d, o = Session.Generated (Json d) ->
                                  gd_status d <> $"ok")))
  \/ (exists d, gd_status d = $"ok"
                /\ Session.app y
                   = App.handleChatComplete (gd_final_document d) (Session.app x)
                /\ Session.history y
                   = Session.Completed (gd_final_document d)
                       :: Session.Generated (Json d) :: Session.history x)
  \/ (App.step (Session.app x) = App.complete
      /\ Session.app y = App.handleStartOver (Session.app x)
      /\ Session.history y = Session.StartedOver :: Session.history x).
Proof.
  intros [Hh Hn Hf Ha Hc Hs Hl
         | cur Hm Hcur Hshow Ht Hh Hf Hn Ha Hc Hs Hl
         | cur Hm Hcur Hshow Hh Hf Hn Ha Hc Hs Hl
         | Hcur Hshow Hh Hn Hf Ha Hc Hs Hl
         | Hshow Hh Hn Hf Ha Hc Hs Hl
         | Hstep Hh Hn Hf Ha Hch
         | Hpos Hh Hn Hf Ha Hc Hs Hl
         | i from pid r Hnth Hh Hn Hf Ha Hc Hs Hl
         | i r Hnth Hh Hn Hf Ha Hk Hs Hl
         | i r Hnth Hh Hn Hf Ha Hc Hs Hl
         | i g Hnth Hno Hh Hn Hf Ha Hc Hs Hl
         | i d Hnth Hok Hh Hn Hf Ha Hc Hs Hl];
    try (right; right; split; [exact Hstep|split; [exact Ha|exact Hh]]);
    try (right; left; exists d; split; [exact Hok|split; [exact Ha|exact Hh]]);
    left; (split; [exact Ha|]); rewrite Hh;
    (split; [intros o Ho; simpl; auto|]); simpl; intros o Ho.
  - left. exact Ho.
  - destruct Ho as [<-|Ho]; [right; split; [|intros d H]; discriminate|left; exact Ho].
  - destruct Ho as [<-|Ho]; [right; split; [|intros d H]; discriminate|left; exact Ho].
  - left. exact Ho.
  - destruct Ho as [<-|Ho]; [right; split; [|intros d H]; discriminate|left; exact Ho].
  - destruct Ho as [<-|Ho]; [right; split; [|intros d H]; discriminate|left; exact Ho].
  - destruct Ho as [<-|Ho]; [right; split; [|intros d H]; discriminate|left; exact Ho].
  - destruct Ho as [<-|Ho]; [right; split; [|intros d H]; discriminate|left; exact Ho].
  - destruct Ho as [<-|[<-|Ho]];
      [right; split; [|intros d H]; discriminate
      |right; split; [|intros d H]; discriminate|left; exact Ho].
  - destruct Ho as [<-|Ho]; [right; split; [discriminate|]|left; exact Ho].
    intros d H. apply Hno. inversion H. reflexivity.
Qed.



(* ================================================================== *)
(** ** Failures *)

Lemma includes_suffix (a p : Js.str) : Js.includes p (a ++ p) = true.
Proof. rewrite <- (app_nil_r p) at 2. apply includes_app. Qed.

Lemma reports_append (m prefix : Js.str) (s : Chat.State) :
  reports m (Chat.append (Chat.msg Chat.error (prefix ++ m)) s).
Proof.
  exists (Chat.messages s), (Chat.msg Chat.error (prefix ++ m)).
  split; [reflexivity|]. split; [reflexivity|]. apply includes_suffix.
Qed.

Lemma only_reports_error (m prefix : Js.str) (s : Chat.State) :
  only_reports m s
    (Chat.setLoading false (Chat.append (Chat.msg Chat.error (prefix ++ m)) s)).
Proof.
  exists (Chat.msg Chat.error (prefix ++ m)).
  split; [reflexivity|]. split; [reflexivity|].
  split; [apply includes_suffix|reflexivity].
Qed.



(* ================================================================== *)
(** ** The lines of a message *)

Lemma split_not_nil (sep : N) (s : Js.str) : ChatView.split sep s <> [].
Proof.
  destruct s as [|c s]; simpl; [discriminate|].
  destruct (N.eqb c sep); [discriminate|].
  destruct (ChatView.split sep s); discriminate.
Qed.

Lemma join_split (t : Js.str) : ChatView.join (ChatView.split 10 t) = t.
Proof.
  induction t as [|c t IH]; [reflexivity|]. simpl ChatView.split.
  pose proof (split_not_nil 10 t) as Hne.
  destruct (N.eqb c 10) eqn:Ec.
  - apply N.eqb_eq in Ec. subst c.
    destruct (ChatView.split 10 t) as [|l ls]; [contradiction|].
    change (ChatView.join ([] :: l :: ls)) with (10%N :: ChatView.join (l :: ls)).
    rewrite IH. reflexivity.
  - destruct (ChatView.split 10 t) as [|l ls]; [contradiction|].
    rewrite <- IH. destruct ls; reflexivity.
Qed.

Lemma split_length (t : Js.str) :
  List.length (ChatView.split 10 t) = S (ChatView.newlines t).
Proof.
  unfold ChatView.newlines.
  induction t as [|c t IH]; [reflexivity|].
  cbn [ChatView.split filter]. rewrite (N.eqb_sym 10 c).
  destruct (N.eqb c 10).
  - cbn [List.length]. rewrite IH. reflexivity.
  - destruct (ChatView.split 10 t) as [|l ls]; [discriminate IH|exact IH].
Qed.

Lemma split_pieces (t : Js.str) :
  Forall (fun l => ~ In 10%N l) (ChatView.split 10 t).
Proof.
  induction t as [|c t IH]; [repeat constructor; intros []|]. simpl.
  destruct (N.eqb c 10) eqn:Ec.
  - constructor; [intros []|exact IH].
  - destruct (ChatView.split 10 t) as [|l ls]; [repeat constructor|].
    + intros [H|[]]. subst c. discriminate Ec.
    + inversion IH as [|? ? Hl Hls]; subst. constructor; [|exact Hls].
      intros [H|H]; [subst c; discriminate Ec|exact (Hl H)].
Qed.

Lemma fragments_read (pieces : list Js.str) (i : nat) :
  ChatView.read_back (ChatView.fragments i (i + List.length pieces) pieces)
  = ChatView.join pieces
  /\ List.length (filter ChatView.is_br
                    (ChatView.fragments i (i + List.length pieces) pieces))
     = pred (List.length pieces)
  /\ (Forall (fun l => ~ In 10%N l) pieces ->
      Forall (fun n => match n with
                       | ChatView.Line l => ~ In 10%N l
                       | ChatView.Br => True
                       end)
             (ChatView.fragments i (i + List.length pieces) pieces)).
Proof.
  revert i. induction pieces as [|l rest IH]; intros i.
  - simpl. repeat split. constructor.
  - specialize (IH (S i)).
    replace (i + List.length (l :: rest))%nat with (S i + List.length rest)%nat
      by (simpl; lia).
    destruct IH as (IHr & IHb & IHf).
    cbn [ChatView.fragments]. destruct rest as [|r rest'].
    + replace (i <? S i + List.length (@nil Js.str) - 1)%nat with false
        by (symmetry; apply Nat.ltb_ge; simpl; lia).
      simpl. repeat split.
      * unfold ChatView.read_back. simpl. apply app_nil_r.
      * intros H. inversion H; subst. repeat constructor. assumption.
    + replace (i <? S i + List.length (r :: rest') - 1)%nat with true
        by (symmetry; apply Nat.ltb_lt; simpl; lia).
      set (later := ChatView.fragments (S i) (S i + List.length (r :: rest'))
                      (r :: rest')) in *.
      change (ChatView.Line l :: [ChatView.Br] ++ later)
        with (ChatView.Line l :: ChatView.Br :: later).
      split; [|split].
      * unfold ChatView.read_back in *.
        change (List.concat (map ChatView.read_node
                               (ChatView.Line l :: ChatView.Br :: later)))
          with (l ++ [10%N] ++ List.concat (map ChatView.read_node later)).
        rewrite IHr. reflexivity.
      * change (filter ChatView.is_br (ChatView.Line l :: ChatView.Br :: later))
          with (ChatView.Br :: filter ChatView.is_br later).
        change (List.length (ChatView.Br :: filter ChatView.is_br later))
          with (S (List.length (filter ChatView.is_br later))).
        rewrite IHb. reflexivity.
      * intros H. inversion H; subst.
        constructor; [assumption|]. constructor; [exact I|]. apply IHf. assumption.
Qed.

(** X11. The bubble of a message shows its text line by line: reading
    the rendered lines, with a newline for every break, gives the text
    back; there is one break per newline of the text, and no line
    contains a newline. *)
Theorem message_lines_round_trip (text : Js.str) :
  ChatView.read_back (ChatView.message_content text) = text
  /\ List.length (filter ChatView.is_br (ChatView.message_content text))
     = ChatView.newlines text
  /\ Forall (fun n => match n with
                      | ChatView.Line l => ~ In 10%N l
                      | ChatView.Br => True
                      end)
            (ChatView.message_content text).
Proof.
  unfold ChatView.message_content.
  destruct (fragments_read (ChatView.split 10 text) 0) as (Hr & Hb & Hf).
  simpl in Hr, Hb, Hf. split; [|split].
  - rewrite Hr. apply join_split.
  - rewrite Hb, split_length. reflexivity.
  - apply Hf. apply split_pieces.
Qed.

(* ================================================================== *)
(** ** The completion view *)

Lemma draft_notice_iff (refNumber doc : Js.str) :
  In Complete.DraftNotice (Complete.render refNumber doc)
  <-> Complete.isDraft doc = true.
Proof.
  unfold Complete.render. destruct (Complete.isDraft doc); simpl; split.
  - reflexivity.
  - tauto.
  - intros H. repeat (destruct H as [H|H]; [discriminate H|]). destruct H.
  - discriminate.
Qed.

Lemma verify_item_iff (refNumber doc : Js.str) :
  In Complete.NextVerifyAutoFilled (Complete.render refNumber doc)
  <-> Complete.isDraft doc = true.
Proof.
  unfold Complete.render. destruct (Complete.isDraft doc); simpl; split.
  - reflexivity.
  - intros _. do 9 right. left. reflexivity.
  - intros H. repeat (destruct H as [H|H]; [discriminate H|]). destruct H.
  - discriminate.
Qed.

(** X12. The completion view shows the draft notice exactly when the
    name of the final document has the form a ++ "draft" ++ b (lower
    case, anywhere in the name), and the "Verify auto-filled values" item
    exactly when it shows the notice. *)
Theorem draft_notice_iff_name_contains_draft (refNumber doc : Js.str) :
  (In Complete.DraftNotice (Complete.render refNumber doc)
   <-> exists a b, doc = a ++ $"draft" ++ b)
  /\ (In Complete.NextVerifyAutoFilled (Complete.render refNumber doc)
      <-> In Complete.DraftNotice (Complete.render refNumber doc)).
Proof.
  split.
  - rewrite draft_notice_iff. unfold Complete.isDraft. apply includes_iff.
  - rewrite draft_notice_iff, verify_item_iff. tauto.
Qed.

(* ================================================================== *)
(** ** The upload view *)

(** X13. A selected or dropped file is taken exactly when its name has
    the form stem ++ ".docx" (the stem may be empty, the extension is
    lower case): it then becomes the chosen file and the error message is
    cleared.  Only the first file of a selection or drop is looked at. *)
Theorem docx_file_is_taken (f : Upload.File) (others : list Upload.File)
    (s : Upload.State) :
  ((exists stem, Upload.name f = stem ++ $".docx")
   <-> Upload.handleFileChange (f :: others) s
       = Upload.mkState (Some f) (Upload.uploading s) [] (Upload.dragOver s))
  /\ ((exists stem, Upload.name f = stem ++ $".docx")
      <-> Upload.handleDrop (f :: others) s
          = Upload.mkState (Some f) (Upload.uploading s) [] false)
  /\ Upload.handleFileChange (f :: others) s = Upload.handleFileChange [f] s
  /\ Upload.handleDrop (f :: others) s = Upload.handleDrop [f] s.
Proof.
  unfold Upload.handleFileChange, Upload.handleDrop. simpl hd_error. cbv iota.
  rewrite <- endsWith_iff.
  destruct (Js.endsWith $".docx" (Upload.name f)).
  - repeat split; reflexivity.
  - repeat split; try discriminate; try reflexivity;
      intros H; apply (f_equal Upload.error) in H; discriminate H.
Qed.

(** X14. [handleUpload] with a file chosen posts that file once and keeps
    it chosen; it ends with [uploading] false.  It calls [onSuccess], with
    the data of the response, exactly when the response is ok and reports
    success, and then shows no error; in every other case (a response that
    is not ok or not a success, or a fetch that throws) an error message
    is shown. *)
Theorem upload_outcome (f : Upload.File) (r : Fetched Upload.UploadResponse)
    (s : Upload.State) :
  Upload.file s = Some f ->
  let out := Upload.handleUpload r s in
  (exists tail, snd out = Upload.PostUpload f :: tail
                /\ forall g, ~ In (Upload.PostUpload g) tail)
  /\ Upload.file (fst out) = Some f
  /\ Upload.uploading (fst out) = false
  /\ (forall d, In (Upload.OnSuccess d) (snd out)
                <-> exists resp, r = Json resp
                                 /\ Upload.ok resp = true
                                 /\ Upload.success resp = true
                                 /\ d = Upload.data resp)
  /\ ((exists d, In (Upload.OnSuccess d) (snd out)) ->
      UploadView.error_shown (fst out) = false)
  /\ ((forall d, ~ In (Upload.OnSuccess d) (snd out)) ->
      UploadView.error_shown (fst out) = true).
Proof.
  intros Hf out. subst out. unfold Upload.handleUpload, UploadView.error_shown.
  rewrite Hf. destruct r as [m|resp].
  - simpl. split; [exists []; split; [reflexivity|intros g []]|].
    repeat split; try reflexivity.
    + intros [H|[]]. discriminate H.
    + intros (resp & H & _). discriminate H.
    + intros (d & [H|[]]). discriminate H.
  - destruct (Upload.ok resp) eqn:Eok; destruct (Upload.success resp) eqn:Esu;
      simpl.
    + split; [eexists; split; [reflexivity|intros g [H|[]]; discriminate H]|].
      repeat split; try reflexivity.
      * intros [H|[H|[]]]; [discriminate H|]. inversion H; subst.
        exists resp. auto.
      * intros (resp' & H & _ & _ & ->). inversion H; subst. right; left; reflexivity.
      * intros Hno. exfalso. apply (Hno (Upload.data resp)). right; left; reflexivity.
    + split; [exists []; split; [reflexivity|intros g []]|].
      repeat split; try reflexivity.
      * intros [H|[]]. discriminate H.
      * intros (resp' & H & _ & Hs & _). inversion H; subst. congruence.
      * intros (d & [H|[]]). discriminate H.
      * intros _. destruct (Upload.error_text resp) as [[|c e]|]; reflexivity.
    + split; [exists []; split; [reflexivity|intros g []]|].
      repeat split; try reflexivity.
      * intros [H|[]]. discriminate H.
      * intros (resp' & H & Ho & _). inversion H; subst. congruence.
      * intros (d & [H|[]]). discriminate H.
      * intros _. destruct (Upload.error_text resp) as [[|c e]|]; reflexivity.
    + split; [exists []; split; [reflexivity|intros g []]|].
      repeat split; try reflexivity.
      * intros [H|[]]. discriminate H.
      * intros (resp' & H & Ho & _). inversion H; subst. congruence.
      * intros (d & [H|[]]). discriminate H.
      * intros _. destruct (Upload.error_text resp) as [[|c e]|]; reflexivity.
Qed.

Lemma upload_outcome_witness :
  Upload.uploading
    (fst (Upload.handleUpload (Json Example.upload_refused) Scenario.contract_chosen))
  = false
  /\ UploadView.error_shown
       (fst (Upload.handleUpload (Json Example.upload_refused)
               Scenario.contract_chosen))
     = true.
Proof.
  destruct (@upload_outcome Scenario.contract_docx (Json Example.upload_refused)
              Scenario.contract_chosen eq_refl)
    as (_ & _ & Hup & _ & _ & Herr).
  split; [exact Hup|]. apply Herr.
  intros d [H|[]]. discriminate H.
Defined.

Lemma of_N_digit (d : N) : (d < 10)%N -> Js.of_N d = [(48 + d)%N].
Proof.
  intros H.
  assert (Hd : (d = 0 \/ d = 1 \/ d = 2 \/ d = 3 \/ d = 4 \/ d = 5 \/ d = 6
                \/ d = 7 \/ d = 8 \/ d = 9)%N) by lia.
  repeat (destruct Hd as [->|Hd]; [reflexivity|]). subst d. reflexivity.
Qed.

(** X15. The size hint under the chosen file's name is the size in
    kilobytes rounded to the nearest tenth (half a tenth rounds up): the
    number shown differs from size / 1024 by at most 0.05, and is
    written with exactly one digit after the point, followed by " KB". *)
Theorem size_hint_accuracy (f : Upload.File) :
  (Upload.size f < 2 ^ 53)%N ->
  let n := UploadView.tenths_of_kb (Upload.size f) in
  (1024 * n <= 10 * Upload.size f + 512)%N
  /\ (10 * Upload.size f + 512 < 1024 * n + 1024)%N
  /\ UploadView.size_hint f
     = Js.of_N (n / 10) ++ $"." ++ [(48 + n mod 10)%N] ++ $" KB".
Proof.
  intros _ n. subst n. unfold UploadView.size_hint, UploadView.toFixed1_kb,
    UploadView.tenths_of_kb.
  set (q := ((10 * Upload.size f + 512) / 1024)%N).
  assert (Hq : (10 * Upload.size f + 512
                = 1024 * q + (10 * Upload.size f + 512) mod 1024)%N)
    by (apply N.div_mod; discriminate).
  assert (Hr : ((10 * Upload.size f + 512) mod 1024 < 1024)%N)
    by (apply N.mod_lt; discriminate).
  clearbody q.
  generalize dependent ((10 * Upload.size f + 512) mod 1024)%N. intros rest Hq Hr.
  split; [lia|]. split; [lia|].
  rewrite (@of_N_digit (q mod 10)%N) by (apply N.mod_lt; discriminate).
  rewrite <- !app_assoc. reflexivity.
Qed.

Lemma size_hint_accuracy_witness :
  UploadView.size_hint Scenario.contract_docx = $"20.0 KB".
Proof.
  destruct (@size_hint_accuracy Scenario.contract_docx eq_refl) as (_ & _ & Hh).
  rewrite Hh. reflexivity.
Defined.

(* ================================================================== *)
(** ** The progress bar *)

Lemma percent_checked_spec (n : nat) (c t : N) :
  percent_checked n = true ->
  (0 < t)%N -> (t <= N.of_nat n)%N -> (c <= t)%N ->
  percent_ok c t = true /\ full_iff_complete c t = true.
Proof.
  unfold percent_checked. intros Hall Hpos Hmax Hle.
  rewrite forallb_forall in Hall.
  assert (Ht : In (N.to_nat t) (seq 1 n)) by (apply in_seq; lia).
  specialize (Hall _ Ht). rewrite forallb_forall in Hall.
  assert (Hc : In (N.to_nat c) (seq 0 (S (N.to_nat t)))) by (apply in_seq; lia).
  specialize (Hall _ Hc). rewrite !N2Nat.id in Hall.
  apply andb_true_iff in Hall. exact Hall.
Qed.

Lemma percent_checked_200 : percent_checked 200 = true.
Proof. vm_compute. reflexivity. Qed.

Lemma progressPercent_progress (s : Chat.State) :
  Chat.progressPercent s
  = Chat.progressPercent (Chat.setProgress (Chat.progress s) Chat.init).
Proof. reflexivity. Qed.

(** X16. For up to 200 placeholders and a completed count that does not
    exceed the total, the width of the progress bar, a binary64 number,
    lies between 0 and 100 per cent, differs from the exact percentage by
    at most 2^-46, and is 100 exactly when every placeholder is
    completed. *)
Theorem progress_percent_bounds (s : Chat.State) :
  (0 < Chat.total (Chat.progress s))%N ->
  (Chat.total (Chat.progress s) <= 200)%N ->
  (Chat.filled (Chat.progress s) <= Chat.total (Chat.progress s))%N ->
  exists q,
    Js.num_to_Q (Chat.progressPercent s) = Some q
    /\ 0 <= q /\ q <= 100
    /\ Qabs (q - inject_Z (100 * Z.of_N (Chat.filled (Chat.progress s)))
                 / inject_Z (Z.of_N (Chat.total (Chat.progress s))))
       <= 1 # (2 ^ 46)
    /\ (q == 100
        <-> Chat.filled (Chat.progress s) = Chat.total (Chat.progress s)).
Proof.
  rewrite progressPercent_progress.
  destruct (Chat.progress s) as [c t]. cbn [Chat.filled Chat.total].
  intros Hpos Hmax Hle.
  destruct (@percent_checked_spec 200 c t percent_checked_200 Hpos Hmax Hle)
    as [Hok Hfull].
  unfold percent_ok, full_iff_complete in Hok, Hfull.
  destruct (Js.num_to_Q
              (Chat.progressPercent
                 (Chat.setProgress (Chat.mkProgress c t) Chat.init)))
    as [q|]; [|discriminate Hok].
  exists q. split; [reflexivity|].
  apply andb_true_iff in Hok. destruct Hok as [Hok Hclose].
  apply andb_true_iff in Hok. destruct Hok as [Hlo Hhi].
  apply Qle_bool_iff in Hlo, Hhi, Hclose.
  split; [exact Hlo|]. split; [exact Hhi|]. split; [exact Hclose|].
  apply eqb_prop in Hfull. rewrite <- Qeq_bool_iff, Hfull. apply N.eqb_eq.
Qed.

Lemma progress_percent_bounds_witness :
  exists q,
    Js.num_to_Q
      (Chat.progressPercent
         (Chat.setProgress (Chat.mkProgress 29 100) Chat.init)) = Some q
    /\ 0 <= q /\ q <= 100.
Proof.
  destruct (@progress_percent_bounds
              (Chat.setProgress (Chat.mkProgress 29 100) Chat.init))
    as (q & Hq & Hlo & Hhi & _); [reflexivity|discriminate|discriminate|].
  exists q. auto.
Defined.

(* ================================================================== *)
(** ** Scheduled loads *)

(** X17. Loads of the next question are neither lost nor made up: at
    every point of a session, the loads that have started plus those
    still scheduled are the one of the mount plus one for each accepted
    or auto_filled response a handler acted on. *)
Theorem loads_are_accounted_for (up : App.UploadData) (evs : list Session.Event) :
  let x := Session.run evs (Session.init up) in
  (List.length (filter is_listing (Session.history x)) + Session.scheduled x
   = 1 + List.length (filter schedules (Session.history x)))%nat.
Proof.
  intros x. subst x.
  apply run_invariant with
    (P := fun x =>
            (List.length (filter is_listing (Session.history x))
             + Session.scheduled x
             = 1 + List.length (filter schedules (Session.history x)))%nat).
  - reflexivity.
  - intros x y IH
      [Hh Hn Hf Ha Hc Hs Hl
      | cur Hm Hcur Hshow Ht Hh Hf Hn Ha Hc Hs Hl
      | cur Hm Hcur Hshow Hh Hf Hn Ha Hc Hs Hl
      | Hcur Hshow Hh Hn Hf Ha Hc Hs Hl
      | Hshow Hh Hn Hf Ha Hc Hs Hl
      | Hstep Hh Hn Hf Ha Hch
      | Hpos Hh Hn Hf Ha Hc Hs Hl
      | i from pid r Hnth Hh Hn Hf Ha Hc Hs Hl
      | i r Hnth Hh Hn Hf Ha Hk Hs Hl
      | i r Hnth Hh Hn Hf Ha Hc Hs Hl
      | i g Hnth Hno Hh Hn Hf Ha Hc Hs Hl
      | i d Hnth Hok Hh Hn Hf Ha Hc Hs Hl]; rewrite Hh, Hn;
      cbn [filter is_listing].
    + exact IH.
    + cbn [schedules]. exact IH.
    + cbn [schedules]. exact IH.
    + exact IH.
    + cbn [schedules]. exact IH.
    + cbn [schedules]. exact IH.
    + cbn [schedules List.length]. lia.
    + change (filter schedules (Session.Answered from pid r :: Session.history x))
        with (if schedules (Session.Answered from pid r)
              then Session.Answered from pid r :: filter schedules (Session.history x)
              else filter schedules (Session.history x)).
      destruct (schedules (Session.Answered from pid r)); cbn [List.length]; lia.
    + cbn [schedules]. exact IH.
    + cbn [schedules]. exact IH.
    + cbn [schedules]. exact IH.
    + cbn [schedules]. exact IH.
Qed.

(* ================================================================== *)
(** ** Declining an offer *)

Lemma buttons_need_placeholder (up : App.UploadData) (evs : list Session.Event) :
  let x := Session.run evs (Session.init up) in
  (buttons x = true -> active x <> None)
  /\ (forall from pid, In (Session.AwaitFill from pid) (Session.inflight x) ->
                       active x <> None).
Proof.
  cbv zeta. apply run_invariant with
    (P := fun x =>
            (buttons x = true -> active x <> None)
            /\ (forall from pid,
                   In (Session.AwaitFill from pid) (Session.inflight x) ->
                   active x <> None)).
  - split; [discriminate|]. intros from pid [H|[]]. discriminate H.
  - intros x y [Hb Hw]
      [Hh Hn Hf Ha Hc Hs Hl
      | cur Hm Hcur Hshow Ht Hh Hf Hn Ha Hc Hs Hl
      | cur Hm Hcur Hshow Hh Hf Hn Ha Hc Hs Hl
      | Hcur Hshow Hh Hn Hf Ha Hc Hs Hl
      | Hshow Hh Hn Hf Ha Hc Hs Hl
      | Hstep Hh Hn Hf Ha Hch
      | Hpos Hh Hn Hf Ha Hc Hs Hl
      | i from pid r Hnth Hh Hn Hf Ha Hc Hs Hl
      | i r Hnth Hh Hn Hf Ha Hk Hs Hl
      | i r Hnth Hh Hn Hf Ha Hc Hs Hl
      | i g Hnth Hno Hh Hn Hf Ha Hc Hs Hl
      | i d Hnth Hok Hh Hn Hf Ha Hc Hs Hl].
    + rewrite Hc, Hs, Hf. auto.
    + rewrite Hc. split; intros; discriminate.
    + rewrite Hc. split; intros; discriminate.
    + exfalso. exact (Hb Hshow Hcur).
    + rewrite Hc, Hs, Hf. split; [discriminate|exact Hw].
    + unfold buttons, active in *. rewrite Hch, Hf. auto.
    + rewrite Hc, Hs, Hf. split; [exact Hb|].
      intros f q Hin. destruct (in_snoc_fill _ _ _ _ Hin) as [H|H];
        [exact (Hw f q H)|discriminate H].
    + assert (Hact : active x <> None)
        by (apply (Hw from pid); eapply nth_error_In; exact Hnth).
      rewrite Hc. split; intros; exact Hact.
    + rewrite Hs, Hf. split.
      * intros H. exact (Hk (Hb H)).
      * intros f q Hin. apply In_remove_nth in Hin. exact (Hk (Hw f q Hin)).
    + rewrite Hc, Hs, Hf. split; [exact Hb|].
      intros f q Hin. destruct (in_snoc_fill _ _ _ _ Hin) as [H|H];
        [|discriminate H].
      apply In_remove_nth in H. exact (Hw f q H).
    + rewrite Hc, Hs, Hf. split; [exact Hb|].
      intros f q Hin. apply In_remove_nth in Hin. exact (Hw f q Hin).
    + rewrite Hc, Hs, Hf. split; [exact Hb|].
      intros f q Hin. apply In_remove_nth in Hin. exact (Hw f q Hin).
Qed.

Lemma decline_steps (x : Session.State) (p : Placeholder) (v : Js.str) :
  Session.mounted x = true ->
  Chat.showAutoSuggest (Session.chat x) = true ->
  Chat.currentPlaceholder (Session.chat x) = Some p ->
  Js.truthy (Js.trim v) = true ->
  let after := Session.step x Session.SkipClicked in
  Session.history after = Session.Declined :: Session.history x
  /\ Chat.showAutoSuggest (Session.chat after) = false
  /\ Session.enabled after (Session.Typed v)
     = negb (Chat.loading (Session.chat x))
  /\ (Chat.loading (Session.chat x) = false ->
      Session.history
        (Session.run [Session.SkipClicked; Session.Typed v; Session.SubmitClicked] x)
      = Session.Sent (placeholder_id p) (Js.trim v) false
          :: Session.Declined :: Session.history x)
  /\ (Chat.loading (Session.chat x) = true ->
      Session.run [Session.SkipClicked; Session.Typed v; Session.SubmitClicked] x
      = after).
Proof.
  destruct x as [a [ms inp ld pr cur sh] n fl h].
  unfold Session.mounted. simpl.
  intros Hm -> -> Hv.
  unfold Session.run, Session.step, Session.enabled, Session.fire,
    Session.mounted, Chat.autoSuggestButtons_shown, Chat.input_disabled,
    Chat.send_disabled.
  simpl. rewrite Hm. simpl. rewrite Hm. simpl.
  split; [reflexivity|]. split; [reflexivity|].
  split; [destruct ld; reflexivity|]. split.
  - intros ->. simpl. rewrite Hm. simpl. rewrite Hv. simpl.
    unfold Chat.handleSubmit_send. simpl. rewrite Hv. reflexivity.
  - intros ->. simpl. rewrite Hm. reflexivity.
Qed.

(** X18. Declining an offer hands the conversation back to the form once
    no handler is loading.  In any session in which the consent buttons
    are on show there is an active placeholder, and "Fill Manually" hides
    the buttons.  If [loading] is off, an answer that is not blank can
    then be typed and sent, and it is sent, trimmed and without consent,
    for the active placeholder.  If [loading] is on (a request, such as
    that of the Accept button, is still out) the form stays disabled
    after the click: nothing can be typed or sent until a response
    arrives. *)
Theorem decline_then_answer_manually (up : App.UploadData)
    (evs : list Session.Event) (v : Js.str) :
  let x := Session.run evs (Session.init up) in
  Session.enabled x Session.SkipClicked = true ->
  Js.truthy (Js.trim v) = true ->
  exists p,
    Chat.currentPlaceholder (Session.chat x) = Some p
    /\ Chat.showAutoSuggest
         (Session.chat (Session.step x Session.SkipClicked)) = false
    /\ (Chat.loading (Session.chat x) = false ->
        Session.history
          (Session.run [Session.SkipClicked; Session.Typed v; Session.SubmitClicked] x)
        = Session.Sent (placeholder_id p) (Js.trim v) false
            :: Session.Declined :: Session.history x)
    /\ (Chat.loading (Session.chat x) = true ->
        Session.enabled (Session.step x Session.SkipClicked) (Session.Typed v)
        = false
        /\ Session.run [Session.SkipClicked; Session.Typed v; Session.SubmitClicked] x
           = Session.step x Session.SkipClicked).
Proof.
  intros x Hen Hv. subst x.
  simpl in Hen. apply andb_true_iff in Hen. destruct Hen as [Hm Hshow].
  unfold Chat.autoSuggestButtons_shown in Hshow.
  destruct (buttons_need_placeholder up evs) as [Hcur _].
  specialize (Hcur Hshow). unfold active in Hcur.
  destruct (Chat.currentPlaceholder
              (Session.chat (Session.run evs (Session.init up))))
    as [p|] eqn:Hp; [|contradiction].
  exists p. split; [reflexivity|].
  destruct (@decline_steps (Session.run evs (Session.init up)) p v Hm Hshow Hp Hv)
    as (_ & Hhide & Hen & Hsent & Hstuck).
  split; [exact Hhide|]. split; [exact Hsent|].
  intros Hl. split; [rewrite Hen, Hl; reflexivity|exact (Hstuck Hl)].
Qed.

Lemma decline_then_answer_manually_witness :
  (exists p,
     Chat.currentPlaceholder
       (Session.chat (Session.run Example.offer_shown
                        (Session.init Scenario.uploaded))) = Some p
     /\ Session.history
          (Session.run [Session.SkipClicked; Session.Typed $"zxcv";
                        Session.SubmitClicked]
                       (Session.run Example.offer_shown
                                    (Session.init Scenario.uploaded)))
        = Session.Sent (placeholder_id p) (Js.trim $"zxcv") false
            :: Session.Declined
            :: Session.history (Session.run Example.offer_shown
                                            (Session.init Scenario.uploaded)))
  /\ Session.enabled
       (Session.step (Session.run Example.accept_pending
                        (Session.init Scenario.uploaded))
                     Session.SkipClicked)
       (Session.Typed $"zxcv")
     = false.
Proof.
  split.
  - destruct (decline_then_answer_manually Scenario.uploaded Example.offer_shown
                $"zxcv") as (p & Hp & _ & Hsent & _);
      [reflexivity|reflexivity|].
    exists p. split; [exact Hp|]. apply Hsent. reflexivity.
  - destruct (decline_then_answer_manually Scenario.uploaded
                Example.accept_pending $"zxcv") as (p & _ & _ & _ & Hstuck);
      [reflexivity|reflexivity|].
    apply Hstuck. reflexivity.
Defined.
